(** * Cash-secured puts ROI screener: a shallow embedding and its properties

    The program is [magnificent7_cash_secured_puts_roi_v31.py].  Its three
    functions ([get_weekly_fridays], [get_put_option_data],
    [get_fundamentals]), the ticker universe and the two screening loops of
    the script are embedded below.

    - Everything the program reads from outside is a field of the record
      [World]: the answers of the market-data provider, the moment that
      [datetime.today()] returns, and the parse of [pd.to_datetime].  The
      memoisation of [get_weekly_fridays] by [st.cache_data] is not
      modelled: its [today] is the day of the call that computes the list.
    - Floating-point values are IEEE binary64 ([PrimFloat.float]), as
      Python's [float] and NumPy's [float64] are.  The values read from a
      data frame are NumPy scalars: on them [round(x, 2)] scales, rounds to
      the nearest integer and scales back, and a division by zero yields an
      infinity or NaN instead of raising.  The values of the [info]
      dictionary are Python objects, with Python's [round].
    - A Python exception is the [Raise] outcome of a small error monad; a
      bare [except] is a match on the outcome of the [try] block.
    - The widgets of the Streamlit page are what they return: the text box
      its string (of ASCII characters), a select box the option at the
      position picked.  [run_all] and [run_selected] are what the two
      buttons run, [screener] is the script from the ticker box to the
      button of the mode shown, and [Outcome] is what the page then
      shows. *)

From Stdlib Require Import ZArith Lia List Bool Ascii String DecimalString
  Uint63 Floats FloatLemmas Sorted Permutation.
From stdpp Require Import gmap strings.

Import ListNotations.
Local Open Scope Z_scope.

(** ** Exceptions *)

Inductive exn : Type :=
| IndexError | KeyError | ValueError | TypeError | AttributeError
| OverflowError | ProviderError.

Inductive result (A : Type) : Type :=
| Ok (a : A)
| Raise (e : exn).
Arguments Ok {A} a.
Arguments Raise {A} e.

Definition bind {A B : Type} (m : result A) (k : A -> result B) : result B :=
  match m with
  | Ok a => k a
  | Raise e => Raise e
  end.

Notation "'let*' x ':=' m 'in' k" := (bind m (fun x => k))
  (at level 10, x name, m at level 100, k at level 200).

Fixpoint mapM {A B : Type} (f : A -> result B) (l : list A)
  : result (list B) :=
  match l with
  | [] => Ok []
  | a :: l' =>
      let* b := f a in
      let* bs := mapM f l' in
      Ok (b :: bs)
  end.

(** [range(n)] for a Python int [n]: empty when [n <= 0]. *)
Definition py_range (n : Z) : list Z :=
  map Z.of_nat (seq 0 (Z.to_nat n)).

(** ** The proleptic Gregorian calendar of Python's [datetime] *)

Module Calendar.

Record date : Type := mkdate { year : Z; month : Z; day : Z }.

(** A [datetime]: a date and the time of day, the latter folded into the
    microseconds elapsed since midnight. *)
Record datetime : Type := mkdatetime { dt_date : date; dt_micros : Z }.

Definition MAXORDINAL : Z := 3652059.

Definition _DAYS_IN_MONTH : list Z :=
  [-1; 31; 28; 31; 30; 31; 30; 31; 31; 30; 31; 30; 31].

Definition _DAYS_BEFORE_MONTH : list Z :=
  [-1; 0; 31; 59; 90; 120; 151; 181; 212; 243; 273; 304; 334].

Definition tbl (t : list Z) (i : Z) : Z := nth (Z.to_nat i) t (-1).

Definition _is_leap (y : Z) : bool :=
  (y mod 4 =? 0) && (negb (y mod 100 =? 0) || (y mod 400 =? 0)).

Definition _days_before_year (yr : Z) : Z :=
  let y := yr - 1 in y * 365 + y / 4 - y / 100 + y / 400.

Definition _days_in_month (y m : Z) : Z :=
  if (m =? 2) && _is_leap y then 29 else tbl _DAYS_IN_MONTH m.

Definition _days_before_month (y m : Z) : Z :=
  tbl _DAYS_BEFORE_MONTH m + (if (2 <? m) && _is_leap y then 1 else 0).

Definition _ymd2ord (y m d : Z) : Z :=
  _days_before_year y + _days_before_month y m + d.

Definition _DI400Y : Z := 146097.
Definition _DI100Y : Z := 36524.
Definition _DI4Y : Z := 1461.

Definition _ord2ymd (n : Z) : date :=
  let n := n - 1 in
  let n400 := n / _DI400Y in
  let n := n mod _DI400Y in
  let yr := n400 * 400 + 1 in
  let n100 := n / _DI100Y in
  let n := n mod _DI100Y in
  let n4 := n / _DI4Y in
  let n := n mod _DI4Y in
  let n1 := n / 365 in
  let n := n mod 365 in
  let yr := yr + n100 * 100 + n4 * 4 + n1 in
  if (n1 =? 4) || (n100 =? 4) then mkdate (yr - 1) 12 31
  else
    let leapyear := (n1 =? 3) && (negb (n4 =? 24) || (n100 =? 3)) in
    let mo := Z.shiftr (n + 50) 5 in
    let preceding :=
      tbl _DAYS_BEFORE_MONTH mo + (if (2 <? mo) && leapyear then 1 else 0) in
    if n <? preceding then
      let mo := mo - 1 in
      let preceding :=
        preceding
        - (tbl _DAYS_IN_MONTH mo + (if (mo =? 2) && leapyear then 1 else 0)) in
      mkdate yr mo (n - preceding + 1)
    else mkdate yr mo (n - preceding + 1).

Definition toordinal (d : date) : Z := _ymd2ord (year d) (month d) (day d).

Definition fromordinal (n : Z) : date := _ord2ymd n.

(** Monday is 0 and Sunday is 6. *)
Definition weekday (d : date) : Z := (toordinal d + 6) mod 7.

(** [d + timedelta(days=k)]: out of the calendar's range it raises. *)
Definition add_days (d : date) (k : Z) : result date :=
  let o := toordinal d + k in
  if (0 <? o) && (o <=? MAXORDINAL) then Ok (fromordinal o)
  else Raise OverflowError.

(** What the constructors of [date] accept. *)
Definition valid_date (d : date) : Prop :=
  1 <= year d <= 9999 /\ 1 <= month d <= 12 /\
  1 <= day d <= _days_in_month (year d) (month d).

Definition valid_dateb (d : date) : bool :=
  (1 <=? year d) && (year d <=? 9999) && (1 <=? month d) && (month d <=? 12)
  && (1 <=? day d) && (day d <=? _days_in_month (year d) (month d)).

(** [strftime('%Y-%m-%d')]: the year on four digits, month and day on two. *)
Definition digit (n : Z) : ascii := ascii_of_N (Z.to_N (48 + n mod 10)).

Fixpoint zpad (w : nat) (n : Z) : string :=
  match w with
  | O => EmptyString
  | S w' => String (digit (n / 10 ^ Z.of_nat w')) (zpad w' n)
  end.

Definition strftime (d : date) : string :=
  (zpad 4 (year d) ++ "-" ++ zpad 2 (month d) ++ "-" ++ zpad 2 (day d))%string.

End Calendar.

Import Calendar.

(** ** The Expiration Enumerator *)

Definition friday_offset (today : date) (i : Z) : Z :=
  (4 - weekday today + 7 * i) mod 7 + 7 * i.

Definition get_weekly_fridays (today : datetime) (n : Z)
  : result (list string) :=
  mapM (fun i =>
          let* d := add_days (dt_date today) (friday_offset (dt_date today) i) in
          Ok (strftime d))
       (py_range n).

(** ** IEEE binary64 numbers, as NumPy and Python compute with them *)

Module Float64.

(** A Python int converted to a float: the nearest binary64, ties to even
    (an infinity past the range of binary64, where Python raises: the ints
    of this program are percentages and counts of days). *)
Definition float_of_int (z : Z) : float :=
  SF2Prim (binary_normalize prec emax z 0 false).

(** [m / d] rounded to the nearest integer, ties to the even one
    ([0 <= m], [0 < d]). *)
Definition round_half_even (m d : Z) : Z :=
  let q := m / d in
  let r := m mod d in
  if 2 * r <? d then q
  else if d <? 2 * r then q + 1
  else if Z.even q then q else q + 1.

(** [numpy.rint]: the nearest integral value, ties to even, the sign kept;
    infinities and NaN pass through. *)
Definition rint (x : float) : float :=
  match Prim2SF x with
  | S754_finite s m e =>
      if 0 <=? e then x
      else
        let a :=
          of_uint63 (Uint63.of_Z (round_half_even (Zpos m) (2 ^ (- e)))) in
        if s then (- a)%float else a
  | _ => x
  end.

(** [round(x, 2)] for a [numpy.float64]: scale, [rint], scale back. *)
Definition np_round2 (x : float) : float := (rint (x * 100) / 100)%float.

(** [round(x, 2)] for a Python [float]: the exact value rounded half-even to
    two decimals, then the nearest binary64 of that decimal. *)
Definition py_round2 (x : float) : float :=
  match Prim2SF x with
  | S754_finite s m e =>
      if 0 <=? e then x
      else
        match round_half_even (Zpos m * 100) (2 ^ (- e)) with
        | Zpos k => SF2Prim (SF64div (S754_finite s k 0) (Prim2SF 100))
        | _ => if s then (-0)%float else 0%float
        end
  | _ => x
  end.

(** [int(x)]: truncation toward zero; NaN and the infinities raise. *)
Definition int_of_float (x : float) : result Z :=
  match Prim2SF x with
  | S754_nan => Raise ValueError
  | S754_infinity _ => Raise OverflowError
  | S754_zero _ => Ok 0
  | S754_finite s m e =>
      let a := if 0 <=? e then Zpos m * 2 ^ e else Zpos m / 2 ^ (- e) in
      Ok (if s then - a else a)
  end.

(** The exact comparison of a float with a Python int; [None] for NaN. *)
Definition compare_float_int (x : float) (z : Z) : option comparison :=
  match Prim2SF x with
  | S754_nan => None
  | S754_infinity s => Some (if s then Lt else Gt)
  | S754_zero _ => Some (0 ?= z)
  | S754_finite s m e =>
      let v := if s then Zneg m else Zpos m in
      Some (if 0 <=? e then v * 2 ^ e ?= z else v ?= z * 2 ^ (- e))
  end.

End Float64.

Import Float64.

(** ** Strings *)

Definition string_of_nat (n : nat) : string :=
  NilZero.string_of_uint (Nat.to_uint n).

Definition string_of_int (z : Z) : string :=
  match z with
  | Zneg p => String "-" (NilZero.string_of_uint (Pos.to_uint p))
  | _ => NilZero.string_of_uint (N.to_uint (Z.to_N z))
  end.

Definition upper (c : ascii) : ascii :=
  let n := nat_of_ascii c in
  if ((97 <=? n) && (n <=? 122))%nat then ascii_of_nat (n - 32) else c.

Definition lower (c : ascii) : ascii :=
  let n := nat_of_ascii c in
  if ((65 <=? n) && (n <=? 90))%nat then ascii_of_nat (n + 32) else c.

Fixpoint map_string (f : ascii -> ascii) (s : string) : string :=
  match s with
  | EmptyString => EmptyString
  | String c s' => String (f c) (map_string f s')
  end.

(** [str.capitalize()], on ASCII. *)
Definition capitalize (s : string) : string :=
  match s with
  | EmptyString => EmptyString
  | String c s' => String (upper c) (map_string lower s')
  end.

(** [sep.join(l)]. *)
Fixpoint join (sep : string) (l : list string) : string :=
  match l with
  | [] => EmptyString
  | [x] => x
  | x :: l' => (x ++ sep ++ join sep l')%string
  end.

(** [f"{x:.2f}"]. *)
Definition format_2f (x : float) : string :=
  match Prim2SF x with
  | S754_nan => "nan"
  | S754_infinity s => if s then "-inf" else "inf"
  | S754_zero s => if s then "-0.00" else "0.00"
  | S754_finite s m e =>
      let k := if 0 <=? e then Zpos m * 2 ^ e * 100
               else round_half_even (Zpos m * 100) (2 ^ (- e)) in
      ((if s then "-" else EmptyString) ++ string_of_int (k / 100) ++ "."
       ++ zpad 2 (k mod 100))%string
  end.

(** ** What the market-data provider returns *)

(** One row of the put chain, its columns as float64 (the open interest
    too: a missing count is a NaN). *)
Record PutQuote : Type := mkPutQuote {
  strike : float;
  bid : float;
  ask : float;
  openInterest : float;
  impliedVolatility : float
}.

(** The values found in the [info] dictionary. *)
Inductive pyval : Type :=
| PyNone
| PyBool (b : bool)
| PyInt (z : Z)
| PyFloat (f : float)
| PyStr (s : string).

(** Reading an attribute: it may be absent ([hasattr] is false), raise
    another exception, or yield a value. *)
Inductive attr (A : Type) : Type :=
| NoAttr
| AttrRaise (e : exn)
| Attr (a : A).
Arguments NoAttr {A}.
Arguments AttrRaise {A} e.
Arguments Attr {A} a.

(** A data frame of floats, as its columns in order. *)
Definition frame : Type := list (string * list float).

(** The answers of the provider, what [datetime.today()] reads and what
    [pd.to_datetime] parses: everything the three functions read from
    outside.  A [Raise] is a lookup that raises. *)
Record World : Type := mkWorld {
  today : datetime;
  history_close : string -> result (list float);
  options : string -> result (list string);
  option_chain_puts : string -> string -> result (list PutQuote);
  info : string -> result (gmap string pyval);
  calendar : string -> result (list (string * list date));
  quarterly_earnings : string -> attr frame;
  to_datetime : string -> result date
}.

(** ** The Put Screener *)

(** The record that [get_put_option_data] returns, a field for each key of
    its dictionary: ['Current Price'] is [Current_Price], ['Abs ROI (%)'] is
    [Abs_ROI], and so on. *)
Record ScreenResult : Type := mkScreenResult {
  Ticker : string;
  Current_Price : float;
  Strike : float;
  Bid : float;
  Ask : float;
  Open_Interest : Z;
  Premium : float;
  Cash_Required : float;
  Abs_ROI : float;
  Annualized_ROI : float;
  Expiration : string;
  IV : float
}.

(** [s.iloc[-1]]. *)
Definition iloc_last (s : list float) : result float :=
  match rev s with
  | [] => Raise IndexError
  | x :: _ => Ok x
  end.

(** A chain as a data frame: each row under its index label, which the
    provider's frame numbers from 0 in row order. *)
Definition with_index (chain : list PutQuote) : list (nat * PutQuote) :=
  combine (seq 0 (length chain)) chain.

(** What [idxmax] compares in place of a NaN. *)
Definition fillna_neg_inf (x : float) : float :=
  if is_nan x then neg_infinity else x.

(** [argmax]: the first position holding the greatest value. *)
Fixpoint argmax_from (best : nat * float) (l : list (nat * float))
  : nat * float :=
  match l with
  | [] => best
  | c :: l' =>
      if (snd best <? snd c)%float then argmax_from c l'
      else argmax_from best l'
  end.

(** [Series.idxmax()]: NaN entries are skipped (they count as minus
    infinity); the label of the first greatest entry.  With nothing but NaN
    there is no label, and the lookup that follows raises. *)
Definition idxmax (col : list (nat * float)) : result nat :=
  if forallb (fun c => is_nan (snd c)) col then Raise ValueError
  else
    match map (fun c => (fst c, fillna_neg_inf (snd c))) col with
    | [] => Raise ValueError
    | c :: l => Ok (fst (argmax_from c l))
    end.

(** [df.loc[label]]. *)
Definition loc (df : list (nat * PutQuote)) (label : nat) : result PutQuote :=
  match find (fun r => Nat.eqb (fst r) label) df with
  | Some r => Ok (snd r)
  | None => Raise KeyError
  end.

(** Microseconds in a day. *)
Definition MICROS_PER_DAY : Z := 86400000000.

(** [(pd.to_datetime(target_expiration) - datetime.today()).days]: whole
    days, rounded down, from now to the midnight that starts the
    expiration date. *)
Definition days_between (expiration : date) (now : datetime) : Z :=
  ((toordinal expiration - toordinal (dt_date now)) * MICROS_PER_DAY
   - dt_micros now) / MICROS_PER_DAY.

(** The strike ceiling of line 21. *)
Definition max_strike_of (price : float) (moneyness_pct : Z) : float :=
  (price * (1 - float_of_int moneyness_pct / 100))%float.

(** The filter of line 22. *)
Definition qualifies (max_strike : float) (r : nat * PutQuote) : bool :=
  (strike (snd r) <=? max_strike)%float.

(** The dictionary built at lines 27-40. *)
Definition screen_record (ticker target_expiration : string) (price : float)
  (best_put : PutQuote) (days_to_exp open_interest : Z) : ScreenResult :=
  {| Ticker := ticker;
     Current_Price := np_round2 price;
     Strike := np_round2 (strike best_put);
     Bid := np_round2 (bid best_put);
     Ask := np_round2 (ask best_put);
     Open_Interest := open_interest;
     Premium := np_round2 (bid best_put * 100);
     Cash_Required := np_round2 (strike best_put * 100);
     Abs_ROI := np_round2 (bid best_put / strike best_put * 100);
     Annualized_ROI :=
       np_round2 (bid best_put / strike best_put * 100 * 365
                  / float_of_int days_to_exp);
     Expiration := target_expiration;
     IV := np_round2 (impliedVolatility best_put * 100) |}%float.

(** The body of the [try] block: [Ok None] is a [return None], [Raise] an
    exception. *)
Definition get_put_option_data_try (w : World)
  (ticker target_expiration : string) (moneyness_pct : Z)
  : result (option ScreenResult) :=
  let* closes := history_close w ticker in
  let* price := iloc_last closes in
  let* expirations := options w ticker in
  if negb (existsb (String.eqb target_expiration) expirations) then Ok None
  else
    let* chain := option_chain_puts w ticker target_expiration in
    let puts := with_index chain in
    let max_strike := max_strike_of price moneyness_pct in
    let puts := List.filter (qualifies max_strike) puts in
    match puts with
    | [] => Ok None
    | _ :: _ =>
        let* label := idxmax (map (fun r => (fst r, bid (snd r))) puts) in
        let* best_put := loc puts label in
        let* expiration := to_datetime w target_expiration in
        let days_to_exp := days_between expiration (today w) in
        let* open_interest := int_of_float (openInterest best_put) in
        Ok (Some (screen_record ticker target_expiration price best_put
                    days_to_exp open_interest))
    end.

(** [get_put_option_data]: the bare [except] turns every exception into
    [None]. *)
Definition get_put_option_data (w : World)
  (ticker target_expiration : string) (moneyness_pct : Z)
  : option ScreenResult :=
  match get_put_option_data_try w ticker target_expiration moneyness_pct with
  | Ok r => r
  | Raise _ => None
  end.

(** ** The Fundamentals Enricher *)

(** The record that [get_fundamentals] returns. *)
Record FundamentalsSummary : Type := mkFundamentals {
  Dividend_Yield : pyval;
  Earnings_Date : string;
  Price_Target : pyval;
  Recommendation : string;
  EPS_Last_4 : string;
  EPS_Beats_4Q : string;
  Overall_Score : Z
}.

(** The record of the [except] branch. *)
Definition default_fundamentals : FundamentalsSummary :=
  {| Dividend_Yield := PyFloat 0;
     Earnings_Date := "N/A";
     Price_Target := PyFloat 0;
     Recommendation := "N/A";
     EPS_Last_4 := "N/A";
     EPS_Beats_4Q := "N/A";
     Overall_Score := 0 |}.

(** [d.get(k, default)] and [d.get(k)]. *)
Definition dict_get (d : gmap string pyval) (k : string) (default : pyval)
  : pyval :=
  match d !! k with
  | Some v => v
  | None => default
  end.

Definition get (d : gmap string pyval) (k : string) : pyval :=
  dict_get d k PyNone.

(** [bool(v)]. *)
Definition truthy (v : pyval) : bool :=
  match v with
  | PyNone => false
  | PyBool b => b
  | PyInt z => negb (z =? 0)
  | PyFloat f => negb (f =? 0)%float
  | PyStr s => negb (String.eqb s EmptyString)
  end.

(** [v == 'buy'], for a string literal on the right. *)
Definition eq_str (v : pyval) (s : string) : bool :=
  match v with
  | PyStr t => String.eqb t s
  | _ => false
  end.

Definition int_of_bool (b : bool) : Z := if b then 1 else 0.

Definition is_gt (c : comparison) : bool :=
  match c with Gt => true | _ => false end.

Definition is_lt (c : comparison) : bool :=
  match c with Lt => true | _ => false end.

(** [a > b]: numbers compare with numbers, strings with strings; anything
    else is a [TypeError]. *)
Definition py_gt (a b : pyval) : result bool :=
  let num (v : pyval) : option (Z + float) :=
    match v with
    | PyBool b => Some (inl (int_of_bool b))
    | PyInt z => Some (inl z)
    | PyFloat f => Some (inr f)
    | _ => None
    end in
  match a, b with
  | PyStr s, PyStr t => Ok (is_gt (String.compare s t))
  | _, _ =>
      match num a, num b with
      | Some (inl x), Some (inl y) => Ok (y <? x)
      | Some (inr x), Some (inr y) => Ok (y <? x)%float
      | Some (inr x), Some (inl y) =>
          Ok (match compare_float_int x y with
              | Some c => is_gt c
              | None => false
              end)
      | Some (inl x), Some (inr y) =>
          Ok (match compare_float_int y x with
              | Some c => is_lt c
              | None => false
              end)
      | _, _ => Raise TypeError
      end
  end.

Fixpoint repeat_string (n : nat) (s : string) : string :=
  match n with
  | O => EmptyString
  | S n' => (s ++ repeat_string n' s)%string
  end.

(** [v * 100]. *)
Definition py_mul_100 (v : pyval) : result pyval :=
  match v with
  | PyNone => Raise TypeError
  | PyBool b => Ok (PyInt (int_of_bool b * 100))
  | PyInt z => Ok (PyInt (z * 100))
  | PyFloat f => Ok (PyFloat (f * 100))
  | PyStr s => Ok (PyStr (repeat_string 100 s))
  end.

(** [round(v, 2)]. *)
Definition py_round_2 (v : pyval) : result pyval :=
  match v with
  | PyBool b => Ok (PyInt (int_of_bool b))
  | PyInt z => Ok (PyInt z)
  | PyFloat f => Ok (PyFloat (py_round2 f))
  | PyNone | PyStr _ => Raise TypeError
  end.

(** [v.capitalize()]. *)
Definition py_capitalize (v : pyval) : result string :=
  match v with
  | PyStr s => Ok (capitalize s)
  | _ => Raise AttributeError
  end.

(** [df.empty]: no column, or no row. *)
Definition frame_empty (df : frame) : bool :=
  match df with
  | [] => true
  | (_, col) :: _ => Nat.eqb (length col) 0
  end.

(** [df[name]]. *)
Definition column (df : frame) (name : string) : result (list float) :=
  match find (fun c => String.eqb (fst c) name) df with
  | Some c => Ok (snd c)
  | None => Raise KeyError
  end.

(** [s.tail(4).tolist()]. *)
Definition tail4 (l : list float) : list float :=
  skipn (length l - 4) l.

(** The three sub-conditions of the score, lines 53-55. *)
Definition recommends_buy (i : gmap string pyval) : bool :=
  eq_str (get i "recommendationKey") "buy".

Definition target_above_price (i : gmap string pyval) : result bool :=
  if truthy (get i "targetMeanPrice")
  then py_gt (get i "targetMeanPrice") (get i "currentPrice")
  else Ok false.

Definition pays_dividend (i : gmap string pyval) : bool :=
  truthy (get i "dividendYield").

(** The body of the [try] block. *)
Definition get_fundamentals_try (w : World) (ticker : string)
  : result FundamentalsSummary :=
  let* i := info w ticker in
  let* cal := calendar w ticker in
  let* earnings_date :=
    match find (fun r => String.eqb (fst r) "Earnings Date") cal with
    | Some row =>
        match snd row with
        | d :: _ => Ok (Some d)
        | [] => Raise KeyError
        end
    | None => Ok None
    end in
  let* eps_data :=
    match quarterly_earnings w ticker with
    | Attr df => Ok df
    | NoAttr => Ok []
    | AttrRaise e => Raise e
    end in
  let* eps_list :=
    if negb (frame_empty eps_data)
    then let* col := column eps_data "Earnings" in Ok (tail4 col)
    else Ok [] in
  let* beats :=
    if negb (frame_empty eps_data)
    then
      let* earnings := column eps_data "Earnings" in
      let* estimate := column eps_data "Estimate" in
      Ok (map (fun em => int_of_bool (snd em <=? fst em)%float)
              (combine earnings estimate))
    else Ok [] in
  let score := 0 in
  let score := if recommends_buy i then score + 1 else score in
  let* above := target_above_price i in
  let score := if above then score + 1 else score in
  let score := if pays_dividend i then score + 1 else score in
  let* dividend_yield :=
    if truthy (get i "dividendYield")
    then let* x := py_mul_100 (dict_get i "dividendYield" (PyInt 0)) in
         py_round_2 x
    else Ok (PyFloat 0) in
  let earnings_date_str :=
    match earnings_date with
    | Some d => strftime d
    | None => "N/A"%string
    end in
  let* price_target := py_round_2 (dict_get i "targetMeanPrice" (PyInt 0)) in
  let* recommendation :=
    py_capitalize (dict_get i "recommendationKey" (PyStr "N/A")) in
  Ok {| Dividend_Yield := dividend_yield;
        Earnings_Date := earnings_date_str;
        Price_Target := price_target;
        Recommendation := recommendation;
        EPS_Last_4 :=
          match eps_list with
          | [] => "N/A"
          | _ => join ", " (map format_2f eps_list)
          end;
        EPS_Beats_4Q :=
          match beats with
          | [] => "N/A"
          | _ => (string_of_int (fold_right Z.add 0 beats) ++ "/"
                  ++ string_of_nat (length beats))%string
          end;
        Overall_Score := score |}.

(** [get_fundamentals]: any exception yields the default record. *)
Definition get_fundamentals (w : World) (ticker : string)
  : FundamentalsSummary :=
  match get_fundamentals_try w ticker with
  | Ok r => r
  | Raise _ => default_fundamentals
  end.

(** ** The screening loops of the script *)

(** A row of the result table: the screener's record updated with the
    fundamentals (the two have no key in common). *)
Record Row : Type := mkRow {
  option_data : ScreenResult;
  fundamentals : FundamentalsSummary
}.

(** [min_price <= option_data['Current Price'] <= max_price]. *)
Definition in_price_range (min_price max_price : float) (r : ScreenResult)
  : bool :=
  ((min_price <=? Current_Price r) && (Current_Price r <=? max_price))%float.

(** One turn of either loop: what it appends to [results]. *)
Definition screen_pair (w : World) (min_price max_price : float)
  (moneyness : Z) (ticker expiration : string) : list Row :=
  match get_put_option_data w ticker expiration moneyness with
  | Some od =>
      if in_price_range min_price max_price od
      then [mkRow od (get_fundamentals w ticker)]
      else []
  | None => []
  end.

(** [results] once the loop has run over the given pairs. *)
Definition collect (w : World) (min_price max_price : float) (moneyness : Z)
  (pairs : list (string * string)) : list Row :=
  flat_map (fun p => screen_pair w min_price max_price moneyness
                       (fst p) (snd p)) pairs.

(** [df.sort_values(by=key, ascending=False)]: rows with a NaN key go last;
    the others in descending order of the key, ties in their input order. *)
Fixpoint insert_desc (key : Row -> float) (r : Row) (l : list Row)
  : list Row :=
  match l with
  | [] => [r]
  | x :: l' =>
      if (key x <=? key r)%float then r :: x :: l'
      else x :: insert_desc key r l'
  end.

Definition sort_desc (key : Row -> float) (l : list Row) : list Row :=
  fold_right (insert_desc key) [] l.

Definition sort_values_desc (key : Row -> float) (l : list Row) : list Row :=
  (sort_desc key (List.filter (fun r => negb (is_nan (key r))) l)
   ++ List.filter (fun r => is_nan (key r)) l)%list.

(** What the page shows after a run. *)
Inductive Outcome : Type :=
| Success (message : string) (df : list Row) (csv_name : string)
| Warning (message : string).

(** Lines 89-106: the ALL mode, over [all_tickers[1:]]. *)
Definition run_all (w : World) (all_tickers : list string)
  (expiration : string) (min_price max_price : float) (moneyness : Z)
  : Outcome :=
  let results :=
    collect w min_price max_price moneyness
      (map (fun ticker => (ticker, expiration)) (tl all_tickers)) in
  match results with
  | [] => Warning "No results found for given filters."
  | _ :: _ =>
      Success ("Showing cash-secured puts for expiration: " ++ expiration)
        (sort_values_desc (fun r => Bid (option_data r)) results)
        "cash_secured_puts_all.csv"
  end.

(** Lines 107-124: one selected stock, over [get_weekly_fridays(n=4)]. *)
Definition run_selected (w : World) (selected_stock : string)
  (min_price max_price : float) (moneyness : Z) : result Outcome :=
  let* weekly_dates := get_weekly_fridays (today w) 4 in
  let results :=
    collect w min_price max_price moneyness
      (map (fun exp => (selected_stock, exp)) weekly_dates) in
  match results with
  | [] => Ok (Warning "No results found for selected stock.")
  | _ :: _ =>
      Ok (Success
            ("Showing next 4 weekly expirations for " ++ selected_stock)
            (sort_values_desc (fun r => Abs_ROI (option_data r)) results)
            (selected_stock ++ "_puts_analysis.csv"))
  end.

(** ** The ticker universe and the two modes of the page *)

Definition DEFAULT_MAGNIFICENT_7 : list string :=
  ["AAPL"; "MSFT"; "GOOGL"; "AMZN"; "META"; "NVDA"; "TSLA"]%string.

(** [s.split(sep)] for a one-character separator: the pieces between the
    separators, one piece more than there are separators. *)
Fixpoint split_on (sep : ascii) (s : string) : list string :=
  match s with
  | EmptyString => [EmptyString]
  | String c s' =>
      if Ascii.eqb c sep then EmptyString :: split_on sep s'
      else
        match split_on sep s' with
        | piece :: pieces => String c piece :: pieces
        | [] => [String c EmptyString]
        end
  end.

(** [c.isspace()], on ASCII: tab to carriage return, the four separators
    28 to 31, and the space. *)
Definition is_space (c : ascii) : bool :=
  let n := nat_of_ascii c in
  (((9 <=? n) && (n <=? 13)) || ((28 <=? n) && (n <=? 32)))%nat.

Fixpoint lstrip (s : string) : string :=
  match s with
  | EmptyString => EmptyString
  | String c s' => if is_space c then lstrip s' else s
  end.

Fixpoint rstrip (s : string) : string :=
  match s with
  | EmptyString => EmptyString
  | String c s' =>
      match rstrip s' with
      | EmptyString => if is_space c then EmptyString else String c EmptyString
      | r => String c r
      end
  end.

(** [s.strip()], on ASCII. *)
Definition strip (s : string) : string := lstrip (rstrip s).

(** [s.upper()], on ASCII. *)
Definition upper_string (s : string) : string := map_string upper s.

(** Line 81: the tickers typed by the user, trimmed and upper-cased, blank
    pieces left out. *)
Definition custom_tickers (user_input : string) : list string :=
  map (fun x => upper_string (strip x))
      (List.filter (fun x => negb (String.eqb (strip x) EmptyString))
                   (split_on "," user_input)).

(** [sorted(set(l))]: the distinct elements in increasing order. *)
Fixpoint insert_sorted (x : string) (l : list string) : list string :=
  match l with
  | [] => [x]
  | y :: l' =>
      match String.compare x y with
      | Lt => x :: y :: l'
      | Eq => y :: l'
      | Gt => y :: insert_sorted x l'
      end
  end.

Definition sorted_set (l : list string) : list string :=
  fold_right insert_sorted [] l.

(** Line 82. *)
Definition all_tickers (user_input : string) : list string :=
  "ALL"%string :: sorted_set (DEFAULT_MAGNIFICENT_7 ++ custom_tickers user_input).

(** [st.selectbox(label, options)]: the option at the position the user
    picks; the box offers the positions of the list only. *)
Definition selectbox (options : list string) (choice : nat) : string :=
  nth choice options EmptyString.

(** Lines 84-124, once the button of the mode shown is pressed.  The stock
    is picked among [all_tickers].  The ALL entry has the page compute the
    ten weekly dates, show them in a second box, and run the screener over
    the universe for the date picked there; any other entry runs it for
    that stock over the four weekly dates. *)
Definition screener (w : World) (user_input : string)
  (stock_choice expiration_choice : nat)
  (min_price max_price : float) (moneyness : Z) : result Outcome :=
  let selected_stock := selectbox (all_tickers user_input) stock_choice in
  if String.eqb selected_stock "ALL"
  then
    let* weekly_dates := get_weekly_fridays (today w) 10 in
    let expiration := selectbox weekly_dates expiration_choice in
    Ok (run_all w (all_tickers user_input) expiration
          min_price max_price moneyness)
  else run_selected w selected_stock min_price max_price moneyness.

(** * The vocabulary of the statements and of their proofs *)

(** ** Predicates of the statements *)

(** The order of dates: by year, then month, then day. *)
Definition date_lt (a b : date) : Prop :=
  year a < year b \/
  (year a = year b /\
   (month a < month b \/ (month a = month b /\ day a < day b))).

(** The order of strings, character by character, as Python compares
    them. *)
Definition string_lt (s t : string) : Prop := String.compare s t = Lt.

(** [c] occurs in [s]. *)
Fixpoint occurs (c : ascii) (s : string) : Prop :=
  match s with
  | EmptyString => False
  | String a s' => a = c \/ occurs c s'
  end.

(** The rows that pass the strike filter of line 22. *)
Definition qualifying (chain : list PutQuote) (max_strike : float)
  : list (nat * PutQuote) :=
  List.filter (qualifies max_strike) (with_index chain).

(** The row [best] at position [label] of the chain is the screener's
    choice under the strike ceiling: it qualifies, no qualifying row has a
    greater bid (NaN bids counting as minus infinity, as [idxmax] takes
    them), and no earlier qualifying row has an equal one. *)
Definition selected (chain : list PutQuote) (max_strike : float)
  (label : nat) (best : PutQuote) : Prop :=
  nth_error chain label = Some best /\
  (strike best <=? max_strike)%float = true /\
  forall j q,
    nth_error chain j = Some q -> (strike q <=? max_strike)%float = true ->
    (fillna_neg_inf (bid q) <=? fillna_neg_inf (bid best))%float = true /\
    ((fillna_neg_inf (bid q) =? fillna_neg_inf (bid best))%float = true ->
     (label <= j)%nat).

(** The lookups of lines 16-20 succeed: the last close is [price], the
    expiration is offered, and its put chain is [chain]. *)
Definition fetched (w : World) (ticker expiration : string) (price : float)
  (chain : list PutQuote) : Prop :=
  exists closes expirations,
    history_close w ticker = Ok closes /\
    iloc_last closes = Ok price /\
    options w ticker = Ok expirations /\
    existsb (String.eqb expiration) expirations = true /\
    option_chain_puts w ticker expiration = Ok chain.

(** The number of sub-conditions that hold. *)
Definition score_count (buy above dividend : bool) : Z :=
  int_of_bool buy + int_of_bool above + int_of_bool dividend.

(** [row] is what one turn of the loop appends for the pair: the screener
    returned a record, its current price is within the range, and the row
    is that record with the fundamentals of the ticker. *)
Definition kept (w : World) (min_price max_price : float) (m : Z)
  (ticker expiration : string) (row : Row) : Prop :=
  exists od,
    get_put_option_data w ticker expiration m = Some od /\
    in_price_range min_price max_price od = true /\
    row = mkRow od (get_fundamentals w ticker).

(** Descending order of a key, rows with a NaN key last. *)
Definition desc_by (key : Row -> float) (a b : Row) : Prop :=
  (key b <=? key a)%float = true \/ is_nan (key b) = true.

(** What the page shows for the collected [rows]: a warning when there is
    none, otherwise the same rows sorted by the key, descending. *)
Definition shows (key : Row -> float) (rows : list Row) (out : Outcome)
  : Prop :=
  match out with
  | Warning _ => rows = []
  | Success _ df _ =>
      rows <> [] /\ Permutation rows df /\ StronglySorted (desc_by key) df
  end.

(** The ticker and the expiration that a row of the table shows. *)
Definition ticker_of (r : Row) : string := Ticker (option_data r).

Definition expiration_of (r : Row) : string := Expiration (option_data r).

(** [puts.loc[puts['bid'].idxmax()]], line 25. *)
Definition best_row (puts : list (nat * PutQuote)) : result PutQuote :=
  let* label := idxmax (map (fun r => (fst r, bid (snd r))) puts) in
  loc puts label.

(** ** Example inputs *)

(** The value of a decimal digit. *)
Definition digit_value (c : ascii) : option Z :=
  let n := Z.of_N (N_of_ascii c) in
  if (48 <=? n) && (n <=? 57) then Some (n - 48) else None.

(** A parser for the [YYYY-MM-DD] strings that [get_weekly_fridays]
    produces, to stand for [pd.to_datetime] in the example worlds. *)
Definition parse_iso_date (s : string) : result date :=
  match list_ascii_of_string s with
  | [y1; y2; y3; y4; "-"; m1; m2; "-"; d1; d2]%char =>
      match digit_value y1, digit_value y2, digit_value y3, digit_value y4,
            digit_value m1, digit_value m2, digit_value d1, digit_value d2
      with
      | Some a, Some b, Some c, Some d, Some e, Some f, Some g, Some h =>
          let r := mkdate (1000 * a + 100 * b + 10 * c + d) (10 * e + f)
                     (10 * g + h) in
          if valid_dateb r then Ok r else Raise ValueError
      | _, _, _, _, _, _, _, _ => Raise ValueError
      end
  | _ => Raise ValueError
  end.

(** An example world: one closing price for every ticker, four expirations
    on offer, one chain, the same [info] for every ticker, no earnings. *)
Definition example_world (now : datetime) (price : float)
  (chain : list PutQuote) (i : gmap string pyval) : World :=
  {| today := now;
     history_close := fun _ => Ok [price];
     options := fun _ =>
       Ok ["2026-11-06"; "2026-11-13"; "2026-11-20"; "2026-11-27"]%string;
     option_chain_puts := fun _ _ => Ok chain;
     info := fun _ => Ok i;
     calendar := fun _ => Ok [];
     quarterly_earnings := fun _ => NoAttr;
     to_datetime := parse_iso_date |}.

(** The chain of the specification's example: at a price of 200 and a
    moneyness of 5, only the strike 185 is under the ceiling of 190. *)
Definition example_chain : list PutQuote :=
  [ mkPutQuote 185 2 2.5 120 0.25; mkPutQuote 195 3 3.5 80 0.25 ]%float.

(** The example chain between two rows above the strike ceiling, the first
    with the greatest bid of all. *)
Definition chain_with_rows_above : list PutQuote :=
  [ mkPutQuote 210 9 9.5 10 0.25; mkPutQuote 185 2 2.5 120 0.25;
    mkPutQuote 195 3 3.5 80 0.25; mkPutQuote 205 7 7.5 40 0.25 ]%float.

(** A chain whose only row has no open interest on record. *)
Definition chain_without_open_interest : list PutQuote :=
  [ mkPutQuote 185 2 2.5 nan 0.25 ]%float.

(** Three moments of the first week of November 2026, at 10:00. *)
Definition wednesday_10am : datetime :=
  mkdatetime (mkdate 2026 11 4) 36000000000.

Definition thursday_10am : datetime :=
  mkdatetime (mkdate 2026 11 5) 36000000000.

Definition friday_10am : datetime :=
  mkdatetime (mkdate 2026 11 6) 36000000000.

(** The record of the example chain for the expiration of 2026-11-13, seen
    from the Wednesday: 8 whole days ahead. *)
Definition example_record : ScreenResult :=
  screen_record "AAPL" "2026-11-13" 200 (mkPutQuote 185 2 2.5 120 0.25) 8 120.

(** An [info] dictionary with a buy recommendation, a price target and a
    dividend yield, without and with the current price. *)
Definition buy_info_without_price : gmap string pyval :=
  <["recommendationKey" := PyStr "buy"]>
    (<["targetMeanPrice" := PyFloat 250]>
       (<["dividendYield" := PyFloat 0.5]> ∅)).

Definition buy_info : gmap string pyval :=
  <["currentPrice" := PyFloat 200]> buy_info_without_price.

(** A provider whose [info] lookup fails. *)
Definition offline_world : World :=
  {| today := wednesday_10am;
     history_close := fun _ => Raise ProviderError;
     options := fun _ => Raise ProviderError;
     option_chain_puts := fun _ _ => Raise ProviderError;
     info := fun _ => Raise ProviderError;
     calendar := fun _ => Raise ProviderError;
     quarterly_earnings := fun _ => AttrRaise ProviderError;
     to_datetime := parse_iso_date |}.

(** A provider that reports a frame of quarterly earnings. *)
Definition earnings_world (df : frame) (i : gmap string pyval) : World :=
  {| today := wednesday_10am;
     history_close := fun _ => Ok [200%float];
     options := fun _ => Ok ["2026-11-13"%string];
     option_chain_puts := fun _ _ => Ok example_chain;
     info := fun _ => Ok i;
     calendar := fun _ => Ok [];
     quarterly_earnings := fun _ => Attr df;
     to_datetime := parse_iso_date |}.

(** Five quarters with their estimates: two beats, one match, one miss and
    one quarter without estimate. *)
Definition five_quarters : frame :=
  [ ("Earnings"%string, [1.25; 1.5; 0.75; 2; 1.125]%float);
    ("Estimate"%string, [1; 1.625; 0.75; 1.875; nan]%float) ].

(** Four quarters of revenue and earnings, without estimates. *)
Definition quarters_without_estimate : frame :=
  [ ("Revenue"%string, [90; 95; 85; 120]%float);
    ("Earnings"%string, [1.25; 1.5; 0.75; 2]%float) ].

(** An [info] whose price target is on record as [None]. *)
Definition info_with_none_target : gmap string pyval :=
  <["targetMeanPrice" := PyNone]> buy_info.

(** ** Auxiliary definitions of the proofs *)

(** The month and day that [_ord2ymd] derives from the day of the year. *)
Definition month_day (leapyear : bool) (n : Z) : Z * Z :=
  let mo := Z.shiftr (n + 50) 5 in
  let preceding :=
    tbl _DAYS_BEFORE_MONTH mo + (if (2 <? mo) && leapyear then 1 else 0) in
  if n <? preceding then
    let mo := mo - 1 in
    let preceding :=
      preceding
      - (tbl _DAYS_IN_MONTH mo + (if (mo =? 2) && leapyear then 1 else 0)) in
    (mo, n - preceding + 1)
  else (mo, n - preceding + 1).

(** [month_day] yields a day of the calendar, the [n]-th of its year
    (from 0). *)
Definition month_day_ok (leapyear : bool) (n : Z) : bool :=
  let '(m, d) := month_day leapyear n in
  (1 <=? m) && (m <=? 12) && (1 <=? d)
  && (d <=? (if (m =? 2) && leapyear then 29 else tbl _DAYS_IN_MONTH m))
  && (tbl _DAYS_BEFORE_MONTH m + (if (2 <? m) && leapyear then 1 else 0) + d
      =? n + 1).

(** A month and a day that exist in the year of [d]. *)
Definition in_calendar (d : date) : Prop :=
  1 <= month d <= 12 /\ 1 <= day d <= _days_in_month (year d) (month d).

(** The [i]-th expiration, as a date. *)
Definition weekly_friday (d : date) (i : Z) : date :=
  fromordinal (toordinal d + friday_offset d i).

(** The order of [SFcompare], as a lexicographic order on integers. *)
Definition rank (f : spec_float) : Z * Z * Z :=
  match f with
  | S754_nan => (0, 0, 0)
  | S754_zero _ => (0, 0, 0)
  | S754_infinity s => (if s then -2 else 2, 0, 0)
  | S754_finite s m e => if s then (-1, - e, Zneg m) else (1, e, Zpos m)
  end.

(** The lexicographic comparison of triples. *)
Definition lex (a b : Z * Z * Z) : comparison :=
  match fst (fst a) ?= fst (fst b) with
  | Eq => match snd (fst a) ?= snd (fst b) with
          | Eq => snd a ?= snd b
          | c => c
          end
  | c => c
  end.

(** NaN. *)
Definition sf_nan (f : spec_float) : bool :=
  match f with S754_nan => true | _ => false end.

(** [f] is NaN, a zero, or has sign [s]: it is not on the strict other
    side of zero. *)
Definition sf_side (s : bool) (f : spec_float) : Prop :=
  match f with
  | S754_nan | S754_zero _ => True
  | S754_infinity s' | S754_finite s' _ _ => s' = s
  end.

(** [f] is NaN or carries the sign bit [s]. *)
Definition sf_sign (s : bool) (f : spec_float) : Prop :=
  match f with
  | S754_nan => True
  | S754_zero s' | S754_infinity s' | S754_finite s' _ _ => s' = s
  end.

(** An infinity or NaN. *)
Definition sf_nonfinite (f : spec_float) : Prop :=
  match f with
  | S754_nan | S754_infinity _ => True
  | _ => False
  end.

(** A finite number other than zero. *)
Definition sf_finite_nonzero (f : spec_float) : Prop :=
  match f with S754_finite _ _ _ => True | _ => False end.

(** The order of rows by index label. *)
Definition label_lt (a b : nat * PutQuote) : Prop := (fst a < fst b)%nat.

(** The bid column of the filtered frame, NaN filled as [idxmax] does. *)
Definition bid_entry (r : nat * PutQuote) : nat * float :=
  (fst r, fillna_neg_inf (bid (snd r))).

(** Descending order of a key that is never NaN. *)
Definition ge_by (key : Row -> float) (a b : Row) : Prop :=
  (key b <=? key a)%float = true.

(** * Properties *)

(** ** Calendar arithmetic *)

Module CalendarFacts.
Import Calendar.

Ltac zbool :=
  repeat match goal with
  | |- context [Z.eqb ?a ?b] => destruct (Z.eqb_spec a b)
  | |- context [Z.ltb ?a ?b] => destruct (Z.ltb_spec a b)
  | |- context [Z.leb ?a ?b] => destruct (Z.leb_spec a b)
  end; cbn [andb orb negb].

Lemma forallb_range (P : Z -> bool) (k : nat) :
  forallb P (map Z.of_nat (seq 0 k)) = true ->
  forall n, 0 <= n < Z.of_nat k -> P n = true.
Proof.
  intros H n Hn. rewrite forallb_forall in H. apply H.
  apply in_map_iff. exists (Z.to_nat n). split; [lia|].
  apply in_seq. lia.
Qed.

Lemma month_day_spec (leapyear : bool) (n : Z) :
  0 <= n < 365 ->
  month_day_ok leapyear n = true.
Proof.
  intros Hn. destruct leapyear.
  - apply (forallb_range (month_day_ok true) 365); [vm_compute; reflexivity | lia].
  - apply (forallb_range (month_day_ok false) 365); [vm_compute; reflexivity | lia].
Qed.

Lemma year_part (n : Z) :
  0 <= n ->
  let n400 := n / 146097 in
  let r1 := n mod 146097 in
  let n100 := r1 / 36524 in
  let r2 := r1 mod 36524 in
  let n4 := r2 / 1461 in
  let r3 := r2 mod 1461 in
  let n1 := r3 / 365 in
  let r4 := r3 mod 365 in
  let y := n400 * 400 + n100 * 100 + n4 * 4 + n1 in
  0 <= y /\ 0 <= r4 < 365 /\
  (n1 = 4 \/ n100 = 4 ->
     1 <= y /\
     _days_before_year y + 365 + (if _is_leap y then 1 else 0) = n + 1) /\
  (n1 <> 4 -> n100 <> 4 ->
     _days_before_year (y + 1) + r4 = n /\
     _is_leap (y + 1) = ((n1 =? 3) && (negb (n4 =? 24) || (n100 =? 3)))).
Proof.
  intros Hn. cbv zeta. unfold _days_before_year, _is_leap.
  split; [Z.div_mod_to_equations; lia|].
  split; [Z.div_mod_to_equations; lia|].
  split.
  - intros H. split; [Z.div_mod_to_equations; lia|].
    zbool; Z.div_mod_to_equations; lia.
  - intros. split.
    + Z.div_mod_to_equations; lia.
    + zbool; try reflexivity; exfalso; Z.div_mod_to_equations; lia.
Qed.

Lemma ord2ymd_month_day (n : Z) :
  let n0 := n - 1 in
  let n400 := n0 / 146097 in
  let r1 := n0 mod 146097 in
  let n100 := r1 / 36524 in
  let r2 := r1 mod 36524 in
  let n4 := r2 / 1461 in
  let r3 := r2 mod 1461 in
  let n1 := r3 / 365 in
  let r4 := r3 mod 365 in
  let y := n400 * 400 + n100 * 100 + n4 * 4 + n1 in
  _ord2ymd n =
    if (n1 =? 4) || (n100 =? 4) then mkdate y 12 31
    else
      let md := month_day ((n1 =? 3) && (negb (n4 =? 24) || (n100 =? 3))) r4 in
      mkdate (y + 1) (fst md) (snd md).
Proof.
  cbv zeta. unfold _ord2ymd, month_day, _DI400Y, _DI100Y, _DI4Y.
  cbv zeta.
  match goal with |- context [(?a =? 4) || (?b =? 4)] =>
    destruct ((a =? 4) || (b =? 4)) end.
  - f_equal. lia.
  - match goal with |- context [if ?c then mkdate _ _ _ else _] =>
      destruct c end; cbn [fst snd]; f_equal; lia.
Qed.

(** [_ord2ymd] inverts [_ymd2ord] and yields a date of the calendar. *)
Lemma ord2ymd_spec (n : Z) :
  1 <= n ->
  toordinal (_ord2ymd n) = n /\
  1 <= year (_ord2ymd n) /\
  1 <= month (_ord2ymd n) <= 12 /\
  1 <= day (_ord2ymd n)
    <= _days_in_month (year (_ord2ymd n)) (month (_ord2ymd n)).
Proof.
  intros Hn. rewrite ord2ymd_month_day. cbv zeta.
  pose proof (year_part (n - 1) ltac:(lia)) as Hy. cbv zeta in Hy.
  destruct Hy as (Hy0 & Hr4 & Hspecial & Hnormal).
  set (n1 := ((n - 1) mod 146097 mod 36524 mod 1461) / 365) in *.
  set (n100 := ((n - 1) mod 146097) / 36524) in *.
  set (n4 := ((n - 1) mod 146097 mod 36524) / 1461) in *.
  set (r4 := ((n - 1) mod 146097 mod 36524 mod 1461) mod 365) in *.
  set (y := (n - 1) / 146097 * 400 + n100 * 100 + n4 * 4 + n1) in *.
  destruct (Z.eqb_spec n1 4) as [E1|E1]; cbn [orb].
  - destruct (Hspecial (or_introl E1)) as [Hy1 Hs].
    unfold toordinal, _ymd2ord, _days_before_month, _days_in_month.
    cbn [year month day]. change (tbl _DAYS_BEFORE_MONTH 12) with 334.
    change (tbl _DAYS_IN_MONTH 12) with 31.
    change (2 <? 12) with true. change (12 =? 2) with false. cbn [andb].
    destruct (_is_leap y); lia.
  - destruct (Z.eqb_spec n100 4) as [E2|E2].
    + destruct (Hspecial (or_intror E2)) as [Hy1 Hs].
      unfold toordinal, _ymd2ord, _days_before_month, _days_in_month.
      cbn [year month day]. change (tbl _DAYS_BEFORE_MONTH 12) with 334.
      change (tbl _DAYS_IN_MONTH 12) with 31.
      change (2 <? 12) with true. change (12 =? 2) with false. cbn [andb].
      destruct (_is_leap y); lia.
    + destruct (Hnormal E1 E2) as [Hd Hl].
      cbv zeta. rewrite <- Hl.
      pose proof (month_day_spec (_is_leap (y + 1)) r4 Hr4) as Hmd.
      unfold month_day_ok in Hmd.
      destruct (month_day (_is_leap (y + 1)) r4) as [m d].
      cbn [fst snd].
      rewrite !andb_true_iff in Hmd.
      destruct Hmd as ((((H1 & H2) & H3) & H4) & H5).
      apply Z.leb_le in H1, H2, H3, H4. apply Z.eqb_eq in H5.
      unfold toordinal, _ymd2ord, _days_before_month, _days_in_month.
      cbn [year month day].
      destruct ((m =? 2) && _is_leap (y + 1)); lia.
Qed.

Lemma toordinal_fromordinal (n : Z) : 1 <= n -> toordinal (fromordinal n) = n.
Proof. intros H. apply ord2ymd_spec; assumption. Qed.

End CalendarFacts.

Module CalendarOrder.
Import Calendar CalendarFacts.

Lemma days_before_year_succ (y : Z) :
  _days_before_year (y + 1)
  = _days_before_year y + 365 + (if _is_leap y then 1 else 0).
Proof.
  unfold _days_before_year, _is_leap.
  zbool; Z.div_mod_to_equations; lia.
Qed.

Lemma days_before_year_mono (y1 y2 : Z) :
  y1 <= y2 -> _days_before_year y1 <= _days_before_year y2.
Proof.
  unfold _days_before_year. intros H. Z.div_mod_to_equations; lia.
Qed.

Ltac month_cases m :=
  let H := fresh in
  assert (H : m = 1 \/ m = 2 \/ m = 3 \/ m = 4 \/ m = 5 \/ m = 6 \/ m = 7
              \/ m = 8 \/ m = 9 \/ m = 10 \/ m = 11 \/ m = 12) by lia;
  repeat (destruct H as [H|H]; [subst m|]); [.. | subst m].

Lemma day_of_year_bounds (y m d : Z) :
  1 <= m <= 12 -> 1 <= d <= _days_in_month y m ->
  1 <= _days_before_month y m + d <= 365 + (if _is_leap y then 1 else 0).
Proof.
  unfold _days_before_month, _days_in_month. intros Hm.
  destruct (_is_leap y); month_cases m; vm_compute tbl; cbn; lia.
Qed.

Lemma day_of_year_month_lt (y m1 d1 m2 d2 : Z) :
  1 <= m1 -> m1 < m2 -> m2 <= 12 ->
  d1 <= _days_in_month y m1 -> 1 <= d2 ->
  _days_before_month y m1 + d1 < _days_before_month y m2 + d2.
Proof.
  unfold _days_before_month, _days_in_month. intros H1 H12 H2.
  destruct (_is_leap y); month_cases m1; month_cases m2; try lia;
    vm_compute tbl; cbn; lia.
Qed.

Lemma toordinal_lt (a b : date) :
  in_calendar a -> in_calendar b -> date_lt a b -> toordinal a < toordinal b.
Proof.
  intros [Hma Hda] [Hmb Hdb] Hlt. unfold toordinal, _ymd2ord.
  destruct Hlt as [Hy | [Hy [Hm | [Hm Hd]]]].
  - pose proof (day_of_year_bounds _ _ _ Hma Hda).
    pose proof (day_of_year_bounds _ _ _ Hmb Hdb).
    pose proof (days_before_year_succ (year a)).
    pose proof (days_before_year_mono (year a + 1) (year b) ltac:(lia)).
    lia.
  - rewrite Hy in *.
    pose proof (day_of_year_month_lt (year b) (month a) (day a) (month b)
                  (day b)). lia.
  - rewrite Hy, Hm. lia.
Qed.

Lemma date_trichotomy (a b : date) : date_lt a b \/ a = b \/ date_lt b a.
Proof.
  destruct a as [ya ma da], b as [yb mb db]. unfold date_lt. cbn.
  destruct (Z.lt_trichotomy ya yb) as [?|[?|?]]; [lia| |lia].
  destruct (Z.lt_trichotomy ma mb) as [?|[?|?]]; [lia| |lia].
  destruct (Z.lt_trichotomy da db) as [?|[?|?]]; [lia| |lia].
  right; left. congruence.
Qed.

Lemma fromordinal_in_calendar (n : Z) : 1 <= n -> in_calendar (fromordinal n).
Proof. intros H. destruct (ord2ymd_spec n H) as (_ & _ & ? & ?). split; assumption. Qed.

Lemma fromordinal_lt (n1 n2 : Z) :
  1 <= n1 -> n1 < n2 -> date_lt (fromordinal n1) (fromordinal n2).
Proof.
  intros H1 H12.
  pose proof (fromordinal_in_calendar n1 H1) as C1.
  pose proof (fromordinal_in_calendar n2 ltac:(lia)) as C2.
  pose proof (toordinal_fromordinal n1 H1) as T1.
  pose proof (toordinal_fromordinal n2 ltac:(lia)) as T2.
  destruct (date_trichotomy (fromordinal n1) (fromordinal n2)) as [?|[E|L]].
  - assumption.
  - rewrite E in T1. lia.
  - pose proof (toordinal_lt _ _ C2 C1 L). lia.
Qed.

Lemma fromordinal_year_bounds (n : Z) :
  1 <= n <= MAXORDINAL -> 1 <= year (fromordinal n) <= 9999.
Proof.
  intros [H1 H2]. destruct (ord2ymd_spec n H1) as (T & Y & M & D).
  split; [exact Y|].
  destruct (Z.le_gt_cases (year (fromordinal n)) 9999) as [?|Hbig]; [assumption|].
  exfalso. unfold toordinal, _ymd2ord in T. fold (fromordinal n) in T, M, D.
  pose proof (day_of_year_bounds _ _ _ M D).
  pose proof (days_before_year_mono 10000 (year (fromordinal n)) ltac:(lia)) as Hm.
  change (_days_before_year 10000) with MAXORDINAL in Hm. lia.
Qed.

Lemma fromordinal_valid (n : Z) :
  1 <= n <= MAXORDINAL -> valid_date (fromordinal n).
Proof.
  intros H. pose proof (fromordinal_year_bounds n H).
  destruct (fromordinal_in_calendar n ltac:(lia)). split; [|split]; assumption.
Qed.

Lemma toordinal_valid_bounds (d : date) :
  valid_date d -> 1 <= toordinal d <= MAXORDINAL.
Proof.
  intros (Y & M & D). unfold toordinal, _ymd2ord.
  pose proof (day_of_year_bounds _ _ _ M D).
  pose proof (days_before_year_mono 1 (year d) ltac:(lia)) as H1.
  change (_days_before_year 1) with 0 in H1.
  pose proof (days_before_year_succ (year d)).
  pose proof (days_before_year_mono (year d + 1) 10000 ltac:(lia)) as H2.
  change (_days_before_year 10000) with MAXORDINAL in H2. lia.
Qed.

Lemma weekday_fromordinal (n : Z) :
  1 <= n -> weekday (fromordinal n) = (n + 6) mod 7.
Proof. intros H. unfold weekday. rewrite toordinal_fromordinal by assumption. reflexivity. Qed.

End CalendarOrder.

Module StrftimeOrder.
Import Calendar CalendarFacts CalendarOrder.

Lemma digit_code (n : Z) : N_of_ascii (digit n) = Z.to_N (48 + n mod 10).
Proof.
  unfold digit. apply N_ascii_embedding.
  pose proof (Z.mod_pos_bound n 10 ltac:(lia)). lia.
Qed.

Lemma digit_compare (a b : Z) :
  Ascii.compare (digit a) (digit b) = Z.compare (a mod 10) (b mod 10).
Proof.
  unfold Ascii.compare. rewrite !digit_code.
  pose proof (Z.mod_pos_bound a 10 ltac:(lia)).
  pose proof (Z.mod_pos_bound b 10 ltac:(lia)).
  rewrite Z2N.inj_compare by lia.
  apply Z.add_compare_mono_l.
Qed.

Lemma pow10_split (n : Z) (w : nat) :
  n mod 10 ^ Z.of_nat (S w)
  = n mod 10 ^ Z.of_nat w + 10 ^ Z.of_nat w * ((n / 10 ^ Z.of_nat w) mod 10).
Proof.
  rewrite Nat2Z.inj_succ, Z.pow_succ_r by lia.
  rewrite (Z.mul_comm 10).
  apply Z.rem_mul_r; [|lia].
  pose proof (Z.pow_pos_nonneg 10 (Z.of_nat w) ltac:(lia) ltac:(lia)). lia.
Qed.

Lemma append_cons (c : ascii) (p s : string) :
  (String c p ++ s)%string = String c (p ++ s)%string.
Proof. reflexivity. Qed.

Lemma append_nil (s : string) : (EmptyString ++ s)%string = s.
Proof. reflexivity. Qed.

Lemma append_nil_r (s : string) : (s ++ EmptyString)%string = s.
Proof.
  induction s as [|c s IH]; [reflexivity|].
  rewrite append_cons, IH. reflexivity.
Qed.

(** Zero-padded decimal fields compare as the numbers they render. *)
Lemma zpad_compare (w : nat) (a b : Z) (s t : string) :
  (a mod 10 ^ Z.of_nat w < b mod 10 ^ Z.of_nat w ->
   String.compare (zpad w a ++ s) (zpad w b ++ t) = Lt) /\
  (a mod 10 ^ Z.of_nat w = b mod 10 ^ Z.of_nat w ->
   String.compare (zpad w a ++ s) (zpad w b ++ t) = String.compare s t).
Proof.
  induction w as [|w IH].
  - cbn [zpad]. rewrite !append_nil. change (10 ^ Z.of_nat 0) with 1.
    rewrite !Z.mod_1_r. split; [lia | reflexivity].
  - destruct IH as [IHlt IHeq].
    rewrite !pow10_split.
    pose proof (Z.pow_pos_nonneg 10 (Z.of_nat w) ltac:(lia) ltac:(lia)) as HP.
    pose proof (Z.mod_pos_bound a (10 ^ Z.of_nat w) HP) as Ha.
    pose proof (Z.mod_pos_bound b (10 ^ Z.of_nat w) HP) as Hb.
    pose proof (Z.mod_pos_bound (a / 10 ^ Z.of_nat w) 10 ltac:(lia)) as Hda.
    pose proof (Z.mod_pos_bound (b / 10 ^ Z.of_nat w) 10 ltac:(lia)) as Hdb.
    cbn [zpad]. rewrite !append_cons. cbn [String.compare]. rewrite digit_compare.
    set (P := 10 ^ Z.of_nat w) in *.
    set (da := (a / P) mod 10) in *. set (db := (b / P) mod 10) in *.
    set (ra := a mod P) in *. set (rb := b mod P) in *.
    destruct (Z.compare_spec da db) as [E|L|G].
    + split; intros H.
      * apply IHlt. nia.
      * apply IHeq. nia.
    + split; intros H; [reflexivity | exfalso; nia].
    + split; intros H; exfalso; nia.
Qed.

Lemma zpad_lt (w : nat) (a b : Z) (s t : string) :
  0 <= a -> a < b -> b < 10 ^ Z.of_nat w ->
  string_lt (zpad w a ++ s) (zpad w b ++ t).
Proof.
  intros H0 Hab Hb. apply zpad_compare.
  rewrite !Z.mod_small by lia. assumption.
Qed.

Lemma append_compare (p s t : string) :
  String.compare (p ++ s) (p ++ t) = String.compare s t.
Proof.
  induction p as [|c p IH]; [reflexivity|].
  rewrite !append_cons. cbn [String.compare].
  replace (Ascii.compare c c) with Eq; [exact IH|].
  unfold Ascii.compare. symmetry. apply N.compare_refl.
Qed.

Lemma strftime_lt (a b : date) :
  0 <= year a -> year b <= 9999 ->
  0 <= month a -> month b <= 12 -> 0 <= day a -> day b <= 31 ->
  date_lt a b -> string_lt (strftime a) (strftime b).
Proof.
  intros Hya Hyb Hma Hmb Hda Hdb Hlt. unfold strftime, string_lt.
  destruct Hlt as [Hy | [Hy [Hm | [Hm Hd]]]].
  - apply zpad_lt; cbn; lia.
  - rewrite Hy, append_compare, !append_cons, !append_nil.
    cbn [String.compare]. change (Ascii.compare "-" "-") with Eq. cbv iota.
    apply zpad_lt; cbn; lia.
  - rewrite Hy, Hm, append_compare, !append_cons, !append_nil.
    cbn [String.compare]. change (Ascii.compare "-" "-") with Eq. cbv iota.
    rewrite append_compare.
    cbn [String.compare]. change (Ascii.compare "-" "-") with Eq. cbv iota.
    rewrite <- (append_nil_r (zpad 2 (day a))).
    rewrite <- (append_nil_r (zpad 2 (day b))).
    apply zpad_lt; cbn; lia.
Qed.

End StrftimeOrder.

(** ** The Expiration Enumerator *)

Section Enumerator.
Import Calendar CalendarFacts CalendarOrder StrftimeOrder.

Lemma mapM_map {A B : Type} (f : A -> result B) (g : A -> B) (l : list A) :
  (forall a, In a l -> f a = Ok (g a)) -> mapM f l = Ok (map g l).
Proof.
  induction l as [|a l IH]; intros H; [reflexivity|].
  cbn [mapM map]. rewrite (H a (or_introl eq_refl)). cbn [bind].
  rewrite IH; [reflexivity|]. intros b Hb. apply H. right. exact Hb.
Qed.

Lemma in_py_range (n i : Z) : In i (py_range n) <-> 0 <= i < n.
Proof.
  unfold py_range. rewrite in_map_iff. split.
  - intros (k & <- & Hk). apply in_seq in Hk. lia.
  - intros H. exists (Z.to_nat i). split; [lia|]. apply in_seq. lia.
Qed.

Lemma length_py_range (n : Z) : Z.of_nat (length (py_range n)) = Z.max 0 n.
Proof. unfold py_range. rewrite length_map, length_seq. lia. Qed.

Lemma py_range_nonpos (n : Z) : n <= 0 -> py_range n = [].
Proof.
  intros H. unfold py_range. replace (Z.to_nat n) with 0%nat by lia.
  reflexivity.
Qed.

Lemma hd_py_range (n : Z) : 1 <= n -> hd_error (py_range n) = Some 0.
Proof.
  intros H. unfold py_range.
  destruct (Z.to_nat n) as [|k] eqn:E; [lia|]. reflexivity.
Qed.

Lemma StronglySorted_seq {X : Type} (R : X -> X -> Prop) (h : Z -> X)
  (s k : nat) :
  (forall i j, Z.of_nat s <= i -> i < j -> j < Z.of_nat (s + k) ->
               R (h i) (h j)) ->
  StronglySorted R (map h (map Z.of_nat (seq s k))).
Proof.
  revert s. induction k as [|k IH]; intros s H; cbn [seq map].
  - constructor.
  - constructor.
    + apply IH. intros i j Hi Hij Hj. apply H; lia.
    + apply List.Forall_forall. intros x Hx.
      apply in_map_iff in Hx. destruct Hx as (j & <- & Hj).
      apply in_map_iff in Hj. destruct Hj as (m & <- & Hm).
      apply in_seq in Hm. apply H; lia.
Qed.

Lemma StronglySorted_py_range {X : Type} (R : X -> X -> Prop) (h : Z -> X)
  (n : Z) :
  (forall i j, 0 <= i -> i < j -> j < n -> R (h i) (h j)) ->
  StronglySorted R (map h (py_range n)).
Proof.
  intros H. unfold py_range. apply StronglySorted_seq.
  intros i j Hi Hij Hj. apply H; lia.
Qed.

Lemma friday_offset_eq (d : date) (i : Z) :
  friday_offset d i = (4 - weekday d) mod 7 + 7 * i.
Proof.
  unfold friday_offset. f_equal.
  rewrite (Z.mul_comm 7 i). apply Z_mod_plus_full.
Qed.

Lemma days_in_month_le_31 (y m : Z) : _days_in_month y m <= 31.
Proof.
  unfold _days_in_month, tbl.
  destruct ((m =? 2) && _is_leap y); [lia|].
  destruct (Z.to_nat m) as [|k]; [cbn; lia|].
  do 12 (destruct k as [|k]; [cbn; lia|]). destruct k; cbn; lia.
Qed.

End Enumerator.

Section EnumeratorSpec.
Import Calendar CalendarFacts CalendarOrder StrftimeOrder.

Lemma friday_offset_bounds (d : date) (i : Z) :
  7 * i <= friday_offset d i < 7 * i + 7 /\
  (friday_offset d i = 7 * i <-> weekday d = 4).
Proof.
  rewrite friday_offset_eq. unfold weekday.
  split; [|split; intros H]; Z.div_mod_to_equations; lia.
Qed.

Lemma friday_offset_mono (d : date) (i j : Z) :
  i <= j -> friday_offset d i <= friday_offset d j.
Proof. rewrite !friday_offset_eq. lia. Qed.

Lemma weekly_friday_facts (d : date) (i : Z) :
  valid_date d -> 0 <= i ->
  toordinal d + friday_offset d i <= MAXORDINAL ->
  add_days d (friday_offset d i) = Ok (weekly_friday d i) /\
  toordinal (weekly_friday d i) = toordinal d + friday_offset d i /\
  valid_date (weekly_friday d i) /\
  weekday (weekly_friday d i) = 4.
Proof.
  intros Hv Hi Hmax.
  pose proof (toordinal_valid_bounds d Hv) as HT.
  pose proof (friday_offset_bounds d i) as [Hb _].
  assert (Ho : 1 <= toordinal d + friday_offset d i <= MAXORDINAL) by lia.
  unfold weekly_friday. split.
  { unfold add_days.
    destruct (Z.ltb_spec 0 (toordinal d + friday_offset d i)); [|lia].
    destruct (Z.leb_spec (toordinal d + friday_offset d i) MAXORDINAL); [|lia].
    reflexivity. }
  split; [apply toordinal_fromordinal; lia|].
  split; [apply fromordinal_valid; exact Ho|].
  rewrite weekday_fromordinal by lia. rewrite friday_offset_eq.
  unfold weekday. Z.div_mod_to_equations; lia.
Qed.

Lemma add_days_overflow (d : date) (k : Z) :
  MAXORDINAL < toordinal d + k -> add_days d k = Raise OverflowError.
Proof.
  intros H. unfold add_days.
  destruct (Z.leb_spec (toordinal d + k) MAXORDINAL); [lia|].
  rewrite andb_false_r. reflexivity.
Qed.

(** A list comprehension stops at the first element that raises. *)
Lemma mapM_raise {A B : Type} (f : A -> result B) (l1 l2 : list A) (a : A)
  (e : exn) :
  (forall x, In x l1 -> exists y, f x = Ok y) -> f a = Raise e ->
  mapM f (l1 ++ a :: l2) = Raise e.
Proof.
  intros H1 Ha. induction l1 as [|x l1 IH]; cbn [app mapM].
  - rewrite Ha. reflexivity.
  - destruct (H1 x (or_introl eq_refl)) as (y & ->). cbn [bind].
    rewrite IH; [reflexivity|]. intros z Hz. apply H1. right. exact Hz.
Qed.

Lemma py_range_split (n i : Z) :
  0 <= i < n ->
  exists rest, py_range n = (py_range i ++ i :: rest)%list.
Proof.
  intros H. unfold py_range.
  replace (Z.to_nat n) with (Z.to_nat i + S (Z.to_nat (n - i - 1)))%nat by lia.
  rewrite seq_app, map_app. cbn [seq map Nat.add].
  rewrite ?Nat.add_0_l. rewrite Z2Nat.id by lia. eexists. reflexivity.
Qed.

(** C1, as amended: for a count [n] whose last date stays within the
    calendar (year 9999 at most), [get_weekly_fridays] returns [n] date
    strings, none for a non-positive [n]; every one renders a Friday; they
    increase strictly, as dates and as strings; and the first one is the
    first Friday on or after today: today itself when today is a Friday,
    and a later day of the same week otherwise.  For a count that runs past
    the calendar the date addition raises. *)
Theorem get_weekly_fridays_spec (today : datetime) (n : Z) :
  valid_date (dt_date today) ->
  (n <= 0 \/
   toordinal (dt_date today) + friday_offset (dt_date today) (n - 1)
   <= MAXORDINAL ->
   exists ds : list date,
     get_weekly_fridays today n = Ok (map strftime ds) /\
     Z.of_nat (length ds) = Z.max 0 n /\
     (n <= 0 -> ds = []) /\
     List.Forall (fun d => valid_date d /\ weekday d = 4) ds /\
     StronglySorted (fun a b => toordinal a < toordinal b) ds /\
     StronglySorted string_lt (map strftime ds) /\
     (forall d, hd_error ds = Some d ->
        toordinal (dt_date today) <= toordinal d
          < toordinal (dt_date today) + 7 /\
        (toordinal d = toordinal (dt_date today)
         <-> weekday (dt_date today) = 4))) /\
  (1 <= n ->
   MAXORDINAL
   < toordinal (dt_date today) + friday_offset (dt_date today) (n - 1) ->
   get_weekly_fridays today n = Raise OverflowError).
Proof.
  intros Hv. set (t := dt_date today) in *.
  pose proof (toordinal_valid_bounds t Hv) as HT.
  split.
  - intros Hmax. exists (map (weekly_friday t) (py_range n)).
    assert (Hin : forall i, 0 <= i < n ->
                            toordinal t + friday_offset t i <= MAXORDINAL).
    { intros i Hi. destruct Hmax as [Hn|Hmax]; [lia|].
      pose proof (friday_offset_mono t i (n - 1) ltac:(lia)). lia. }
    split.
    { unfold get_weekly_fridays. fold t. rewrite map_map. apply mapM_map.
      intros i Hi. apply in_py_range in Hi.
      destruct (weekly_friday_facts t i Hv ltac:(lia) (Hin i Hi)) as (-> & _).
      reflexivity. }
    split; [rewrite length_map; apply length_py_range|].
    split; [intros Hn; rewrite py_range_nonpos by assumption; reflexivity|].
    split.
    { apply List.Forall_forall. intros d Hd. apply in_map_iff in Hd.
      destruct Hd as (i & <- & Hi). apply in_py_range in Hi.
      destruct (weekly_friday_facts t i Hv ltac:(lia) (Hin i Hi))
        as (_ & _ & ? & ?). split; assumption. }
    split.
    { apply StronglySorted_py_range. intros i j Hi Hij Hj.
      destruct (weekly_friday_facts t i Hv ltac:(lia) (Hin i ltac:(lia)))
        as (_ & -> & _).
      destruct (weekly_friday_facts t j Hv ltac:(lia) (Hin j ltac:(lia)))
        as (_ & -> & _).
      rewrite !friday_offset_eq. lia. }
    split.
    { rewrite map_map. apply StronglySorted_py_range. intros i j Hi Hij Hj.
      destruct (weekly_friday_facts t i Hv ltac:(lia) (Hin i ltac:(lia)))
        as (_ & Ti & Vi & _).
      destruct (weekly_friday_facts t j Hv ltac:(lia) (Hin j ltac:(lia)))
        as (_ & Tj & Vj & _).
      pose proof (friday_offset_bounds t i) as [Bi _].
      destruct Vi as (Yi & Mi & Di), Vj as (Yj & Mj & Dj).
      pose proof (days_in_month_le_31 (year (weekly_friday t j))
                    (month (weekly_friday t j))).
      apply strftime_lt; try lia.
      unfold weekly_friday in *. apply fromordinal_lt; [lia|].
      rewrite !friday_offset_eq. lia. }
    intros d Hd.
    destruct (Z.le_gt_cases n 0) as [Hn|Hn].
    { rewrite py_range_nonpos in Hd by assumption. discriminate Hd. }
    assert (Hd0 : d = weekly_friday t 0).
    { unfold py_range in Hd. destruct (Z.to_nat n) as [|k] eqn:E; [lia|].
      cbn [seq map hd_error] in Hd. change (Z.of_nat 0) with 0 in Hd.
      injection Hd as <-. reflexivity. }
    subst d.
    destruct (weekly_friday_facts t 0 Hv ltac:(lia) (Hin 0 ltac:(lia)))
      as (_ & -> & _).
    pose proof (friday_offset_bounds t 0) as [B F].
    split; [lia|]. rewrite <- F. lia.
  - intros Hn Hover.
    set (c := (4 - weekday t) mod 7).
    assert (Hc : forall i, friday_offset t i = c + 7 * i)
      by (intros i; apply friday_offset_eq).
    set (i0 := (MAXORDINAL - toordinal t - c) / 7 + 1).
    assert (Hc0 : 0 <= c < 7) by (apply Z.mod_pos_bound; lia).
    assert (Hi0 : 0 <= i0 < n).
    { rewrite Hc in Hover. subst i0. Z.div_mod_to_equations; lia. }
    destruct (py_range_split n i0 Hi0) as (rest & E).
    unfold get_weekly_fridays. fold t. rewrite E. apply mapM_raise.
    + intros i Hi. apply in_py_range in Hi.
      assert (Hle : toordinal t + friday_offset t i <= MAXORDINAL).
      { rewrite Hc. subst i0. Z.div_mod_to_equations; lia. }
      destruct (weekly_friday_facts t i Hv ltac:(lia) Hle) as (-> & _).
      eexists. reflexivity.
    + rewrite add_days_overflow; [reflexivity|].
      rewrite Hc. subst i0. Z.div_mod_to_equations; lia.
Qed.

(** The theorem at a Wednesday, for the four expirations of the
    single-ticker mode. *)
Lemma get_weekly_fridays_spec_witness :
  exists ds : list date,
    get_weekly_fridays (mkdatetime (mkdate 2026 11 4) 36000000000) 4
      = Ok (map strftime ds) /\
    Z.of_nat (length ds) = Z.max 0 4 /\
    (4 <= 0 -> ds = []) /\
    List.Forall (fun d => valid_date d /\ weekday d = 4) ds /\
    StronglySorted (fun a b => toordinal a < toordinal b) ds /\
    StronglySorted string_lt (map strftime ds) /\
    (forall d, hd_error ds = Some d ->
       toordinal (mkdate 2026 11 4) <= toordinal d
         < toordinal (mkdate 2026 11 4) + 7 /\
       (toordinal d = toordinal (mkdate 2026 11 4)
        <-> weekday (mkdate 2026 11 4) = 4)).
Proof.
  apply (get_weekly_fridays_spec (mkdatetime (mkdate 2026 11 4) 36000000000) 4).
  - vm_compute. repeat split; discriminate.
  - right. vm_compute. discriminate.
Defined.

(** C1 as stated fails on a Friday: the first expiration returned is today
    itself, not a later day.  (It also fails for a count that runs past
    year 9999, where the date addition raises.) *)
Lemma get_weekly_fridays_on_a_friday :
  weekday (mkdate 2026 11 6) = 4 /\
  strftime (mkdate 2026 11 6) = "2026-11-06"%string /\
  get_weekly_fridays (mkdatetime (mkdate 2026 11 6) 36000000000) 2
    = Ok ["2026-11-06"; "2026-11-13"]%string /\
  get_weekly_fridays (mkdatetime (mkdate 9999 12 1) 0) 10
    = Raise OverflowError.
Proof. repeat split; vm_compute; reflexivity. Qed.

Example fridays_from_wednesday :
  get_weekly_fridays wednesday_10am 4
  = Ok ["2026-11-06"; "2026-11-13"; "2026-11-20"; "2026-11-27"]%string.
Proof. vm_compute. reflexivity. Qed.

End EnumeratorSpec.

(** ** Dates read back, and the count of days to an expiration *)

Section ParseRoundTrip.
Import Calendar CalendarFacts CalendarOrder StrftimeOrder.

Lemma digit_value_digit (n : Z) : digit_value (digit n) = Some (n mod 10).
Proof.
  unfold digit_value. rewrite digit_code.
  pose proof (Z.mod_pos_bound n 10 ltac:(lia)) as H.
  rewrite Z2N.id by lia.
  destruct (Z.leb_spec 48 (48 + n mod 10)); [|lia].
  destruct (Z.leb_spec (48 + n mod 10) 57); [|lia].
  cbn [andb]. f_equal. lia.
Qed.

Lemma valid_dateb_true (d : date) : valid_date d -> valid_dateb d = true.
Proof.
  intros (Y & M & D). unfold valid_dateb.
  repeat (apply andb_true_intro; split); apply Z.leb_le; lia.
Qed.

(** The example parser reads back what [strftime] writes. *)
Lemma parse_iso_date_strftime (d : date) :
  valid_date d -> parse_iso_date (strftime d) = Ok d.
Proof.
  intros Hv. pose proof (valid_dateb_true d Hv) as Hb.
  destruct Hv as (Y & M & D).
  pose proof (days_in_month_le_31 (year d) (month d)) as H31.
  destruct d as [y m dd]. cbn [year month day] in *.
  unfold parse_iso_date, strftime. cbn [year month day zpad].
  rewrite !append_cons, !append_nil.
  cbn [list_ascii_of_string]. rewrite !digit_value_digit.
  cbv zeta.
  replace (mkdate _ _ _) with (mkdate y m dd).
  - rewrite Hb. reflexivity.
  - change (10 ^ Z.of_nat 3) with 1000. change (10 ^ Z.of_nat 2) with 100.
    change (10 ^ Z.of_nat 1) with 10. change (10 ^ Z.of_nat 0) with 1.
    f_equal; Z.div_mod_to_equations; lia.
Qed.

(** The whole days to an expiration that is not after today's date are
    zero or fewer; on the expiration day itself, after midnight, the count
    is -1, and it is 0 on the day before. *)
Lemma days_between_not_after (e : date) (now : datetime) :
  0 <= dt_micros now < MICROS_PER_DAY ->
  toordinal e <= toordinal (dt_date now) ->
  days_between e now <= 0.
Proof.
  unfold days_between, MICROS_PER_DAY. intros H Hle.
  Z.div_mod_to_equations; lia.
Qed.

Lemma days_between_after_midnight (e : date) (now : datetime) :
  0 < dt_micros now < MICROS_PER_DAY ->
  days_between e now = toordinal e - toordinal (dt_date now) - 1.
Proof.
  unfold days_between, MICROS_PER_DAY. intros H.
  Z.div_mod_to_equations; lia.
Qed.

End ParseRoundTrip.

(** ** Order and sign of binary64 numbers *)

Module FloatFacts.
Import Float64.

Lemma SFcompare_lex (x y : spec_float) :
  sf_nan x = false -> sf_nan y = false ->
  SFcompare x y = Some (lex (rank x) (rank y)).
Proof.
  destruct x as [sx|sx| |sx mx ex], y as [sy|sy| |sy my ey];
    try discriminate; intros _ _;
    try destruct sx; try destruct sy; try reflexivity;
    unfold lex; cbn [SFcompare rank fst snd].
  change (-1 ?= -1) with Eq. cbv iota.
  change (Z.neg mx ?= Z.neg my) with (CompOpp (mx ?= my)%positive).
  rewrite Z.compare_opp, (Z.compare_antisym ex ey), Pos.compare_cont_spec.
  destruct (ex ?= ey), (mx ?= my)%positive; reflexivity.
Qed.

Lemma SFcompare_nan (x y : spec_float) :
  sf_nan x || sf_nan y = true -> SFcompare x y = None.
Proof.
  destruct x as [sx|sx| |sx mx ex], y as [sy|sy| |sy my ey];
    try discriminate; reflexivity.
Qed.

Lemma lex_refl (a : Z * Z * Z) : lex a a = Eq.
Proof. unfold lex. rewrite !Z.compare_refl. reflexivity. Qed.

Lemma lex_antisym (a b : Z * Z * Z) : lex b a = CompOpp (lex a b).
Proof.
  unfold lex.
  rewrite (Z.compare_antisym (fst (fst a)) (fst (fst b))).
  rewrite (Z.compare_antisym (snd (fst a)) (snd (fst b))).
  rewrite (Z.compare_antisym (snd a) (snd b)).
  destruct (fst (fst a) ?= fst (fst b)), (snd (fst a) ?= snd (fst b)),
    (snd a ?= snd b); reflexivity.
Qed.

Lemma lex_le_trans (a b c : Z * Z * Z) :
  lex a b <> Gt -> lex b c <> Gt -> lex a c <> Gt.
Proof.
  destruct a as [[a1 a2] a3], b as [[b1 b2] b3], c as [[c1 c2] c3].
  unfold lex. cbn [fst snd].
  destruct (Z.compare_spec a1 b1), (Z.compare_spec b1 c1),
    (Z.compare_spec a1 c1); try lia; try congruence;
  destruct (Z.compare_spec a2 b2), (Z.compare_spec b2 c2),
    (Z.compare_spec a2 c2); try lia; try congruence;
  destruct (Z.compare_spec a3 b3), (Z.compare_spec b3 c3),
    (Z.compare_spec a3 c3); try lia; congruence.
Qed.

Lemma is_nan_spec (x : float) : is_nan x = sf_nan (Prim2SF x).
Proof.
  unfold is_nan. rewrite FloatAxioms.eqb_spec. unfold SFeqb.
  destruct (sf_nan (Prim2SF x)) eqn:E.
  - rewrite SFcompare_nan by (rewrite E; reflexivity). reflexivity.
  - rewrite SFcompare_lex, lex_refl by assumption. reflexivity.
Qed.

Lemma leb_lex (x y : float) :
  is_nan x = false -> is_nan y = false ->
  (x <=? y)%float = negb (is_gt (lex (rank (Prim2SF x)) (rank (Prim2SF y)))).
Proof.
  rewrite !is_nan_spec. intros Hx Hy. rewrite FloatAxioms.leb_spec. unfold SFleb.
  rewrite SFcompare_lex by assumption. destruct (lex _ _); reflexivity.
Qed.

Lemma ltb_lex (x y : float) :
  is_nan x = false -> is_nan y = false ->
  (x <? y)%float = is_lt (lex (rank (Prim2SF x)) (rank (Prim2SF y))).
Proof.
  rewrite !is_nan_spec. intros Hx Hy. rewrite FloatAxioms.ltb_spec. unfold SFltb.
  rewrite SFcompare_lex by assumption. destruct (lex _ _); reflexivity.
Qed.

Lemma eqb_lex (x y : float) :
  is_nan x = false -> is_nan y = false ->
  (x =? y)%float
  = match lex (rank (Prim2SF x)) (rank (Prim2SF y)) with Eq => true | _ => false end.
Proof.
  rewrite !is_nan_spec. intros Hx Hy. rewrite FloatAxioms.eqb_spec. unfold SFeqb.
  rewrite SFcompare_lex by assumption. reflexivity.
Qed.

Lemma leb_not_nan (x y : float) :
  (x <=? y)%float = true -> is_nan x = false /\ is_nan y = false.
Proof.
  rewrite !is_nan_spec, FloatAxioms.leb_spec. unfold SFleb.
  destruct (sf_nan (Prim2SF x)) eqn:Ex.
  { rewrite SFcompare_nan by (rewrite Ex; reflexivity). discriminate. }
  destruct (sf_nan (Prim2SF y)) eqn:Ey.
  { rewrite SFcompare_nan by (rewrite Ey; apply orb_true_r). discriminate. }
  intros _. split; reflexivity.
Qed.

Lemma ltb_not_nan (x y : float) :
  (x <? y)%float = true -> is_nan x = false /\ is_nan y = false.
Proof.
  rewrite !is_nan_spec, FloatAxioms.ltb_spec. unfold SFltb.
  destruct (sf_nan (Prim2SF x)) eqn:Ex.
  { rewrite SFcompare_nan by (rewrite Ex; reflexivity). discriminate. }
  destruct (sf_nan (Prim2SF y)) eqn:Ey.
  { rewrite SFcompare_nan by (rewrite Ey; apply orb_true_r). discriminate. }
  intros _. split; reflexivity.
Qed.

Lemma leb_refl (x : float) : is_nan x = false -> (x <=? x)%float = true.
Proof. intros H. rewrite leb_lex, lex_refl by assumption. reflexivity. Qed.

Lemma leb_trans (x y z : float) :
  (x <=? y)%float = true -> (y <=? z)%float = true -> (x <=? z)%float = true.
Proof.
  intros Hxy Hyz.
  destruct (leb_not_nan _ _ Hxy) as [Nx Ny].
  destruct (leb_not_nan _ _ Hyz) as [_ Nz].
  rewrite leb_lex in * by assumption.
  pose proof (lex_le_trans (rank (Prim2SF x)) (rank (Prim2SF y))
                (rank (Prim2SF z))) as T.
  destruct (lex (rank (Prim2SF x)) (rank (Prim2SF y))),
    (lex (rank (Prim2SF y)) (rank (Prim2SF z))),
    (lex (rank (Prim2SF x)) (rank (Prim2SF z)));
    try reflexivity; try discriminate; exfalso; apply T; congruence.
Qed.

Lemma ltb_leb (x y : float) :
  (x <? y)%float = true -> (x <=? y)%float = true.
Proof.
  intros H. destruct (ltb_not_nan _ _ H) as [Nx Ny].
  rewrite ltb_lex in H by assumption. rewrite leb_lex by assumption.
  destruct (lex _ _); try discriminate; reflexivity.
Qed.

(** Without NaN the order is total. *)
Lemma not_ltb_leb (x y : float) :
  is_nan x = false -> is_nan y = false ->
  (x <? y)%float = false -> (y <=? x)%float = true.
Proof.
  intros Nx Ny H. rewrite ltb_lex in H by assumption.
  rewrite leb_lex, lex_antisym by assumption.
  destruct (lex _ _); try discriminate; reflexivity.
Qed.

Lemma not_leb_ltb (x y : float) :
  is_nan x = false -> is_nan y = false ->
  (x <=? y)%float = false -> (y <? x)%float = true.
Proof.
  intros Nx Ny H. rewrite leb_lex in H by assumption.
  rewrite ltb_lex, lex_antisym by assumption.
  destruct (lex _ _); try discriminate; reflexivity.
Qed.

Lemma ltb_not_eqb (x y : float) :
  (x <? y)%float = true -> (x =? y)%float = false.
Proof.
  intros H. destruct (ltb_not_nan _ _ H) as [Nx Ny].
  rewrite ltb_lex in H by assumption. rewrite eqb_lex by assumption.
  destruct (lex _ _); try discriminate; reflexivity.
Qed.

Lemma fillna_not_nan (x : float) : is_nan (fillna_neg_inf x) = false.
Proof.
  unfold fillna_neg_inf. destruct (is_nan x) eqn:E; [reflexivity | exact E].
Qed.

End FloatFacts.

Module FloatTransitivity.
Import Float64 FloatFacts.

Lemma lex_lt_le_trans (a b c : Z * Z * Z) :
  lex a b = Lt -> lex b c <> Gt -> lex a c = Lt.
Proof.
  destruct a as [[a1 a2] a3], b as [[b1 b2] b3], c as [[c1 c2] c3].
  unfold lex. cbn [fst snd].
  destruct (Z.compare_spec a1 b1), (Z.compare_spec b1 c1),
    (Z.compare_spec a1 c1); try lia; try congruence;
  destruct (Z.compare_spec a2 b2), (Z.compare_spec b2 c2),
    (Z.compare_spec a2 c2); try lia; try congruence;
  destruct (Z.compare_spec a3 b3), (Z.compare_spec b3 c3),
    (Z.compare_spec a3 c3); try lia; congruence.
Qed.

Lemma lex_le_lt_trans (a b c : Z * Z * Z) :
  lex a b <> Gt -> lex b c = Lt -> lex a c = Lt.
Proof.
  destruct a as [[a1 a2] a3], b as [[b1 b2] b3], c as [[c1 c2] c3].
  unfold lex. cbn [fst snd].
  destruct (Z.compare_spec a1 b1), (Z.compare_spec b1 c1),
    (Z.compare_spec a1 c1); try lia; try congruence;
  destruct (Z.compare_spec a2 b2), (Z.compare_spec b2 c2),
    (Z.compare_spec a2 c2); try lia; try congruence;
  destruct (Z.compare_spec a3 b3), (Z.compare_spec b3 c3),
    (Z.compare_spec a3 c3); try lia; congruence.
Qed.

Lemma ltb_leb_trans (x y z : float) :
  (x <? y)%float = true -> (y <=? z)%float = true -> (x <? z)%float = true.
Proof.
  intros Hxy Hyz.
  destruct (ltb_not_nan _ _ Hxy) as [Nx Ny].
  destruct (leb_not_nan _ _ Hyz) as [_ Nz].
  rewrite ltb_lex in * by assumption. rewrite leb_lex in Hyz by assumption.
  pose proof (lex_lt_le_trans (rank (Prim2SF x)) (rank (Prim2SF y))
                (rank (Prim2SF z))) as T.
  destruct (lex (rank (Prim2SF x)) (rank (Prim2SF y)));
    try discriminate.
  destruct (lex (rank (Prim2SF y)) (rank (Prim2SF z)));
    try discriminate; rewrite T; try reflexivity; congruence.
Qed.

Lemma leb_ltb_trans (x y z : float) :
  (x <=? y)%float = true -> (y <? z)%float = true -> (x <? z)%float = true.
Proof.
  intros Hxy Hyz.
  destruct (leb_not_nan _ _ Hxy) as [Nx Ny].
  destruct (ltb_not_nan _ _ Hyz) as [_ Nz].
  rewrite ltb_lex in * by assumption. rewrite leb_lex in Hxy by assumption.
  pose proof (lex_le_lt_trans (rank (Prim2SF x)) (rank (Prim2SF y))
                (rank (Prim2SF z))) as T.
  destruct (lex (rank (Prim2SF y)) (rank (Prim2SF z)));
    try discriminate.
  destruct (lex (rank (Prim2SF x)) (rank (Prim2SF y)));
    try discriminate; rewrite T; try reflexivity; congruence.
Qed.

End FloatTransitivity.

(** ** The selection of the best put *)

Section Selection.
Import Float64 FloatFacts FloatTransitivity.

(** [argmax_from] returns the first entry that no entry exceeds: the
    entries before it are strictly smaller, the ones after it at most
    equal. *)
Lemma argmax_from_spec (l : list (nat * float)) (b : nat * float) :
  List.Forall (fun c => is_nan (snd c) = false) (b :: l) ->
  exists l1 l2,
    b :: l = (l1 ++ argmax_from b l :: l2)%list /\
    List.Forall (fun x => (snd x <? snd (argmax_from b l))%float = true) l1 /\
    List.Forall (fun x => (snd x <=? snd (argmax_from b l))%float = true) l2.
Proof.
  revert b. induction l as [|x l IH]; intros b Hn.
  - exists [], []. cbn. repeat split; constructor.
  - inversion Hn as [|? ? Nb Hn']; subst.
    inversion Hn' as [|? ? Nx Hl]; subst.
    cbn [argmax_from]. destruct (snd b <? snd x)%float eqn:E.
    + destruct (IH x Hn') as (l1 & l2 & Hd & H1 & H2).
      exists (b :: l1), l2. split; [cbn; rewrite Hd; reflexivity|].
      split; [|exact H2]. constructor; [|exact H1].
      destruct l1 as [|y l1].
      * cbn in Hd. injection Hd as Hx _. rewrite <- Hx. exact E.
      * cbn in Hd. injection Hd as Hx _. subst y.
        inversion H1; subst. apply ltb_leb_trans with (snd x); [exact E|].
        apply ltb_leb. assumption.
    + assert (Hb : List.Forall (fun c => is_nan (snd c) = false) (b :: l))
        by (constructor; assumption).
      destruct (IH b Hb) as (l1 & l2 & Hd & H1 & H2).
      assert (Hxb : (snd x <=? snd b)%float = true)
        by (apply not_ltb_leb; assumption).
      destruct l1 as [|y l1].
      * cbn in Hd. injection Hd as Hc Hl2.
        exists [], (x :: l2).
        split; [cbn; f_equal; [exact Hc | f_equal; exact Hl2]|].
        split; [constructor|]. constructor; [|exact H2].
        rewrite <- Hc. exact Hxb.
      * cbn in Hd. injection Hd as Hy Hl'. subst y.
        exists (b :: x :: l1), l2.
        split; [cbn; do 2 f_equal; exact Hl'|].
        inversion H1; subst.
        split; [|exact H2].
        constructor; [assumption|]. constructor; [|assumption].
        apply leb_ltb_trans with (snd b); assumption.
Qed.

End Selection.

Section DataFrames.
Import Float64 FloatFacts FloatTransitivity.

Lemma in_combine_seq (chain : list PutQuote) (s j : nat) (q : PutQuote) :
  In (j, q) (combine (seq s (length chain)) chain)
  <-> (s <= j)%nat /\ nth_error chain (j - s) = Some q.
Proof.
  revert s. induction chain as [|x chain IH]; intros s; cbn [length seq combine].
  - split; [intros [] | intros [_ H]]. destruct (j - s)%nat; discriminate.
  - cbn [In]. rewrite IH. split.
    + intros [E | [Hs Hn]].
      * injection E as <- <-. split; [lia|]. replace (s - s)%nat with 0%nat by lia.
        reflexivity.
      * split; [lia|]. replace (j - s)%nat with (S (j - S s)) by lia.
        exact Hn.
    + intros [Hs Hn]. destruct (j - s)%nat as [|k] eqn:E.
      * left. cbn in Hn. injection Hn as <-. f_equal. lia.
      * right. split; [lia|]. replace (j - S s)%nat with k by lia. exact Hn.
Qed.

Lemma in_with_index (chain : list PutQuote) (j : nat) (q : PutQuote) :
  In (j, q) (with_index chain) <-> nth_error chain j = Some q.
Proof.
  unfold with_index. rewrite in_combine_seq.
  replace (j - 0)%nat with j by lia. split; [intros [_ H]; exact H|].
  intros H. split; [lia | exact H].
Qed.

Lemma sorted_combine_seq (chain : list PutQuote) (s : nat) :
  StronglySorted label_lt (combine (seq s (length chain)) chain).
Proof.
  revert s. induction chain as [|x chain IH]; intros s; cbn [length seq combine].
  - constructor.
  - constructor; [apply IH|]. apply List.Forall_forall. intros [j q] H.
    apply in_combine_seq in H. unfold label_lt. cbn. lia.
Qed.

Lemma sorted_filter {A : Type} (R : A -> A -> Prop) (f : A -> bool)
  (l : list A) :
  StronglySorted R l -> StronglySorted R (List.filter f l).
Proof.
  induction 1 as [|a l Hs IH Hf]; cbn [List.filter]; [constructor|].
  destruct (f a); [|exact IH]. constructor; [exact IH|].
  apply List.Forall_forall. intros x Hx. apply filter_In in Hx.
  rewrite List.Forall_forall in Hf. apply Hf. apply Hx.
Qed.

Lemma sorted_split {A : Type} (R : A -> A -> Prop) (l1 l2 : list A) (a : A) :
  StronglySorted R (l1 ++ a :: l2) ->
  List.Forall (fun x => R x a) l1 /\ List.Forall (R a) l2.
Proof.
  induction l1 as [|x l1 IH]; cbn; intros H; inversion H as [|? ? Hs Hf]; subst.
  - split; [constructor | exact Hf].
  - destruct (IH Hs) as [H1 H2]. split; [|exact H2].
    constructor; [|exact H1].
    rewrite List.Forall_forall in Hf. apply Hf. apply in_or_app. right. left.
    reflexivity.
Qed.

Lemma in_qualifying (chain : list PutQuote) (ms : float) (j : nat)
  (q : PutQuote) :
  In (j, q) (qualifying chain ms)
  <-> nth_error chain j = Some q /\ (strike q <=? ms)%float = true.
Proof.
  unfold qualifying. rewrite filter_In, in_with_index. reflexivity.
Qed.

Lemma sorted_qualifying (chain : list PutQuote) (ms : float) :
  StronglySorted label_lt (qualifying chain ms).
Proof. apply sorted_filter. apply sorted_combine_seq. Qed.

Lemma loc_sorted (p1 p2 : list (nat * PutQuote)) (r : nat * PutQuote) :
  StronglySorted label_lt (p1 ++ r :: p2) ->
  loc (p1 ++ r :: p2) (fst r) = Ok (snd r).
Proof.
  intros Hs. apply sorted_split in Hs. destruct Hs as [H1 _].
  unfold loc. induction p1 as [|x p1 IH]; cbn [app find].
  - rewrite Nat.eqb_refl. reflexivity.
  - inversion H1 as [|? ? Hx H1']; subst. unfold label_lt in Hx.
    destruct (Nat.eqb_spec (fst x) (fst r)); [lia|]. apply IH. exact H1'.
Qed.

Lemma idxmax_ok (puts : list (nat * PutQuote)) (label : nat) :
  idxmax (map (fun r => (fst r, bid (snd r))) puts) = Ok label ->
  exists p1 r p2,
    puts = (p1 ++ r :: p2)%list /\ fst r = label /\
    List.Forall (fun x => (snd (bid_entry x) <? snd (bid_entry r))%float = true) p1 /\
    List.Forall (fun x => (snd (bid_entry x) <=? snd (bid_entry r))%float = true) p2.
Proof.
  unfold idxmax. destruct (forallb _ _); [discriminate|].
  rewrite map_map. cbn [fst snd]. fold bid_entry.
  change (fun x : nat * PutQuote => (fst x, fillna_neg_inf (bid (snd x))))
    with bid_entry.
  destruct (map bid_entry puts) as [|c l] eqn:E; [discriminate|].
  intros H. injection H as <-.
  assert (Hn : List.Forall (fun c => is_nan (snd c) = false) (c :: l)).
  { rewrite <- E. apply List.Forall_forall. intros x Hx.
    apply in_map_iff in Hx. destruct Hx as (y & <- & _).
    apply fillna_not_nan. }
  destruct (argmax_from_spec l c Hn) as (l1 & l2 & Hd & H1 & H2).
  rewrite <- E in Hd. apply map_eq_app in Hd.
  destruct Hd as (p1 & p2' & -> & Hp1 & Hp2).
  apply map_eq_cons in Hp2. destruct Hp2 as (r & p2 & -> & Hr & Hp2).
  exists p1, r, p2. split; [reflexivity|].
  split; [rewrite <- Hr; reflexivity|].
  rewrite <- Hr in H1, H2. subst l1 l2.
  rewrite Forall_map in H1, H2. split; assumption.
Qed.

End DataFrames.

(** ** The Put Screener *)

Section Screener.
Import Float64 FloatFacts FloatTransitivity.

Lemma best_put_selected (chain : list PutQuote) (ms : float) (label : nat)
  (best : PutQuote) :
  idxmax (map (fun r => (fst r, bid (snd r))) (qualifying chain ms))
    = Ok label ->
  loc (qualifying chain ms) label = Ok best ->
  selected chain ms label best.
Proof.
  intros Hi Hl. destruct (idxmax_ok _ _ Hi) as (p1 & r & p2 & Hp & Hr & H1 & H2).
  pose proof (sorted_qualifying chain ms) as Hs. rewrite Hp in Hs.
  pose proof (loc_sorted p1 p2 r Hs) as Hloc. rewrite <- Hp, Hr, Hl in Hloc.
  injection Hloc as Hb. destruct r as [i b]. cbn [fst snd] in *. subst i b.
  assert (Hin : In (label, best) (qualifying chain ms))
    by (rewrite Hp; apply in_or_app; right; left; reflexivity).
  apply in_qualifying in Hin. destruct Hin as [Hn Hq].
  split; [exact Hn|]. split; [exact Hq|].
  intros j q Hj Hjq.
  assert (Hin : In (j, q) (qualifying chain ms))
    by (apply in_qualifying; split; assumption).
  rewrite Hp in Hin. apply sorted_split in Hs. destruct Hs as [S1 S2].
  apply in_app_or in Hin. destruct Hin as [Hin | [Hin | Hin]].
  - rewrite List.Forall_forall in H1. specialize (H1 _ Hin). cbn in H1.
    split; [apply ltb_leb; exact H1|].
    rewrite (ltb_not_eqb _ _ H1). discriminate.
  - injection Hin as <- <-. split; [|lia].
    apply leb_refl. apply fillna_not_nan.
  - rewrite List.Forall_forall in H2, S2. specialize (H2 _ Hin).
    specialize (S2 _ Hin). unfold label_lt in S2. cbn in H2, S2.
    split; [exact H2 | lia].
Qed.

Lemma best_put_exists (chain : list PutQuote) (ms : float) :
  (exists j q, nth_error chain j = Some q /\
               (strike q <=? ms)%float = true /\ is_nan (bid q) = false) ->
  exists label best,
    idxmax (map (fun r => (fst r, bid (snd r))) (qualifying chain ms))
      = Ok label /\
    loc (qualifying chain ms) label = Ok best.
Proof.
  intros (j & q & Hj & Hq & Hn).
  assert (Hin : In (j, q) (qualifying chain ms))
    by (apply in_qualifying; split; assumption).
  assert (Hi : exists label,
             idxmax (map (fun r => (fst r, bid (snd r))) (qualifying chain ms))
             = Ok label).
  { unfold idxmax.
    destruct (forallb _ _) eqn:E.
    - rewrite forallb_forall in E.
      specialize (E (j, bid q)). cbn in E. rewrite Hn in E.
      assert (false = true); [|discriminate]. apply E.
      apply in_map_iff. exists (j, q). split; [reflexivity | exact Hin].
    - destruct (qualifying chain ms) as [|r l]; [destruct Hin|].
      cbn [map]. eexists. reflexivity. }
  destruct Hi as (label & Hi). exists label.
  destruct (idxmax_ok _ _ Hi) as (p1 & r & p2 & Hp & Hr & _).
  exists (snd r). split; [exact Hi|].
  pose proof (sorted_qualifying chain ms) as Hs. rewrite Hp in Hs.
  rewrite Hp, <- Hr. apply loc_sorted. exact Hs.
Qed.

Lemma get_put_option_data_try_fetched (w : World) (t x : string) (m : Z)
  (price : float) (chain : list PutQuote) :
  fetched w t x price chain ->
  get_put_option_data_try w t x m =
    match qualifying chain (max_strike_of price m) with
    | [] => Ok None
    | _ :: _ =>
        let* label :=
          idxmax (map (fun r => (fst r, bid (snd r)))
                    (qualifying chain (max_strike_of price m))) in
        let* best_put := loc (qualifying chain (max_strike_of price m)) label in
        let* expiration := to_datetime w x in
        let* open_interest := int_of_float (openInterest best_put) in
        Ok (Some (screen_record t x price best_put
                    (days_between expiration (today w)) open_interest))
    end.
Proof.
  intros (closes & expirations & H1 & H2 & H3 & H4 & H5).
  unfold get_put_option_data_try. rewrite H1. cbn [bind]. rewrite H2.
  cbn [bind]. rewrite H3. cbn [bind]. rewrite H4. cbn [negb].
  rewrite H5. cbn [bind]. reflexivity.
Qed.

(** What a returned record was built from. *)
Lemma get_put_option_data_inv (w : World) (t x : string) (m : Z)
  (r : ScreenResult) :
  get_put_option_data w t x m = Some r ->
  exists price chain label best e oi,
    fetched w t x price chain /\
    selected chain (max_strike_of price m) label best /\
    to_datetime w x = Ok e /\
    int_of_float (openInterest best) = Ok oi /\
    r = screen_record t x price best (days_between e (today w)) oi.
Proof.
  unfold get_put_option_data.
  destruct (get_put_option_data_try w t x m) as [o|] eqn:E; [|discriminate].
  intros ->. unfold get_put_option_data_try in E.
  destruct (history_close w t) as [closes|] eqn:H1; [|discriminate].
  cbn [bind] in E.
  destruct (iloc_last closes) as [price|] eqn:H2; [|discriminate].
  cbn [bind] in E.
  destruct (options w t) as [expirations|] eqn:H3; [|discriminate].
  cbn [bind] in E.
  destruct (existsb (String.eqb x) expirations) eqn:H4; [|discriminate].
  cbn [negb] in E.
  destruct (option_chain_puts w t x) as [chain|] eqn:H5; [|discriminate].
  cbn [bind] in E. fold (qualifying chain (max_strike_of price m)) in E.
  destruct (qualifying chain (max_strike_of price m)) as [|r0 l] eqn:Q;
    [discriminate|]. rewrite <- Q in E.
  destruct (idxmax _) as [label|] eqn:H6; [|discriminate]. cbn [bind] in E.
  destruct (loc _ label) as [best|] eqn:H7; [|discriminate]. cbn [bind] in E.
  destruct (to_datetime w x) as [e|] eqn:H8; [|discriminate]. cbn [bind] in E.
  destruct (int_of_float (openInterest best)) as [oi|] eqn:H9; [|discriminate].
  cbn [bind] in E. injection E as <-.
  exists price, chain, label, best, e, oi.
  split; [exists closes, expirations; repeat split; assumption|].
  split; [apply best_put_selected; assumption|].
  repeat split; assumption.
Qed.

(** When the screener returns a record. *)
Lemma get_put_option_data_some (w : World) (t x : string) (m : Z)
  (price : float) (chain : list PutQuote) (e : date) :
  fetched w t x price chain ->
  to_datetime w x = Ok e ->
  (exists j q, nth_error chain j = Some q /\
               (strike q <=? max_strike_of price m)%float = true /\
               is_nan (bid q) = false) ->
  (forall j q, nth_error chain j = Some q ->
               (strike q <=? max_strike_of price m)%float = true ->
               exists oi, int_of_float (openInterest q) = Ok oi) ->
  exists label best oi,
    selected chain (max_strike_of price m) label best /\
    int_of_float (openInterest best) = Ok oi /\
    get_put_option_data w t x m
    = Some (screen_record t x price best (days_between e (today w)) oi).
Proof.
  intros Hf He Hq Hoi.
  destruct (best_put_exists chain _ Hq) as (label & best & Hi & Hl).
  pose proof (best_put_selected _ _ _ _ Hi Hl) as Hsel.
  destruct Hsel as (Hn & Hs & Hmax).
  destruct (Hoi label best Hn Hs) as (oi & Ho).
  exists label, best, oi. split; [exact (conj Hn (conj Hs Hmax))|].
  split; [exact Ho|].
  unfold get_put_option_data.
  rewrite (get_put_option_data_try_fetched w t x m price chain Hf).
  destruct (qualifying chain (max_strike_of price m)) as [|r0 l] eqn:Q.
  - cbn in Hl. discriminate.
  - rewrite Hi. cbn [bind]. rewrite Hl. cbn [bind]. rewrite He. cbn [bind].
    rewrite Ho. reflexivity.
Qed.

End Screener.

(** ** Signs, infinities and NaN through the arithmetic *)

Module FloatSigns.
Import Float64 FloatFacts.

Lemma sf_sign_side (s : bool) (f : spec_float) : sf_sign s f -> sf_side s f.
Proof. destruct f; cbn; auto. Qed.

Lemma binary_round_aux_sign (s : bool) (m e : Z) (l : location) :
  sf_sign s (binary_round_aux prec emax s m e l).
Proof.
  unfold binary_round_aux.
  destruct (shr_fexp prec emax m e l) as [mrs' e'].
  destruct (shr_fexp prec emax _ e' loc_Exact) as [mrs'' e''].
  destruct (shr_m mrs''); cbn; [reflexivity | | exact I].
  destruct (e'' <=? emax - prec); reflexivity.
Qed.

Lemma SFmul_side (sx sy : bool) (x y : spec_float) :
  sf_side sx x -> sf_sign sy y -> sf_side (xorb sx sy) (SF64mul x y).
Proof.
  destruct x as [a|a| |a mx ex], y as [b|b| |b my ey]; cbn;
    try (intros; exact I); try (intros -> ->; reflexivity).
  intros -> ->. apply sf_sign_side. apply binary_round_aux_sign.
Qed.

Lemma SFdiv_side (sx sy : bool) (x y : spec_float) :
  sf_side sx x -> sf_sign sy y -> sf_side (xorb sx sy) (SF64div x y).
Proof.
  destruct x as [a|a| |a mx ex], y as [b|b| |b my ey]; cbn;
    try (intros; exact I); try (intros -> ->; reflexivity).
  intros -> ->. unfold SF64div, SFdiv.
  destruct (SFdiv_core_binary prec emax (Z.pos mx) ex (Z.pos my) ey)
    as [[mz ez] lz].
  apply sf_sign_side. apply binary_round_aux_sign.
Qed.

Lemma SFdiv_by_zero (x : spec_float) (s : bool) :
  sf_nonfinite (SF64div x (S754_zero s)).
Proof. destruct x; exact I. Qed.

Lemma SFmul_nonfinite (x y : spec_float) :
  sf_nonfinite x -> sf_finite_nonzero y -> sf_nonfinite (SF64mul x y).
Proof. destruct x, y; cbn; tauto. Qed.

Lemma SFdiv_nonfinite (x y : spec_float) :
  sf_nonfinite x -> sf_finite_nonzero y -> sf_nonfinite (SF64div x y).
Proof. destruct x, y; cbn; tauto. Qed.

Lemma of_uint63_sign (n : Uint63.int) : sf_sign false (Prim2SF (of_uint63 n)).
Proof.
  rewrite of_uint63_spec. pose proof (Uint63.to_Z_bounded n) as [H _].
  unfold binary_normalize. destruct (Uint63.to_Z n) as [|p|p];
    [reflexivity | | lia].
  unfold binary_round.
  destruct (shl_align p 0 _) as [mz ez]. apply binary_round_aux_sign.
Qed.

Lemma SFopp_sign (s : bool) (f : spec_float) :
  sf_sign s f -> sf_sign (negb s) (SFopp f).
Proof. destruct f; cbn; intros; subst; auto. Qed.

Lemma binary_round_sign (s : bool) (m : positive) (e : Z) :
  sf_sign s (binary_round prec emax s m e).
Proof.
  unfold binary_round. destruct (shl_align m e _) as [mz ez].
  apply binary_round_aux_sign.
Qed.

Lemma SFldexp_sign (s : bool) (f : spec_float) (e : Z) :
  sf_sign s f -> sf_sign s (SFldexp prec emax f e).
Proof.
  destruct f as [a|a| |a m e']; cbn; auto.
  intros ->. apply binary_round_sign.
Qed.

(** [SF2Prim] keeps the sign, whatever the mantissa. *)
Lemma SF2Prim_sign (s : bool) (f : spec_float) :
  sf_sign s f -> sf_sign s (Prim2SF (SF2Prim f)).
Proof.
  destruct f as [a|a| |a m e]; cbn [sf_sign SF2Prim].
  - intros ->. destruct s; reflexivity.
  - intros ->. destruct s; reflexivity.
  - intros _. reflexivity.
  - intros ->.
    assert (H : sf_sign false
                  (Prim2SF (Z.ldexp (of_uint63 (Uint63.of_Z (Z.pos m))) e))).
    { rewrite Z_ldexp_spec. apply SFldexp_sign. apply of_uint63_sign. }
    destruct s; [|exact H].
    rewrite opp_spec. apply (SFopp_sign false). exact H.
Qed.

Lemma float_of_int_neg_sign (z : Z) :
  z < 0 -> sf_sign true (Prim2SF (float_of_int z)).
Proof.
  destruct z as [|p|p]; try lia. intros _. unfold float_of_int.
  apply SF2Prim_sign. cbn [binary_normalize]. apply binary_round_sign.
Qed.

Lemma rint_side (s : bool) (x : float) :
  sf_side s (Prim2SF x) -> sf_side s (Prim2SF (rint x)).
Proof.
  unfold rint. destruct (Prim2SF x) as [a|a| |a m e] eqn:E;
    try (rewrite E; auto).
  cbn. intros ->. destruct (0 <=? e); [rewrite E; reflexivity|].
  apply sf_sign_side. destruct s.
  - rewrite opp_spec. apply (SFopp_sign false). apply of_uint63_sign.
  - apply of_uint63_sign.
Qed.

Lemma rint_nonfinite (x : float) :
  sf_nonfinite (Prim2SF x) -> rint x = x.
Proof. unfold rint. destruct (Prim2SF x); cbn; intros H; auto; destruct H. Qed.

Lemma hundred_spec : Prim2SF 100 = S754_finite false 7036874417766400 (-46).
Proof. vm_compute. reflexivity. Qed.

Lemma np_round2_side (s : bool) (x : float) :
  sf_side s (Prim2SF x) -> sf_side s (Prim2SF (np_round2 x)).
Proof.
  intros H. unfold np_round2. rewrite div_spec.
  rewrite <- (xorb_false_r s). apply SFdiv_side.
  - apply rint_side. rewrite mul_spec. rewrite <- (xorb_false_r s).
    apply SFmul_side; [exact H|]. rewrite hundred_spec. reflexivity.
  - rewrite hundred_spec. reflexivity.
Qed.

Lemma np_round2_nonfinite (x : float) :
  sf_nonfinite (Prim2SF x) -> sf_nonfinite (Prim2SF (np_round2 x)).
Proof.
  intros H. unfold np_round2.
  assert (H1 : sf_nonfinite (Prim2SF (x * 100)%float)).
  { rewrite mul_spec. apply SFmul_nonfinite; [exact H|].
    rewrite hundred_spec. exact I. }
  rewrite (rint_nonfinite _ H1), div_spec.
  apply SFdiv_nonfinite; [exact H1|]. rewrite hundred_spec. exact I.
Qed.

Lemma nonfinite_is_finite (x : float) :
  sf_nonfinite (Prim2SF x) -> is_finite x = false.
Proof.
  intros H. unfold is_finite, is_infinity. rewrite is_nan_spec.
  rewrite FloatAxioms.eqb_spec, abs_spec.
  destruct (Prim2SF x); cbn in H; try destruct H; reflexivity.
Qed.

Lemma side_true_not_positive (x : float) :
  sf_side true (Prim2SF x) -> (0 <? x)%float = false.
Proof.
  rewrite FloatAxioms.ltb_spec. change (Prim2SF 0) with (S754_zero false).
  destruct (Prim2SF x); cbn; intros H; subst; reflexivity.
Qed.

Lemma leb_zero_side (x : float) :
  (0 <=? x)%float = true -> sf_side false (Prim2SF x).
Proof.
  rewrite FloatAxioms.leb_spec. change (Prim2SF 0) with (S754_zero false).
  destruct (Prim2SF x) as [a|a| |a m e]; cbn; try destruct a;
    try discriminate; auto.
Qed.

Lemma ltb_zero_sign (x : float) :
  (0 <? x)%float = true -> sf_sign false (Prim2SF x).
Proof.
  rewrite FloatAxioms.ltb_spec. change (Prim2SF 0) with (S754_zero false).
  destruct (Prim2SF x) as [a|a| |a m e]; cbn; try destruct a;
    try discriminate; auto.
Qed.

End FloatSigns.

(** ** The Put Screener: the claims *)

Section ScreenerClaims.
Import Float64 FloatFacts FloatSigns.

(** C7: for the row the screener selects, the record's Absolute ROI is
    [round(bid / strike * 100, 2)], its Premium [round(bid * 100, 2)] and
    its Cash Required [round(strike * 100, 2)], [round] being NumPy's. *)
Theorem roi_premium_cash_of_selected_row (w : World) (t x : string) (m : Z)
  (r : ScreenResult) :
  get_put_option_data w t x m = Some r ->
  exists price chain label best,
    fetched w t x price chain /\
    selected chain (max_strike_of price m) label best /\
    Abs_ROI r = np_round2 (bid best / strike best * 100) /\
    Premium r = np_round2 (bid best * 100) /\
    Cash_Required r = np_round2 (strike best * 100).
Proof.
  intros H.
  destruct (get_put_option_data_inv w t x m r H)
    as (price & chain & label & best & e & oi & Hf & Hs & _ & _ & ->).
  exists price, chain, label, best.
  split; [exact Hf|]. split; [exact Hs|]. repeat split.
Qed.

Lemma roi_premium_cash_of_selected_row_witness :
  exists price chain label best,
    fetched (example_world wednesday_10am 200 example_chain ∅)
      "AAPL" "2026-11-13" price chain /\
    selected chain (max_strike_of price 5) label best /\
    Abs_ROI example_record = np_round2 (bid best / strike best * 100) /\
    Premium example_record = np_round2 (bid best * 100) /\
    Cash_Required example_record = np_round2 (strike best * 100).
Proof.
  apply (roi_premium_cash_of_selected_row
           (example_world wednesday_10am 200 example_chain ∅)
           "AAPL" "2026-11-13" 5 example_record).
  vm_compute. reflexivity.
Defined.

(** C2, as amended: the Annualized ROI of a returned record is
    [round(bid / strike * 100 * 365 / days_to_expiration, 2)], computed from
    the unrounded ratio of the selected row; the Absolute ROI field is the
    separately rounded [round(bid / strike * 100, 2)]. *)
Theorem annualized_roi_of_selected_row (w : World) (t x : string) (m : Z)
  (r : ScreenResult) :
  get_put_option_data w t x m = Some r ->
  exists price chain label best e,
    fetched w t x price chain /\
    selected chain (max_strike_of price m) label best /\
    to_datetime w x = Ok e /\
    Abs_ROI r = np_round2 (bid best / strike best * 100) /\
    Annualized_ROI r
    = np_round2 (bid best / strike best * 100 * 365
                 / float_of_int (days_between e (today w))).
Proof.
  intros H.
  destruct (get_put_option_data_inv w t x m r H)
    as (price & chain & label & best & e & oi & Hf & Hs & He & _ & ->).
  exists price, chain, label, best, e.
  split; [exact Hf|]. split; [exact Hs|]. split; [exact He|]. repeat split.
Qed.

Lemma annualized_roi_of_selected_row_witness :
  exists price chain label best e,
    fetched (example_world wednesday_10am 200 example_chain ∅)
      "AAPL" "2026-11-13" price chain /\
    selected chain (max_strike_of price 5) label best /\
    to_datetime (example_world wednesday_10am 200 example_chain ∅)
      "2026-11-13" = Ok e /\
    Abs_ROI example_record = np_round2 (bid best / strike best * 100) /\
    Annualized_ROI example_record
    = np_round2 (bid best / strike best * 100 * 365
                 / float_of_int
                     (days_between e
                        (today (example_world wednesday_10am 200
                                  example_chain ∅)))).
Proof.
  apply (annualized_roi_of_selected_row
           (example_world wednesday_10am 200 example_chain ∅)
           "AAPL" "2026-11-13" 5 example_record).
  vm_compute. reflexivity.
Defined.

(** C2 as stated fails: with a bid of 2 on the strike 185 and 6 whole days
    to the expiration, the record holds an Absolute ROI of 1.08 and an
    Annualized ROI of 65.77, whereas [round(1.08 * 365 / 6, 2)] is 65.7. *)
Lemma annualized_roi_is_not_from_rounded_roi :
  exists r,
    get_put_option_data (example_world friday_10am 200 example_chain ∅)
      "AAPL" "2026-11-13" 5 = Some r /\
    days_between (mkdate 2026 11 13) friday_10am = 6 /\
    (Abs_ROI r =? 108 / 100)%float = true /\
    (Annualized_ROI r =? 6577 / 100)%float = true /\
    (np_round2 (Abs_ROI r * 365 / float_of_int 6) =? 657 / 10)%float = true /\
    (Annualized_ROI r =? np_round2 (Abs_ROI r * 365 / float_of_int 6))%float
    = false.
Proof. eexists. repeat split; vm_compute; reflexivity. Qed.

(** C3, as amended: the screener produces a record only if a put of the
    chain has its strike at or under [price * (1 - moneyness / 100)], and the
    record is that of the qualifying put with the greatest bid, the earliest
    row among equals (NaN bids are skipped).  Conversely a record is
    produced when the price lookup, the expiration check and the chain fetch
    succeed, the expiration parses as a date, some qualifying put has a bid
    that is not NaN, and the open interest of the qualifying puts converts
    to an integer. *)
Theorem put_screener_selection (w : World) (t x : string) (m : Z) :
  (forall r,
     get_put_option_data w t x m = Some r ->
     exists price chain label best,
       fetched w t x price chain /\
       selected chain (max_strike_of price m) label best /\
       Strike r = np_round2 (strike best) /\
       Bid r = np_round2 (bid best)) /\
  (forall price chain e,
     fetched w t x price chain ->
     to_datetime w x = Ok e ->
     (exists j q, nth_error chain j = Some q /\
                  (strike q <=? max_strike_of price m)%float = true /\
                  is_nan (bid q) = false) ->
     (forall j q, nth_error chain j = Some q ->
                  (strike q <=? max_strike_of price m)%float = true ->
                  exists oi, int_of_float (openInterest q) = Ok oi) ->
     exists r, get_put_option_data w t x m = Some r).
Proof.
  split.
  - intros r H.
    destruct (get_put_option_data_inv w t x m r H)
      as (price & chain & label & best & e & oi & Hf & Hs & _ & _ & ->).
    exists price, chain, label, best.
  split; [exact Hf|]. split; [exact Hs|]. repeat split.
  - intros price chain e Hf He Hq Hoi.
    destruct (get_put_option_data_some w t x m price chain e Hf He Hq Hoi)
      as (label & best & oi & _ & _ & H).
    eexists. exact H.
Qed.

Lemma put_screener_selection_witness :
  (forall r,
     get_put_option_data (example_world wednesday_10am 200 example_chain ∅)
       "AAPL" "2026-11-13" 5 = Some r ->
     exists price chain label best,
       fetched (example_world wednesday_10am 200 example_chain ∅)
         "AAPL" "2026-11-13" price chain /\
       selected chain (max_strike_of price 5) label best /\
       Strike r = np_round2 (strike best) /\
       Bid r = np_round2 (bid best)) /\
  exists r,
    get_put_option_data (example_world wednesday_10am 200 example_chain ∅)
      "AAPL" "2026-11-13" 5 = Some r.
Proof.
  destruct (put_screener_selection
              (example_world wednesday_10am 200 example_chain ∅)
              "AAPL" "2026-11-13" 5) as [H1 H2].
  split; [exact H1|].
  apply (H2 200%float example_chain (mkdate 2026 11 13)).
  - eexists. eexists. repeat split; vm_compute; reflexivity.
  - vm_compute. reflexivity.
  - exists 0%nat. eexists. repeat split; vm_compute; reflexivity.
  - intros [|[|[|j]]] q Hj _; cbn in Hj; try discriminate;
      injection Hj as <-; eexists; vm_compute; reflexivity.
Defined.

(** C3 as stated fails: the chain holds a put under the strike ceiling, and
    yet no record is produced, because its open interest is NaN and the
    conversion to an integer raises. *)
Lemma qualifying_put_without_record :
  fetched
    (example_world wednesday_10am 200 [mkPutQuote 185 2 2.5 nan 0.25] ∅)
    "AAPL" "2026-11-13" 200 [mkPutQuote 185 2 2.5 nan 0.25] /\
  nth_error [mkPutQuote 185 2 2.5 nan 0.25] 0
  = Some (mkPutQuote 185 2 2.5 nan 0.25) /\
  (strike (mkPutQuote 185 2 2.5 nan 0.25) <=? max_strike_of 200 5)%float
  = true /\
  get_put_option_data_try
    (example_world wednesday_10am 200 [mkPutQuote 185 2 2.5 nan 0.25] ∅)
    "AAPL" "2026-11-13" 5 = Raise ValueError /\
  get_put_option_data
    (example_world wednesday_10am 200 [mkPutQuote 185 2 2.5 nan 0.25] ∅)
    "AAPL" "2026-11-13" 5 = None.
Proof.
  split; [eexists; eexists; repeat split; vm_compute; reflexivity|].
  repeat split; vm_compute; reflexivity.
Qed.

End ScreenerClaims.

Section ExpiredClaims.
Import Float64 FloatFacts FloatSigns.

Lemma annualized_nonfinite (b s : float) :
  sf_nonfinite (Prim2SF (np_round2 (b / s * 100 * 365 / float_of_int 0))).
Proof.
  apply np_round2_nonfinite. rewrite div_spec.
  change (Prim2SF (float_of_int 0)) with (S754_zero false).
  apply SFdiv_by_zero.
Qed.

Lemma annualized_not_positive (b s : float) (days : Z) :
  days < 0 -> (0 <=? b)%float = true -> (0 <? s)%float = true ->
  sf_side true (Prim2SF (np_round2 (b / s * 100 * 365 / float_of_int days))).
Proof.
  intros Hd Hb Hs. apply np_round2_side. rewrite div_spec.
  change true with (xorb false true). apply SFdiv_side.
  - rewrite mul_spec. change false with (xorb false false).
    apply SFmul_side; [|vm_compute; reflexivity].
    rewrite mul_spec. change false with (xorb false false).
    apply SFmul_side; [|vm_compute; reflexivity].
    rewrite div_spec. change false with (xorb false false).
    apply SFdiv_side; [apply leb_zero_side | apply ltb_zero_sign]; assumption.
  - apply float_of_int_neg_sign. exact Hd.
Qed.

(** C9, as amended: with zero or fewer whole days to the expiration the
    screener still returns a record whenever it would otherwise (lookups
    succeed, the expiration parses, a qualifying put has a bid that is not
    NaN, open interests convert).  With zero days the Annualized ROI is not
    finite (an infinity or NaN).  With a negative number of days, bids at
    least zero and strikes above zero, it is never positive: it is negative,
    or a zero when the bid is zero or the quotient rounds to zero (or NaN,
    for an infinite bid on an infinite strike). *)
Theorem annualized_roi_of_expired (w : World) (t x : string) (m : Z)
  (price : float) (chain : list PutQuote) (e : date) :
  fetched w t x price chain ->
  to_datetime w x = Ok e ->
  days_between e (today w) <= 0 ->
  (exists j q, nth_error chain j = Some q /\
               (strike q <=? max_strike_of price m)%float = true /\
               is_nan (bid q) = false) ->
  (forall j q, nth_error chain j = Some q ->
               (strike q <=? max_strike_of price m)%float = true ->
               exists oi, int_of_float (openInterest q) = Ok oi) ->
  exists r,
    get_put_option_data w t x m = Some r /\
    (days_between e (today w) = 0 -> is_finite (Annualized_ROI r) = false) /\
    (days_between e (today w) < 0 ->
     (forall j q, nth_error chain j = Some q ->
                  (0 <=? bid q)%float = true /\ (0 <? strike q)%float = true) ->
     (0 <? Annualized_ROI r)%float = false).
Proof.
  intros Hf He Hd Hq Hoi.
  destruct (get_put_option_data_some w t x m price chain e Hf He Hq Hoi)
    as (label & best & oi & Hs & _ & H).
  eexists. split; [exact H|]. cbn [Annualized_ROI screen_record]. split.
  - intros ->. apply nonfinite_is_finite. apply annualized_nonfinite.
  - intros Hneg Hpos. apply side_true_not_positive.
    destruct Hs as (Hn & _). destruct (Hpos label best Hn) as [Hb Hk].
    apply annualized_not_positive; assumption.
Qed.

(** The theorem on the Friday of an expiration, at 10 in the morning: the
    count of whole days is -1. *)
Lemma annualized_roi_of_expired_witness :
  exists r,
    get_put_option_data (example_world friday_10am 200 example_chain ∅)
      "AAPL" "2026-11-06" 5 = Some r /\
    (days_between (mkdate 2026 11 6)
       (today (example_world friday_10am 200 example_chain ∅)) = 0 ->
     is_finite (Annualized_ROI r) = false) /\
    (days_between (mkdate 2026 11 6)
       (today (example_world friday_10am 200 example_chain ∅)) < 0 ->
     (forall j q, nth_error example_chain j = Some q ->
                  (0 <=? bid q)%float = true /\ (0 <? strike q)%float = true) ->
     (0 <? Annualized_ROI r)%float = false).
Proof.
  apply (annualized_roi_of_expired
           (example_world friday_10am 200 example_chain ∅)
           "AAPL" "2026-11-06" 5 200%float example_chain (mkdate 2026 11 6)).
  - eexists. eexists. repeat split; vm_compute; reflexivity.
  - vm_compute. reflexivity.
  - vm_compute. discriminate.
  - exists 0%nat. eexists. repeat split; vm_compute; reflexivity.
  - intros [|[|[|j]]] q Hj _; cbn in Hj; try discriminate;
      injection Hj as <-; eexists; vm_compute; reflexivity.
Defined.

(** C9 as stated fails for a negative number of days when the best bid is
    zero: the Annualized ROI is then a zero, not a negative number.  (With
    zero days, the Thursday before the expiration here, it is an
    infinity.) *)
Lemma annualized_roi_of_expired_zero_bid :
  exists r,
    get_put_option_data
      (example_world friday_10am 200 [mkPutQuote 185 0 0.5 120 0.25] ∅)
      "AAPL" "2026-11-06" 5 = Some r /\
    days_between (mkdate 2026 11 6) friday_10am = -1 /\
    (Annualized_ROI r =? 0)%float = true /\
    (Annualized_ROI r <? 0)%float = false.
Proof. eexists. repeat split; vm_compute; reflexivity. Qed.

Example annualized_roi_zero_days :
  exists r,
    get_put_option_data (example_world thursday_10am 200 example_chain ∅)
      "AAPL" "2026-11-06" 5 = Some r /\
    days_between (mkdate 2026 11 6) thursday_10am = 0 /\
    Annualized_ROI r = infinity.
Proof. eexists. repeat split; vm_compute; reflexivity. Qed.

End ExpiredClaims.

(** ** The Fundamentals Enricher: the claims *)

Section FundamentalsClaims.

Lemma score_count_bounds (a b c : bool) : 0 <= score_count a b c <= 3.
Proof. unfold score_count, int_of_bool. destruct a, b, c; lia. Qed.

Lemma bind_ok {A B : Type} (m : result A) (k : A -> result B) (b : B) :
  bind m k = Ok b -> exists a, m = Ok a /\ k a = Ok b.
Proof. destruct m as [a|e]; cbn; [eauto | discriminate]. Qed.

Lemma bind_raise {A B : Type} (m : result A) (k : A -> result B) :
  (forall a, exists e, k a = Raise e) -> exists e, bind m k = Raise e.
Proof. intros H. destruct m as [a|e]; cbn; [apply H | eauto]. Qed.

Lemma get_fundamentals_try_score (w : World) (t : string)
  (r : FundamentalsSummary) :
  get_fundamentals_try w t = Ok r ->
  exists i above,
    info w t = Ok i /\ target_above_price i = Ok above /\
    Overall_Score r
    = score_count (recommends_buy i) above (pays_dividend i).
Proof.
  unfold get_fundamentals_try. intros H.
  apply bind_ok in H. destruct H as (i & Hi & H).
  apply bind_ok in H. destruct H as (cal & _ & H).
  apply bind_ok in H. destruct H as (ed & _ & H).
  apply bind_ok in H. destruct H as (eps_data & _ & H).
  apply bind_ok in H. destruct H as (eps_list & _ & H).
  apply bind_ok in H. destruct H as (beats & _ & H).
  apply bind_ok in H. destruct H as (above & Ha & H).
  apply bind_ok in H. destruct H as (dy & _ & H).
  apply bind_ok in H. destruct H as (pt & _ & H).
  apply bind_ok in H. destruct H as (rec & _ & H).
  injection H as <-. exists i, above. split; [exact Hi|]. split; [exact Ha|].
  cbn [Overall_Score]. unfold score_count.
  destruct (recommends_buy i), above, (pays_dividend i); reflexivity.
Qed.

(** C4, as amended: the Overall Score is always an integer of [0,3].  When
    the enricher raises no exception it is the count of the sub-conditions
    that hold: the recommendation key equals ["buy"]; the mean price target
    is truthy and greater than the current price; the dividend yield is
    truthy (present and not zero).  When an exception is raised it is 0,
    whatever the sub-conditions. *)
Theorem overall_score_spec (w : World) (t : string) :
  0 <= Overall_Score (get_fundamentals w t) <= 3 /\
  (forall r,
     get_fundamentals_try w t = Ok r ->
     exists i above,
       info w t = Ok i /\ target_above_price i = Ok above /\
       Overall_Score (get_fundamentals w t)
       = score_count (recommends_buy i) above (pays_dividend i)) /\
  (forall e,
     get_fundamentals_try w t = Raise e ->
     Overall_Score (get_fundamentals w t) = 0).
Proof.
  unfold get_fundamentals.
  destruct (get_fundamentals_try w t) as [r|e] eqn:E.
  - destruct (get_fundamentals_try_score w t r E) as (i & above & Hi & Ha & Hs).
    split; [rewrite Hs; apply score_count_bounds|].
    split; [|intros e' He'; discriminate].
    intros r' Hr'. injection Hr' as <-. exists i, above. auto.
  - split; [cbn; lia|]. split; [intros r Hr; discriminate|].
    intros _ _. reflexivity.
Qed.

(** The theorem on an [info] that satisfies the three sub-conditions. *)
Lemma overall_score_spec_witness :
  0 <= Overall_Score
         (get_fundamentals
            (example_world wednesday_10am 200 example_chain buy_info)
            "AAPL") <= 3 /\
  exists i above,
    info (example_world wednesday_10am 200 example_chain buy_info) "AAPL"
    = Ok i /\
    target_above_price i = Ok above /\
    Overall_Score
      (get_fundamentals
         (example_world wednesday_10am 200 example_chain buy_info) "AAPL")
    = score_count (recommends_buy i) above (pays_dividend i).
Proof.
  destruct (overall_score_spec
              (example_world wednesday_10am 200 example_chain buy_info)
              "AAPL") as (H1 & H2 & _).
  split; [exact H1|]. eapply H2. vm_compute. reflexivity.
Defined.

(** C4 as stated fails: the recommendation is ["buy"] and the dividend
    yield is nonzero, two sub-conditions hold, and the score is 0, because
    the current price is missing and the comparison with the price target
    raises. *)
Lemma overall_score_zero_despite_conditions :
  recommends_buy buy_info_without_price = true /\
  pays_dividend buy_info_without_price = true /\
  get_fundamentals_try
    (example_world wednesday_10am 200 example_chain buy_info_without_price)
    "AAPL" = Raise TypeError /\
  Overall_Score
    (get_fundamentals
       (example_world wednesday_10am 200 example_chain buy_info_without_price)
       "AAPL") = 0.
Proof. repeat split; vm_compute; reflexivity. Qed.

Example overall_score_three :
  Overall_Score
    (get_fundamentals
       (example_world wednesday_10am 200 example_chain buy_info) "AAPL") = 3.
Proof. vm_compute. reflexivity. Qed.

(** C5: whenever the data access or a derivation of the enricher raises,
    the enricher returns exactly the default record: dividend yield 0.00,
    earnings date, recommendation, EPS list and EPS beats ["N/A"], price
    target 0.00, score 0.  It returns a record on every input: no exception
    leaves it. *)
Theorem get_fundamentals_default_on_exception (w : World) (t : string)
  (e : exn) :
  get_fundamentals_try w t = Raise e ->
  get_fundamentals w t = default_fundamentals /\
  get_fundamentals w t
  = {| Dividend_Yield := PyFloat 0;
       Earnings_Date := "N/A";
       Price_Target := PyFloat 0;
       Recommendation := "N/A";
       EPS_Last_4 := "N/A";
       EPS_Beats_4Q := "N/A";
       Overall_Score := 0 |}.
Proof.
  intros H. unfold get_fundamentals. rewrite H. split; reflexivity.
Qed.

Lemma get_fundamentals_default_on_exception_witness :
  get_fundamentals offline_world "AAPL" = default_fundamentals /\
  get_fundamentals offline_world "AAPL"
  = {| Dividend_Yield := PyFloat 0;
       Earnings_Date := "N/A";
       Price_Target := PyFloat 0;
       Recommendation := "N/A";
       EPS_Last_4 := "N/A";
       EPS_Beats_4Q := "N/A";
       Overall_Score := 0 |}.
Proof.
  apply (get_fundamentals_default_on_exception offline_world "AAPL"
           ProviderError).
  reflexivity.
Defined.

Lemma py_gt_none (v : pyval) : py_gt v PyNone = Raise TypeError.
Proof. destruct v as [| b | z | f | s]; reflexivity. Qed.

Lemma get_missing (i : gmap string pyval) (k : string) :
  i !! k = None -> get i k = PyNone.
Proof. intros H. unfold get, dict_get. rewrite H. reflexivity. Qed.

(** C10: when [info] holds a truthy [targetMeanPrice] and no
    [currentPrice], the comparison of line 54 raises a [TypeError] and the
    enricher returns the default record, score 0, whatever the
    recommendation and the dividend yield are. *)
Theorem missing_current_price_gives_default (w : World) (t : string)
  (i : gmap string pyval) :
  info w t = Ok i ->
  truthy (get i "targetMeanPrice") = true ->
  i !! "currentPrice" = None ->
  target_above_price i = Raise TypeError /\
  get_fundamentals w t = default_fundamentals /\
  Overall_Score (get_fundamentals w t) = 0.
Proof.
  intros Hi Ht Hc.
  assert (Ha : target_above_price i = Raise TypeError).
  { unfold target_above_price. rewrite Ht, (get_missing i _ Hc).
    apply py_gt_none. }
  split; [exact Ha|].
  assert (Hr : exists e, get_fundamentals_try w t = Raise e).
  { unfold get_fundamentals_try. rewrite Hi. cbn [bind].
    apply bind_raise; intros cal. apply bind_raise; intros ed.
    apply bind_raise; intros eps_data. apply bind_raise; intros eps_list.
    apply bind_raise; intros beats. rewrite Ha. cbn [bind]. eauto. }
  destruct Hr as (e & Hr). unfold get_fundamentals. rewrite Hr.
  split; reflexivity.
Qed.

Lemma missing_current_price_gives_default_witness :
  target_above_price buy_info_without_price = Raise TypeError /\
  get_fundamentals
    (example_world wednesday_10am 200 example_chain buy_info_without_price)
    "AAPL" = default_fundamentals /\
  Overall_Score
    (get_fundamentals
       (example_world wednesday_10am 200 example_chain buy_info_without_price)
       "AAPL") = 0.
Proof.
  apply (missing_current_price_gives_default
           (example_world wednesday_10am 200 example_chain
              buy_info_without_price) "AAPL" buy_info_without_price).
  - reflexivity.
  - vm_compute. reflexivity.
  - vm_compute. reflexivity.
Defined.

End FundamentalsClaims.

(** ** The screening loops: the claims *)

Section Orchestration.
Import Float64 FloatFacts.

Lemma in_screen_pair (w : World) (lo hi : float) (m : Z) (t x : string)
  (row : Row) :
  In row (screen_pair w lo hi m t x) <-> kept w lo hi m t x row.
Proof.
  unfold screen_pair, kept.
  destruct (get_put_option_data w t x m) as [od|].
  - destruct (in_price_range lo hi od) eqn:E.
    + split.
      * intros [<- | []]. exists od. auto.
      * intros (od' & H & _ & ->). injection H as <-. left. reflexivity.
    + split; [intros [] | intros (od' & H & H' & _)].
      injection H as <-. congruence.
  - split; [intros [] | intros (od' & H & _)]. discriminate.
Qed.

Lemma in_collect (w : World) (lo hi : float) (m : Z)
  (pairs : list (string * string)) (row : Row) :
  In row (collect w lo hi m pairs)
  <-> exists t x, In (t, x) pairs /\ kept w lo hi m t x row.
Proof.
  unfold collect. rewrite in_flat_map. split.
  - intros ([t x] & Hin & H). exists t, x. split; [exact Hin|].
    apply in_screen_pair. exact H.
  - intros (t & x & Hin & H). exists (t, x). split; [exact Hin|].
    apply in_screen_pair. exact H.
Qed.

Lemma collect_app (w : World) (lo hi : float) (m : Z)
  (p1 p2 : list (string * string)) :
  collect w lo hi m (p1 ++ p2)
  = (collect w lo hi m p1 ++ collect w lo hi m p2)%list.
Proof. unfold collect. apply flat_map_app. Qed.

Lemma insert_desc_perm (key : Row -> float) (r : Row) (l : list Row) :
  Permutation (r :: l) (insert_desc key r l).
Proof.
  induction l as [|x l IH]; cbn [insert_desc]; [reflexivity|].
  destruct (key x <=? key r)%float; [reflexivity|].
  rewrite perm_swap. apply perm_skip. exact IH.
Qed.

Lemma sort_desc_perm (key : Row -> float) (l : list Row) :
  Permutation l (sort_desc key l).
Proof.
  induction l as [|x l IH]; cbn; [reflexivity|].
  rewrite <- insert_desc_perm. apply perm_skip. exact IH.
Qed.

Lemma filter_split_perm {A : Type} (f : A -> bool) (l : list A) :
  Permutation l
    (List.filter (fun a => negb (f a)) l ++ List.filter f l).
Proof.
  induction l as [|x l IH]; cbn [List.filter]; [reflexivity|].
  destruct (f x); cbn [negb app].
  - rewrite <- Permutation_middle. apply perm_skip. exact IH.
  - apply perm_skip. exact IH.
Qed.

Lemma sort_values_desc_perm (key : Row -> float) (l : list Row) :
  Permutation l (sort_values_desc key l).
Proof.
  unfold sort_values_desc. rewrite <- sort_desc_perm.
  apply (filter_split_perm (fun r => is_nan (key r))).
Qed.

Lemma insert_desc_sorted (key : Row -> float) (r : Row) (l : list Row) :
  is_nan (key r) = false ->
  List.Forall (fun x => is_nan (key x) = false) l ->
  StronglySorted (ge_by key) l ->
  StronglySorted (ge_by key) (insert_desc key r l).
Proof.
  intros Nr. induction l as [|x l IH]; intros Hn Hs; cbn [insert_desc].
  - constructor; constructor.
  - inversion Hn as [|? ? Nx Hn']; subst.
    inversion Hs as [|? ? Hs' Hx]; subst.
    destruct (key x <=? key r)%float eqn:E.
    + constructor; [exact Hs|]. constructor; [exact E|].
      rewrite List.Forall_forall in Hx. apply List.Forall_forall.
      intros y Hy. unfold ge_by in *.
      apply leb_trans with (key x); [apply Hx; exact Hy | exact E].
    + constructor; [apply IH; assumption|].
      apply List.Forall_forall. intros y Hy.
      apply (Permutation_in _ (Permutation_sym (insert_desc_perm key r l)))
        in Hy.
      destruct Hy as [<- | Hy].
      * unfold ge_by. apply ltb_leb. apply not_leb_ltb; assumption.
      * rewrite List.Forall_forall in Hx. apply Hx. exact Hy.
Qed.

Lemma sort_desc_sorted (key : Row -> float) (l : list Row) :
  List.Forall (fun x => is_nan (key x) = false) l ->
  StronglySorted (ge_by key) (sort_desc key l).
Proof.
  induction l as [|x l IH]; intros Hn; cbn; [constructor|].
  inversion Hn; subst. apply insert_desc_sorted; [assumption | | auto].
  apply List.Forall_forall. intros y Hy.
  apply (Permutation_in _ (Permutation_sym (sort_desc_perm key l))) in Hy.
  rewrite List.Forall_forall in H2. apply H2. exact Hy.
Qed.

Lemma sorted_app {A : Type} (R : A -> A -> Prop) (l1 l2 : list A) :
  StronglySorted R l1 -> StronglySorted R l2 ->
  (forall a b, In a l1 -> In b l2 -> R a b) ->
  StronglySorted R (l1 ++ l2).
Proof.
  induction 1 as [|a l Hs IH Hf]; intros H2 H; cbn; [exact H2|].
  constructor.
  - apply IH; [exact H2|]. intros x y Hx Hy. apply H; [right|]; assumption.
  - apply Forall_app. split; [exact Hf|].
    apply List.Forall_forall. intros y Hy. apply H; [left; reflexivity | exact Hy].
Qed.

Lemma sorted_all {A : Type} (R : A -> A -> Prop) (l : list A) :
  (forall a b, In b l -> R a b) -> StronglySorted R l.
Proof.
  induction l as [|x l IH]; intros H; constructor.
  - apply IH. intros a b Hb. apply H. right. exact Hb.
  - apply List.Forall_forall. intros y Hy. apply H. right. exact Hy.
Qed.

Lemma sorted_weaken {A : Type} (R S : A -> A -> Prop) (l : list A) :
  (forall a b, R a b -> S a b) -> StronglySorted R l -> StronglySorted S l.
Proof.
  intros H. induction 1 as [|a l Hs IH Hf]; constructor; [exact IH|].
  eapply List.Forall_impl; [|exact Hf]. intros b. apply H.
Qed.

Lemma sort_values_desc_sorted (key : Row -> float) (l : list Row) :
  StronglySorted (desc_by key) (sort_values_desc key l).
Proof.
  unfold sort_values_desc. apply sorted_app.
  - apply (sorted_weaken (ge_by key)); [intros a b H; left; exact H|].
    apply sort_desc_sorted. apply List.Forall_forall. intros x Hx.
    apply filter_In in Hx. destruct Hx as [_ Hx].
    apply negb_true_iff in Hx. exact Hx.
  - apply sorted_all. intros a b Hb. right.
    apply filter_In in Hb. apply Hb.
  - intros a b _ Hb. right. apply filter_In in Hb. apply Hb.
Qed.

Lemma shows_sorted (key : Row -> float) (rows : list Row) (msg1 msg2 csv : string) :
  shows key rows
    match rows with
    | [] => Warning msg1
    | _ :: _ => Success msg2 (sort_values_desc key rows) csv
    end.
Proof.
  destruct rows as [|r rows]; [reflexivity|]. cbn [shows].
  split; [discriminate|].
  split; [apply sort_values_desc_perm | apply sort_values_desc_sorted].
Qed.

Lemma mapM_length {A B : Type} (f : A -> result B) (l : list A)
  (l' : list B) :
  mapM f l = Ok l' -> length l' = length l.
Proof.
  revert l'. induction l as [|a l IH]; intros l' H; cbn [mapM] in H.
  - injection H as <-. reflexivity.
  - apply bind_ok in H. destruct H as (b & _ & H).
    apply bind_ok in H. destruct H as (bs & Hbs & H).
    injection H as <-. cbn. f_equal. apply IH. exact Hbs.
Qed.

End Orchestration.

Section OrchestrationClaims.
Import Float64 FloatFacts.

Lemma get_put_option_data_some_try (w : World) (t x : string) (m : Z)
  (od : ScreenResult) :
  get_put_option_data w t x m = Some od <->
  get_put_option_data_try w t x m = Ok (Some od).
Proof.
  unfold get_put_option_data.
  destruct (get_put_option_data_try w t x m) as [[r|]|e]; split; intros H;
    try discriminate; congruence.
Qed.

(** C6: when any step of the screener raises for a pair, the screener
    returns [None] for it; the loop then appends nothing for that pair, so
    the collected rows are those of the other pairs; and every collected
    row holds a record that the screener built in full, its [try] block
    having run to the end. *)
Theorem screener_exception_is_omitted (w : World) (min_price max_price : float)
  (m : Z) (t x : string) (e : exn) :
  get_put_option_data_try w t x m = Raise e ->
  get_put_option_data w t x m = None /\
  screen_pair w min_price max_price m t x = [] /\
  (forall before after,
     collect w min_price max_price m (before ++ (t, x) :: after)
     = collect w min_price max_price m (before ++ after)) /\
  (forall head, run_all w [head; t] x min_price max_price m
                = Warning "No results found for given filters.") /\
  (forall pairs row,
     In row (collect w min_price max_price m pairs) ->
     exists t' x',
       In (t', x') pairs /\
       get_put_option_data_try w t' x' m = Ok (Some (option_data row))).
Proof.
  intros H.
  assert (Hn : get_put_option_data w t x m = None)
    by (unfold get_put_option_data; rewrite H; reflexivity).
  assert (Hp : screen_pair w min_price max_price m t x = [])
    by (unfold screen_pair; rewrite Hn; reflexivity).
  split; [exact Hn|]. split; [exact Hp|]. split; [|split].
  - intros before after. rewrite !collect_app. f_equal.
    unfold collect. cbn [flat_map fst snd]. rewrite Hp. reflexivity.
  - intros head. unfold run_all, collect. cbn [tl map flat_map fst snd].
    rewrite Hp. reflexivity.
  - intros pairs row Hin. apply in_collect in Hin.
    destruct Hin as (t' & x' & Hin & od & Hod & _ & ->).
    exists t', x'. split; [exact Hin|].
    apply get_put_option_data_some_try. exact Hod.
Qed.

Lemma screener_exception_is_omitted_witness :
  get_put_option_data
    (example_world wednesday_10am 200 chain_without_open_interest ∅)
    "AAPL" "2026-11-13" 5 = None /\
  screen_pair (example_world wednesday_10am 200 chain_without_open_interest ∅)
    50 1000 5 "AAPL" "2026-11-13" = [] /\
  (forall before after,
     collect (example_world wednesday_10am 200 chain_without_open_interest ∅)
       50 1000 5 (before ++ ("AAPL", "2026-11-13")%string :: after)
     = collect (example_world wednesday_10am 200 chain_without_open_interest ∅)
         50 1000 5 (before ++ after)) /\
  (forall head,
     run_all (example_world wednesday_10am 200 chain_without_open_interest ∅)
       [head; "AAPL"%string] "2026-11-13" 50 1000 5
     = Warning "No results found for given filters.") /\
  (forall pairs row,
     In row
       (collect (example_world wednesday_10am 200 chain_without_open_interest ∅)
          50 1000 5 pairs) ->
     exists t' x',
       In (t', x') pairs /\
       get_put_option_data_try
         (example_world wednesday_10am 200 chain_without_open_interest ∅)
         t' x' 5 = Ok (Some (option_data row))).
Proof.
  apply (screener_exception_is_omitted
           (example_world wednesday_10am 200 chain_without_open_interest ∅)
           50 1000 5 "AAPL" "2026-11-13" ValueError).
  vm_compute. reflexivity.
Defined.

(** C8: both modes keep exactly the screener's records whose (rounded)
    current price [p] satisfies [min <= p <= max], each joined with the
    fundamentals of its ticker.  The ALL mode screens each ticker after
    the leading ["ALL"] entry once, for the chosen expiration, and shows the
    kept rows in descending order of the Bid field.  The single-ticker mode
    screens the selected ticker for each of the 4 dates of
    [get_weekly_fridays(n=4)] and shows the kept rows in descending order of
    the Absolute ROI field.  With no row kept the page shows a warning, not
    an error. *)
Theorem screening_modes_spec (w : World) (all_tickers : list string)
  (expiration selected_stock : string) (min_price max_price : float) (m : Z) :
  (let rows :=
     flat_map (fun ticker =>
                 screen_pair w min_price max_price m ticker expiration)
              (tl all_tickers) in
   (forall row,
      In row rows <->
      exists ticker,
        In ticker (tl all_tickers) /\
        kept w min_price max_price m ticker expiration row) /\
   shows (fun r => Bid (option_data r)) rows
     (run_all w all_tickers expiration min_price max_price m) /\
   (rows = [] ->
    run_all w all_tickers expiration min_price max_price m
    = Warning "No results found for given filters.")) /\
  (forall weekly_dates,
     get_weekly_fridays (today w) 4 = Ok weekly_dates ->
     let rows :=
       flat_map (fun exp =>
                   screen_pair w min_price max_price m selected_stock exp)
                weekly_dates in
     length weekly_dates = 4%nat /\
     (forall row,
        In row rows <->
        exists exp,
          In exp weekly_dates /\
          kept w min_price max_price m selected_stock exp row) /\
     exists out,
       run_selected w selected_stock min_price max_price m = Ok out /\
       shows (fun r => Abs_ROI (option_data r)) rows out /\
       (rows = [] -> out = Warning "No results found for selected stock.")).
Proof.
  split.
  - cbv zeta.
    assert (E : collect w min_price max_price m
                  (map (fun ticker => (ticker, expiration)) (tl all_tickers))
                = flat_map (fun ticker =>
                     screen_pair w min_price max_price m ticker expiration)
                    (tl all_tickers)).
    { unfold collect. rewrite flat_map_concat_map, map_map.
      rewrite <- flat_map_concat_map. reflexivity. }
    split; [|split].
    + intros row. rewrite in_flat_map. split.
      * intros (ticker & Hin & H). exists ticker. split; [exact Hin|].
        apply in_screen_pair. exact H.
      * intros (ticker & Hin & H). exists ticker. split; [exact Hin|].
        apply in_screen_pair. exact H.
    + unfold run_all. rewrite E. apply shows_sorted.
    + intros H. unfold run_all. rewrite E, H. reflexivity.
  - intros weekly_dates Hw. cbv zeta.
    assert (E : collect w min_price max_price m
                  (map (fun exp => (selected_stock, exp)) weekly_dates)
                = flat_map (fun exp =>
                     screen_pair w min_price max_price m selected_stock exp)
                    weekly_dates).
    { unfold collect. rewrite flat_map_concat_map, map_map.
      rewrite <- flat_map_concat_map. reflexivity. }
    split; [|split].
    + apply mapM_length in Hw. rewrite Hw. reflexivity.
    + intros row. rewrite in_flat_map. split.
      * intros (exp & Hin & H). exists exp. split; [exact Hin|].
        apply in_screen_pair. exact H.
      * intros (exp & Hin & H). exists exp. split; [exact Hin|].
        apply in_screen_pair. exact H.
    + unfold run_selected. rewrite Hw. cbn [bind]. rewrite E.
      destruct (flat_map _ weekly_dates) as [|r rows] eqn:F.
      * eexists. split; [reflexivity|]. split; [reflexivity|]. reflexivity.
      * eexists. split; [reflexivity|]. split; [|discriminate].
        cbn [shows]. split; [discriminate|].
        split; [apply sort_values_desc_perm | apply sort_values_desc_sorted].
Qed.

(** The theorem on the example world, from a Wednesday. *)
Lemma screening_modes_spec_witness :
  (let rows :=
     flat_map (fun ticker =>
                 screen_pair
                   (example_world wednesday_10am 200 example_chain ∅)
                   50 1000 5 ticker "2026-11-13")
              (tl ["ALL"; "AAPL"; "MSFT"]%string) in
   (forall row,
      In row rows <->
      exists ticker,
        In ticker (tl ["ALL"; "AAPL"; "MSFT"]%string) /\
        kept (example_world wednesday_10am 200 example_chain ∅)
          50 1000 5 ticker "2026-11-13" row) /\
   shows (fun r => Bid (option_data r)) rows
     (run_all (example_world wednesday_10am 200 example_chain ∅)
        ["ALL"; "AAPL"; "MSFT"]%string "2026-11-13" 50 1000 5) /\
   (rows = [] ->
    run_all (example_world wednesday_10am 200 example_chain ∅)
      ["ALL"; "AAPL"; "MSFT"]%string "2026-11-13" 50 1000 5
    = Warning "No results found for given filters.")) /\
  (let weekly_dates :=
     ["2026-11-06"; "2026-11-13"; "2026-11-20"; "2026-11-27"]%string in
   let rows :=
     flat_map (fun exp =>
                 screen_pair
                   (example_world wednesday_10am 200 example_chain ∅)
                   50 1000 5 "AAPL" exp)
              weekly_dates in
   length weekly_dates = 4%nat /\
   (forall row,
      In row rows <->
      exists exp,
        In exp weekly_dates /\
        kept (example_world wednesday_10am 200 example_chain ∅)
          50 1000 5 "AAPL" exp row) /\
   exists out,
     run_selected (example_world wednesday_10am 200 example_chain ∅)
       "AAPL" 50 1000 5 = Ok out /\
     shows (fun r => Abs_ROI (option_data r)) rows out /\
     (rows = [] -> out = Warning "No results found for selected stock.")).
Proof.
  destruct (screening_modes_spec
              (example_world wednesday_10am 200 example_chain ∅)
              ["ALL"; "AAPL"; "MSFT"]%string "2026-11-13" "AAPL" 50 1000 5)
    as [H1 H2].
  split; [exact H1|]. apply H2. vm_compute. reflexivity.
Defined.

(** The ALL mode over two tickers whose best bids differ, and the
    single-ticker mode from a Wednesday. *)
Example run_all_sorted_by_bid :
  let w :=
    {| today := wednesday_10am;
       history_close := fun _ => Ok [200%float];
       options := fun _ => Ok ["2026-11-13"%string];
       option_chain_puts := fun ticker _ =>
         if String.eqb ticker "MSFT"
         then Ok [mkPutQuote 185 4 4.5 10 0.25]
         else Ok example_chain;
       info := fun _ => Ok ∅;
       calendar := fun _ => Ok [];
       quarterly_earnings := fun _ => NoAttr;
       to_datetime := parse_iso_date |} in
  match run_all w ["ALL"; "AAPL"; "MSFT"]%string "2026-11-13" 50 1000 5 with
  | Success _ df _ =>
      map (fun r => (Ticker (option_data r), Bid (option_data r))) df
      = [("MSFT"%string, 4%float); ("AAPL"%string, 2%float)]
  | Warning _ => False
  end.
Proof. vm_compute. reflexivity. Qed.

Example run_selected_out_of_range :
  run_selected (example_world wednesday_10am 200 example_chain ∅) "AAPL"
    500 1000 5
  = Ok (Warning "No results found for selected stock.").
Proof. vm_compute. reflexivity. Qed.

End OrchestrationClaims.

(** * Further properties of the code *)

(** ** The ticker universe *)

Section TickerUniverse.
Import StrftimeOrder.

Lemma ascii_compare_refl (c : ascii) : Ascii.compare c c = Eq.
Proof. unfold Ascii.compare. apply N.compare_refl. Qed.

Lemma ascii_compare_lt_trans (a b c : ascii) :
  Ascii.compare a b = Lt -> Ascii.compare b c = Lt -> Ascii.compare a c = Lt.
Proof.
  unfold Ascii.compare. rewrite !N.compare_lt_iff. apply N.lt_trans.
Qed.

Lemma string_lt_irrefl (s : string) : ~ string_lt s s.
Proof.
  unfold string_lt. induction s as [|c s IH]; cbn [String.compare];
    [discriminate|]. rewrite ascii_compare_refl. exact IH.
Qed.

Lemma string_lt_trans (x y z : string) :
  string_lt x y -> string_lt y z -> string_lt x z.
Proof.
  unfold string_lt. revert y z.
  induction x as [|a x IH]; intros [|b y] [|c z]; cbn [String.compare];
    try discriminate; try reflexivity.
  destruct (Ascii.compare a b) eqn:Eab; try discriminate;
    destruct (Ascii.compare b c) eqn:Ebc; try discriminate; intros Hxy Hyz.
  - apply Ascii.compare_eq_iff in Eab, Ebc. subst.
    rewrite ascii_compare_refl. eapply IH; eassumption.
  - apply Ascii.compare_eq_iff in Eab. subst. rewrite Ebc. reflexivity.
  - apply Ascii.compare_eq_iff in Ebc. subst. rewrite Eab. reflexivity.
  - rewrite (ascii_compare_lt_trans a b c Eab Ebc). reflexivity.
Qed.

Lemma string_compare_gt (x y : string) :
  String.compare x y = Gt -> string_lt y x.
Proof.
  intros H. unfold string_lt. rewrite String.compare_antisym, H. reflexivity.
Qed.

Lemma in_insert_sorted (x t : string) (l : list string) :
  In t (insert_sorted x l) <-> t = x \/ In t l.
Proof.
  induction l as [|y l IH]; cbn [insert_sorted In]; [intuition congruence|].
  destruct (String.compare x y) eqn:E; cbn [In].
  - apply String.compare_eq_iff in E. subst. intuition congruence.
  - intuition congruence.
  - rewrite IH. intuition congruence.
Qed.

Lemma insert_sorted_sorted (x : string) (l : list string) :
  StronglySorted string_lt l -> StronglySorted string_lt (insert_sorted x l).
Proof.
  induction 1 as [|y l Hs IH Hf]; cbn [insert_sorted].
  - constructor; constructor.
  - destruct (String.compare x y) eqn:E.
    + constructor; assumption.
    + constructor; [constructor; assumption|].
      constructor; [exact E|].
      eapply List.Forall_impl; [|exact Hf]. intros z Hz.
      apply string_lt_trans with y; assumption.
    + constructor; [exact IH|].
      apply List.Forall_forall. intros z Hz. apply in_insert_sorted in Hz.
      destruct Hz as [-> | Hz]; [apply string_compare_gt; exact E|].
      rewrite List.Forall_forall in Hf. apply Hf. exact Hz.
Qed.

Lemma in_sorted_set (t : string) (l : list string) :
  In t (sorted_set l) <-> In t l.
Proof.
  induction l as [|x l IH]; cbn [sorted_set fold_right In]; [reflexivity|].
  rewrite in_insert_sorted. fold (sorted_set l). rewrite IH.
  intuition congruence.
Qed.

Lemma sorted_set_sorted (l : list string) :
  StronglySorted string_lt (sorted_set l).
Proof.
  induction l as [|x l IH]; cbn [sorted_set fold_right]; [constructor|].
  apply insert_sorted_sorted. exact IH.
Qed.

Lemma sorted_nodup (l : list string) :
  StronglySorted string_lt l -> List.NoDup l.
Proof.
  induction 1 as [|y l Hs IH Hf]; constructor; [|exact IH].
  intros Hin. rewrite List.Forall_forall in Hf.
  apply (string_lt_irrefl y). apply Hf. exact Hin.
Qed.

(** Upper-casing and trimming. *)
Lemma upper_idem (c : ascii) : upper (upper c) = upper c.
Proof. destruct c as [[] [] [] [] [] [] [] []]; reflexivity. Qed.

Lemma is_space_upper (c : ascii) : is_space (upper c) = is_space c.
Proof. destruct c as [[] [] [] [] [] [] [] []]; reflexivity. Qed.

Lemma upper_comma (c : ascii) : upper c = ","%char -> c = ","%char.
Proof.
  destruct c as [[] [] [] [] [] [] [] []]; cbn; intros H;
    try reflexivity; discriminate H.
Qed.

Lemma rstrip_cons (c : ascii) (s : string) :
  rstrip (String c s)
  = match rstrip s with
    | EmptyString => if is_space c then EmptyString else String c EmptyString
    | r => String c r
    end.
Proof. reflexivity. Qed.

Lemma upper_string_idem (s : string) :
  upper_string (upper_string s) = upper_string s.
Proof.
  unfold upper_string. induction s as [|c s IH]; cbn [map_string];
    [reflexivity|]. rewrite upper_idem, IH. reflexivity.
Qed.

Lemma lstrip_upper (s : string) :
  lstrip (upper_string s) = upper_string (lstrip s).
Proof.
  unfold upper_string. induction s as [|c s IH]; cbn [map_string lstrip];
    [reflexivity|]. rewrite is_space_upper. destruct (is_space c);
    [exact IH | reflexivity].
Qed.

Lemma rstrip_upper (s : string) :
  rstrip (upper_string s) = upper_string (rstrip s).
Proof.
  unfold upper_string. induction s as [|c s IH]; [reflexivity|].
  cbn [map_string]. rewrite !rstrip_cons, IH, is_space_upper.
  destruct (rstrip s) as [|d r]; cbn [map_string];
    [destruct (is_space c)|]; reflexivity.
Qed.

Lemma lstrip_idem (s : string) : lstrip (lstrip s) = lstrip s.
Proof.
  induction s as [|c s IH]; cbn [lstrip]; [reflexivity|].
  destruct (is_space c) eqn:E; [exact IH|]. cbn [lstrip]. rewrite E.
  reflexivity.
Qed.

Lemma rstrip_idem (s : string) : rstrip (rstrip s) = rstrip s.
Proof.
  induction s as [|c s IH]; [reflexivity|]. rewrite rstrip_cons.
  destruct (rstrip s) as [|d r] eqn:E.
  - destruct (is_space c) eqn:Ec; [reflexivity|].
    rewrite rstrip_cons. cbn [rstrip]. rewrite Ec. reflexivity.
  - rewrite rstrip_cons, IH. reflexivity.
Qed.

Lemma rstrip_lstrip_fixed (r : string) :
  rstrip r = r -> rstrip (lstrip r) = lstrip r.
Proof.
  induction r as [|c r IH]; cbn [lstrip]; [reflexivity|]. intros H.
  destruct (is_space c) eqn:Ec; [|exact H]. apply IH.
  rewrite rstrip_cons in H. destruct (rstrip r) as [|d r0] eqn:Er.
  - rewrite Ec in H. discriminate H.
  - injection H as H. exact H.
Qed.

Lemma strip_fixed (s : string) :
  lstrip (strip s) = strip s /\ rstrip (strip s) = strip s.
Proof.
  unfold strip. split; [apply lstrip_idem|].
  apply rstrip_lstrip_fixed. apply rstrip_idem.
Qed.

Lemma strip_idem (s : string) : strip (strip s) = strip s.
Proof.
  destruct (strip_fixed s) as [H1 H2]. unfold strip at 1. rewrite H2.
  exact H1.
Qed.

Lemma strip_upper (s : string) :
  strip (upper_string s) = upper_string (strip s).
Proof. unfold strip. rewrite rstrip_upper, lstrip_upper. reflexivity. Qed.

Lemma split_on_no_sep (sep : ascii) (s piece : string) :
  In piece (split_on sep s) -> ~ occurs sep piece.
Proof.
  revert piece. induction s as [|c s IH]; intros piece; cbn [split_on].
  - intros [<- | []]. cbn. tauto.
  - destruct (Ascii.eqb_spec c sep) as [->|Hc].
    + intros [<- | Hin]; [cbn; tauto | apply IH; exact Hin].
    + destruct (split_on sep s) as [|p ps] eqn:E.
      * intros [<- | []]. cbn. tauto.
      * intros [<- | Hin].
        -- cbn [occurs]. intros [H | H]; [contradiction|].
           apply (IH p); [left; reflexivity | exact H].
        -- apply IH. right. exact Hin.
Qed.

Lemma occurs_lstrip (c : ascii) (s : string) :
  occurs c (lstrip s) -> occurs c s.
Proof.
  induction s as [|d s IH]; cbn [lstrip]; [tauto|].
  destruct (is_space d); [|tauto]. intros H. right. apply IH. exact H.
Qed.

Lemma occurs_rstrip (c : ascii) (s : string) :
  occurs c (rstrip s) -> occurs c s.
Proof.
  induction s as [|d s IH]; [cbn; tauto|]. rewrite rstrip_cons.
  destruct (rstrip s) as [|d' r].
  - destruct (is_space d); cbn [occurs]; tauto.
  - cbn [occurs] in *. tauto.
Qed.

Lemma occurs_comma_upper (s : string) :
  occurs "," (upper_string s) -> occurs "," s.
Proof.
  unfold upper_string. induction s as [|d s IH]; cbn [map_string occurs];
    [tauto|]. intros [H | H]; [left; apply upper_comma; exact H|].
  right. apply IH. exact H.
Qed.

Lemma upper_string_nonempty (s : string) :
  upper_string s = EmptyString -> s = EmptyString.
Proof. destruct s; [reflexivity | discriminate]. Qed.

Lemma in_custom_tickers (u t : string) :
  In t (custom_tickers u) <->
  exists piece,
    In piece (split_on "," u) /\ strip piece <> EmptyString /\
    t = upper_string (strip piece).
Proof.
  unfold custom_tickers. rewrite in_map_iff. split.
  - intros (piece & <- & Hin). apply filter_In in Hin.
    destruct Hin as [Hin Hne]. exists piece. split; [exact Hin|].
    split; [|reflexivity]. apply negb_true_iff in Hne.
    apply String.eqb_neq. exact Hne.
  - intros (piece & Hin & Hne & ->). exists piece. split; [reflexivity|].
    apply filter_In. split; [exact Hin|]. apply negb_true_iff.
    apply String.eqb_neq. exact Hne.
Qed.

End TickerUniverse.

Section TickerUniverseSpec.
Import StrftimeOrder.

Lemma sorted_unique (l1 l2 : list string) :
  StronglySorted string_lt l1 -> StronglySorted string_lt l2 ->
  (forall t, In t l1 <-> In t l2) -> l1 = l2.
Proof.
  intros H1. revert l2. induction H1 as [|a l1 Hs1 IH Hf1]; intros l2 H2 Hin.
  - destruct l2 as [|b l2]; [reflexivity|].
    destruct (proj2 (Hin b) (or_introl eq_refl)).
  - destruct H2 as [|b l2 Hs2 Hf2].
    + destruct (proj1 (Hin a) (or_introl eq_refl)).
    + rewrite List.Forall_forall in Hf1, Hf2.
      assert (Hab : a = b).
      { destruct (proj1 (Hin a) (or_introl eq_refl)) as [E | Ha];
          [symmetry; exact E|].
        destruct (proj2 (Hin b) (or_introl eq_refl)) as [E | Hb];
          [exact E|].
        exfalso. apply (string_lt_irrefl a).
        apply string_lt_trans with b; [apply Hf1 | apply Hf2]; assumption. }
      subst b. f_equal. apply IH; [exact Hs2|]. intros t. split; intros Ht.
      * destruct (proj1 (Hin t) (or_intror Ht)) as [E | Ht2]; [|exact Ht2].
        subst t. exfalso. apply (string_lt_irrefl a). apply Hf1. exact Ht.
      * destruct (proj2 (Hin t) (or_intror Ht)) as [E | Ht1]; [|exact Ht1].
        subst t. exfalso. apply (string_lt_irrefl a). apply Hf2. exact Ht.
Qed.

Lemma sorted_set_ext (l1 l2 : list string) :
  (forall t, In t l1 <-> In t l2) -> sorted_set l1 = sorted_set l2.
Proof.
  intros H. apply sorted_unique; try apply sorted_set_sorted.
  intros t. rewrite !in_sorted_set. apply H.
Qed.

(** X1: the universe is ["ALL"] followed by the seven default tickers and
    the typed ones in strictly increasing order, each listed once; with
    nothing typed it is the seven defaults in alphabetical order. *)
Theorem all_tickers_spec (user_input : string) :
  exists rest,
    all_tickers user_input = "ALL"%string :: rest /\
    StronglySorted string_lt rest /\
    List.NoDup rest /\
    (forall t,
       In t rest <->
       In t DEFAULT_MAGNIFICENT_7 \/ In t (custom_tickers user_input)) /\
    (custom_tickers user_input = [] ->
     rest = ["AAPL"; "AMZN"; "GOOGL"; "META"; "MSFT"; "NVDA"; "TSLA"]%string).
Proof.
  exists (sorted_set (DEFAULT_MAGNIFICENT_7 ++ custom_tickers user_input)).
  split; [reflexivity|].
  split; [apply sorted_set_sorted|].
  split; [apply sorted_nodup; apply sorted_set_sorted|].
  split.
  - intros t. rewrite in_sorted_set, in_app_iff. reflexivity.
  - intros ->. vm_compute. reflexivity.
Qed.

(** X2: every typed ticker that enters the universe is a nonempty string
    without a comma, without a blank at either end and without a lower-case
    letter. *)
Theorem custom_tickers_normalised (user_input t : string) :
  In t (custom_tickers user_input) ->
  t <> EmptyString /\
  ~ occurs "," t /\
  strip t = t /\
  upper_string t = t.
Proof.
  intros H. apply in_custom_tickers in H.
  destruct H as (piece & Hin & Hne & ->).
  split; [intros E; apply Hne; apply upper_string_nonempty; exact E|].
  split.
  - intros Hc. apply occurs_comma_upper in Hc. unfold strip in Hc.
    apply occurs_lstrip, occurs_rstrip in Hc.
    exact (split_on_no_sep _ _ _ Hin Hc).
  - split; [rewrite strip_upper, strip_idem; reflexivity|].
    apply upper_string_idem.
Qed.

Lemma custom_tickers_normalised_witness :
  "BRK.B"%string <> EmptyString /\
  ~ occurs "," "BRK.B" /\
  strip "BRK.B" = "BRK.B"%string /\
  upper_string "BRK.B" = "BRK.B"%string.
Proof.
  apply (custom_tickers_normalised " amd , ,aapl,  brk.b" "BRK.B").
  vm_compute. auto.
Defined.

(** X3: the universe depends only on the set of typed tickers: their
    order, their repetition, their case and the blanks around them change
    nothing, and typing default tickers again adds nothing. *)
Theorem all_tickers_of_same_set (u1 u2 : string) :
  (forall t,
     In t (DEFAULT_MAGNIFICENT_7 ++ custom_tickers u1) <->
     In t (DEFAULT_MAGNIFICENT_7 ++ custom_tickers u2)) ->
  all_tickers u1 = all_tickers u2.
Proof.
  intros H. unfold all_tickers. f_equal. apply sorted_set_ext. exact H.
Qed.

Lemma all_tickers_of_same_set_witness :
  all_tickers "amd, intc" = all_tickers " INTC ,AMD,,amd, aapl".
Proof.
  apply (all_tickers_of_same_set "amd, intc" " INTC ,AMD,,amd, aapl").
  intros t. vm_compute. tauto.
Defined.

End TickerUniverseSpec.

(** ** The ticker box, one piece at a time *)

Section TickerBox.

Lemma split_on_nonempty (sep : ascii) (s : string) : split_on sep s <> [].
Proof.
  induction s as [|c s IH]; cbn [split_on]; [discriminate|].
  destruct (Ascii.eqb c sep); [discriminate|].
  destruct (split_on sep s); discriminate.
Qed.

Lemma split_on_app (sep : ascii) (a b : string) :
  split_on sep (a ++ String sep b)
  = (split_on sep a ++ split_on sep b)%list.
Proof.
  induction a as [|c a IH].
  - change (EmptyString ++ String sep b)%string with (String sep b).
    cbn [split_on app]. rewrite Ascii.eqb_refl. reflexivity.
  - change (String c a ++ String sep b)%string
      with (String c (a ++ String sep b)).
    cbn [split_on]. destruct (Ascii.eqb c sep).
    + rewrite IH. reflexivity.
    + rewrite IH. pose proof (split_on_nonempty sep a) as Hn.
      destruct (split_on sep a) as [|piece pieces];
        [contradiction Hn; reflexivity | reflexivity].
Qed.

(** X4: the custom tickers of two inputs joined by a comma are those of
    the first followed by those of the second: each piece between commas
    is read on its own. *)
Theorem custom_tickers_app (a b : string) :
  custom_tickers (a ++ String "," b)
  = (custom_tickers a ++ custom_tickers b)%list.
Proof.
  unfold custom_tickers. rewrite split_on_app, List.filter_app, map_app.
  reflexivity.
Qed.

End TickerBox.

(** ** More on the Expiration Enumerator *)

Section EnumeratorMore.
Import Calendar CalendarFacts CalendarOrder StrftimeOrder.

Lemma mapM_app {A B : Type} (f : A -> result B) (l1 l2 : list A)
  (r : list B) :
  mapM f (l1 ++ l2) = Ok r ->
  exists r1 r2,
    mapM f l1 = Ok r1 /\ mapM f l2 = Ok r2 /\ r = (r1 ++ r2)%list /\
    length r1 = length l1.
Proof.
  revert r. induction l1 as [|a l1 IH]; intros r H; cbn [app mapM] in *.
  - exists [], r. auto.
  - apply bind_ok in H. destruct H as (b & Hb & H).
    apply bind_ok in H. destruct H as (bs & Hbs & H). injection H as <-.
    destruct (IH bs Hbs) as (r1 & r2 & H1 & H2 & -> & Hl).
    exists (b :: r1), r2. rewrite Hb, H1. cbn. auto.
Qed.

Lemma mapM_nth {A B : Type} (f : A -> result B) (l : list A) (r : list B)
  (k : nat) (a : A) :
  mapM f l = Ok r -> nth_error l k = Some a ->
  exists b, f a = Ok b /\ nth_error r k = Some b.
Proof.
  revert r k. induction l as [|x l IH]; intros r k H Hk.
  - destruct k; discriminate Hk.
  - cbn [mapM] in H. apply bind_ok in H. destruct H as (b & Hb & H).
    apply bind_ok in H. destruct H as (bs & Hbs & H). injection H as <-.
    destruct k as [|k]; cbn in Hk |- *.
    + injection Hk as <-. exists b. auto.
    + apply (IH bs k Hbs Hk).
Qed.

Lemma nth_py_range (n i : Z) :
  0 <= i < n -> nth_error (py_range n) (Z.to_nat i) = Some i.
Proof.
  intros H. unfold py_range.
  rewrite nth_error_map, nth_error_seq.
  destruct (Nat.ltb_spec (Z.to_nat i) (Z.to_nat n)); [|lia].
  cbn. f_equal. lia.
Qed.

Lemma add_days_ok (d r : date) (k : Z) :
  add_days d k = Ok r ->
  r = fromordinal (toordinal d + k) /\ 1 <= toordinal d + k <= MAXORDINAL.
Proof.
  unfold add_days. destruct (Z.ltb_spec 0 (toordinal d + k));
    destruct (Z.leb_spec (toordinal d + k) MAXORDINAL); cbn [andb];
    try discriminate.
  intros E. injection E as <-. split; [reflexivity | lia].
Qed.

(** The [i]-th entry of a list that [get_weekly_fridays] returns. *)
Lemma weekly_entry (today : datetime) (n : Z) (l : list string) (i : Z) :
  get_weekly_fridays today n = Ok l ->
  0 <= i < n ->
  nth_error l (Z.to_nat i)
  = Some (strftime
            (fromordinal
               (toordinal (dt_date today) + friday_offset (dt_date today) i))) /\
  1 <= toordinal (dt_date today) + friday_offset (dt_date today) i
    <= MAXORDINAL.
Proof.
  intros H Hi. unfold get_weekly_fridays in H.
  destruct (mapM_nth _ _ _ _ _ H (nth_py_range n i Hi)) as (s & Hs & Hn).
  apply bind_ok in Hs. destruct Hs as (d & Hd & Hs). injection Hs as <-.
  apply add_days_ok in Hd. destruct Hd as [-> Ho].
  split; [exact Hn | exact Ho].
Qed.

(** X5: whenever [get_weekly_fridays] returns, its [i]-th entry (from 0)
    renders the day [(4 - weekday) % 7 + 7 * i] days after today, a Friday
    of the calendar: consecutive entries are exactly one week apart. *)
Theorem get_weekly_fridays_nth (today : datetime) (n : Z) (l : list string)
  (i : Z) :
  get_weekly_fridays today n = Ok l ->
  0 <= i < n ->
  exists d,
    nth_error l (Z.to_nat i) = Some (strftime d) /\
    valid_date d /\
    weekday d = 4 /\
    toordinal d
    = toordinal (dt_date today) + (4 - weekday (dt_date today)) mod 7 + 7 * i.
Proof.
  intros H Hi. destruct (weekly_entry today n l i H Hi) as [Hn Ho].
  exists (fromordinal
            (toordinal (dt_date today) + friday_offset (dt_date today) i)).
  split; [exact Hn|]. rewrite friday_offset_eq in *.
  split; [apply fromordinal_valid; exact Ho|].
  split.
  - rewrite weekday_fromordinal by lia. unfold weekday.
    Z.div_mod_to_equations; lia.
  - rewrite toordinal_fromordinal by lia. lia.
Qed.

Lemma get_weekly_fridays_nth_witness :
  exists d,
    nth_error ["2026-11-06"; "2026-11-13"; "2026-11-20"; "2026-11-27"]%string
      (Z.to_nat 2) = Some (strftime d) /\
    valid_date d /\
    weekday d = 4 /\
    toordinal d
    = toordinal (dt_date wednesday_10am)
      + (4 - weekday (dt_date wednesday_10am)) mod 7 + 7 * 2.
Proof.
  apply (get_weekly_fridays_nth wednesday_10am 4).
  - vm_compute. reflexivity.
  - lia.
Defined.

Lemma py_range_app (n n' : Z) :
  n <= n' -> exists rest, py_range n' = (py_range n ++ rest)%list.
Proof.
  intros H. unfold py_range.
  replace (Z.to_nat n') with (Z.to_nat n + (Z.to_nat n' - Z.to_nat n))%nat
    by lia.
  rewrite seq_app, map_app. eexists. reflexivity.
Qed.

Lemma weekly_dates_firstn (today : datetime) (n n' : Z) (l' : list string) :
  get_weekly_fridays today n' = Ok l' ->
  n <= n' ->
  get_weekly_fridays today n = Ok (firstn (Z.to_nat n) l').
Proof.
  intros H Hn. unfold get_weekly_fridays in *.
  destruct (py_range_app n n' Hn) as (rest & E). rewrite E in H.
  apply mapM_app in H. destruct H as (r1 & r2 & H1 & _ & -> & Hl).
  rewrite H1. f_equal.
  assert (Hlen : length r1 = Z.to_nat n).
  { rewrite Hl. unfold py_range. rewrite length_map, length_seq. reflexivity. }
  rewrite <- Hlen, firstn_app, Nat.sub_diag, firstn_all. cbn [firstn].
  rewrite app_nil_r. reflexivity.
Qed.

(** X6: a shorter list of expirations is the beginning of a longer one
    computed the same day: the 4 expirations of the single-ticker mode are
    the first 4 of the 10 that the ALL mode offers, and a longer list
    returns only if the shorter one does. *)
Theorem get_weekly_fridays_prefix (today : datetime) (n n' : Z)
  (l' : list string) :
  get_weekly_fridays today n' = Ok l' ->
  n <= n' ->
  get_weekly_fridays today n = Ok (firstn (Z.to_nat n) l') /\
  (0 <= n -> length (firstn (Z.to_nat n) l') = Z.to_nat n).
Proof.
  intros H Hn. split; [exact (weekly_dates_firstn today n n' l' H Hn)|].
  intros H0. pose proof (mapM_length _ _ _ H) as Hlen.
  unfold py_range in Hlen. rewrite length_map, length_seq in Hlen.
  rewrite length_firstn. lia.
Qed.

Lemma get_weekly_fridays_prefix_witness :
  get_weekly_fridays wednesday_10am 4
  = Ok (firstn (Z.to_nat 4)
          ["2026-11-06"; "2026-11-13"; "2026-11-20"; "2026-11-27";
           "2026-12-04"; "2026-12-11"; "2026-12-18"; "2026-12-25";
           "2027-01-01"; "2027-01-08"]%string) /\
  (0 <= 4 ->
   length
     (firstn (Z.to_nat 4)
        ["2026-11-06"; "2026-11-13"; "2026-11-20"; "2026-11-27";
         "2026-12-04"; "2026-12-11"; "2026-12-18"; "2026-12-25";
         "2027-01-01"; "2027-01-08"]%string) = Z.to_nat 4).
Proof.
  apply (get_weekly_fridays_prefix wednesday_10am 4 10).
  - vm_compute. reflexivity.
  - lia.
Defined.

Lemma strftime_inj (d e : date) :
  valid_date d -> valid_date e -> strftime d = strftime e -> d = e.
Proof.
  intros Hd He E. pose proof (parse_iso_date_strftime d Hd) as P.
  rewrite E, (parse_iso_date_strftime e He) in P. congruence.
Qed.

(** X7: the days to expiration that the screener computes for the [i]-th
    weekly date, called the day the list was made, at any time after
    midnight: one less than the offset, [(4 - weekday) % 7 + 7 * i - 1].
    It is zero or negative only for the first date, on a Thursday (0) and
    on a Friday (-1). *)
Theorem days_to_weekly_expiration (w : World) (n i : Z) (l : list string)
  (x : string) (e : date) :
  get_weekly_fridays (today w) n = Ok l ->
  0 <= i < n ->
  nth_error l (Z.to_nat i) = Some x ->
  valid_date e -> strftime e = x ->
  0 < dt_micros (today w) < MICROS_PER_DAY ->
  days_between e (today w)
  = (4 - weekday (dt_date (today w))) mod 7 + 7 * i - 1 /\
  (days_between e (today w) <= 0 <->
   i = 0 /\ 3 <= weekday (dt_date (today w)) <= 4).
Proof.
  intros H Hi Hx Hv He Hm.
  destruct (weekly_entry (today w) n l i H Hi) as [Hn Ho].
  rewrite Hx in Hn. injection Hn as Hn. subst x.
  assert (E : e = fromordinal
                     (toordinal (dt_date (today w))
                      + friday_offset (dt_date (today w)) i)).
  { apply strftime_inj; [exact Hv | | exact Hn].
    apply fromordinal_valid. exact Ho. }
  rewrite days_between_after_midnight by exact Hm.
  rewrite E.
  rewrite toordinal_fromordinal by lia. rewrite friday_offset_eq.
  unfold weekday. split; [lia|].
  split; intros; Z.div_mod_to_equations; lia.
Qed.

Lemma days_to_weekly_expiration_witness :
  days_between (mkdate 2026 11 6) (today (example_world thursday_10am 200 example_chain ∅))
  = (4 - weekday (dt_date (today (example_world thursday_10am 200 example_chain ∅)))) mod 7
    + 7 * 0 - 1 /\
  (days_between (mkdate 2026 11 6) (today (example_world thursday_10am 200 example_chain ∅)) <= 0 <->
   0 = 0 /\ 3 <= weekday (dt_date (today (example_world thursday_10am 200 example_chain ∅))) <= 4).
Proof.
  apply (days_to_weekly_expiration
           (example_world thursday_10am 200 example_chain ∅) 4 0
           ["2026-11-06"; "2026-11-13"; "2026-11-20"; "2026-11-27"]%string
           "2026-11-06" (mkdate 2026 11 6)).
  - vm_compute. reflexivity.
  - lia.
  - reflexivity.
  - vm_compute. repeat split; discriminate.
  - vm_compute. reflexivity.
  - vm_compute. split; reflexivity.
Defined.

End EnumeratorMore.

(** ** More on the Put Screener *)

Section ScreenerMore.
Import Float64 FloatFacts FloatTransitivity FloatSigns.

Lemma leb_antisym_eqb (x y : float) :
  (x <=? y)%float = true -> (y <=? x)%float = true -> (x =? y)%float = true.
Proof.
  intros Hxy Hyx. destruct (leb_not_nan _ _ Hxy) as [Nx Ny].
  rewrite leb_lex in Hxy, Hyx by assumption. rewrite eqb_lex by assumption.
  rewrite (lex_antisym (rank (Prim2SF x)) (rank (Prim2SF y))) in Hyx.
  destruct (lex _ _); try discriminate; reflexivity.
Qed.

(** The screener's choice is unique. *)
Lemma selected_unique (chain : list PutQuote) (ms : float) (l1 l2 : nat)
  (b1 b2 : PutQuote) :
  selected chain ms l1 b1 -> selected chain ms l2 b2 -> l1 = l2 /\ b1 = b2.
Proof.
  intros (N1 & Q1 & M1) (N2 & Q2 & M2).
  destruct (M1 l2 b2 N2 Q2) as [L21 T21].
  destruct (M2 l1 b1 N1 Q1) as [L12 T12].
  assert (E : l1 = l2).
  { pose proof (T21 (leb_antisym_eqb _ _ L21 L12)).
    pose proof (T12 (leb_antisym_eqb _ _ L12 L21)). lia. }
  subst l2. split; [reflexivity|]. congruence.
Qed.

Lemma idxmax_ok_not_nan (col : list (nat * float)) (label : nat) :
  idxmax col = Ok label ->
  exists c, In c col /\ is_nan (snd c) = false.
Proof.
  unfold idxmax. destruct (forallb _ col) eqn:E; [discriminate|]. intros _.
  induction col as [|c col IH]; [discriminate E|]. cbn [forallb] in E.
  destruct (is_nan (snd c)) eqn:Ec.
  - cbn [andb] in E. destruct (IH E) as (c' & Hin & Hc').
    exists c'. split; [right; exact Hin | exact Hc'].
  - exists c. split; [left; reflexivity | exact Ec].
Qed.

Lemma fetched_unique (w : World) (t x : string) (p1 p2 : float)
  (c1 c2 : list PutQuote) :
  fetched w t x p1 c1 -> fetched w t x p2 c2 -> p1 = p2 /\ c1 = c2.
Proof.
  intros (cl1 & e1 & A1 & B1 & C1 & D1 & E1) (cl2 & e2 & A2 & B2 & C2 & D2 & E2).
  split; congruence.
Qed.

(** X8: the screener returns a record exactly when the price lookup, the
    expiration check and the chain fetch succeed, the expiration parses, a
    put under the strike ceiling has a bid that is not NaN, and the open
    interest of the put it selects converts to an integer; in every other
    case it returns [None]. *)
Theorem get_put_option_data_some_iff (w : World) (t x : string) (m : Z) :
  (exists r, get_put_option_data w t x m = Some r) <->
  exists price chain e label best oi,
    fetched w t x price chain /\
    to_datetime w x = Ok e /\
    (exists j q, nth_error chain j = Some q /\
                 (strike q <=? max_strike_of price m)%float = true /\
                 is_nan (bid q) = false) /\
    selected chain (max_strike_of price m) label best /\
    int_of_float (openInterest best) = Ok oi.
Proof.
  split.
  - intros (r & H). unfold get_put_option_data in H.
    destruct (get_put_option_data_try w t x m) as [o|] eqn:E; [|discriminate].
    subst o. unfold get_put_option_data_try in E.
    destruct (history_close w t) as [closes|] eqn:H1; [|discriminate].
    cbn [bind] in E.
    destruct (iloc_last closes) as [price|] eqn:H2; [|discriminate].
    cbn [bind] in E.
    destruct (options w t) as [expirations|] eqn:H3; [|discriminate].
    cbn [bind] in E.
    destruct (existsb (String.eqb x) expirations) eqn:H4; [|discriminate].
    cbn [negb] in E.
    destruct (option_chain_puts w t x) as [chain|] eqn:H5; [|discriminate].
    cbn [bind] in E. fold (qualifying chain (max_strike_of price m)) in E.
    destruct (qualifying chain (max_strike_of price m)) as [|r0 l] eqn:Q;
      [discriminate|]. rewrite <- Q in E.
    destruct (idxmax _) as [label|] eqn:H6; [|discriminate]. cbn [bind] in E.
    destruct (loc _ label) as [best|] eqn:H7; [|discriminate].
    cbn [bind] in E.
    destruct (to_datetime w x) as [e|] eqn:H8; [|discriminate].
    cbn [bind] in E.
    destruct (int_of_float (openInterest best)) as [oi|] eqn:H9;
      [|discriminate].
    exists price, chain, e, label, best, oi.
    split; [exists closes, expirations; repeat split; assumption|].
    split; [reflexivity|]. split.
    + destruct (idxmax_ok_not_nan _ _ H6) as (c & Hin & Hc).
      apply in_map_iff in Hin. destruct Hin as ([j q] & <- & Hin).
      apply in_qualifying in Hin. destruct Hin as [Hj Hq].
      exists j, q. auto.
    + split; [apply best_put_selected; assumption | exact H9].
  - intros (price & chain & e & label & best & oi & Hf & He & Hq & Hs & Ho).
    destruct (best_put_exists chain _ Hq) as (label' & best' & Hi & Hl).
    pose proof (best_put_selected _ _ _ _ Hi Hl) as Hs'.
    destruct (selected_unique _ _ _ _ _ _ Hs Hs') as [<- <-].
    exists (screen_record t x price best (days_between e (today w)) oi).
    unfold get_put_option_data.
    rewrite (get_put_option_data_try_fetched w t x m price chain Hf).
    destruct (qualifying chain (max_strike_of price m)) as [|r0 l] eqn:Q.
    + cbn in Hl. discriminate.
    + rewrite Hi. cbn [bind]. rewrite Hl. cbn [bind]. rewrite He.
      cbn [bind]. rewrite Ho. reflexivity.
Qed.

End ScreenerMore.

Section ScreenerSigns.
Import Float64 FloatFacts FloatSigns.

Lemma float_of_int_nonneg_sign (z : Z) :
  0 <= z -> sf_sign false (Prim2SF (float_of_int z)).
Proof.
  destruct z as [|p|p]; try lia; intros _; unfold float_of_int.
  - reflexivity.
  - apply SF2Prim_sign. cbn [binary_normalize]. apply binary_round_sign.
Qed.

Lemma not_negative_side (x : float) :
  (x <? 0)%float = false -> sf_side false (Prim2SF x).
Proof.
  rewrite FloatAxioms.ltb_spec. change (Prim2SF 0) with (S754_zero false).
  destruct (Prim2SF x) as [a|a| |a m e]; cbn; try destruct a;
    try discriminate; auto.
Qed.

Lemma side_false_not_negative (x : float) :
  sf_side false (Prim2SF x) -> (x <? 0)%float = false.
Proof.
  rewrite FloatAxioms.ltb_spec. change (Prim2SF 0) with (S754_zero false).
  destruct (Prim2SF x); cbn; intros H; subst; reflexivity.
Qed.

Lemma times_side (s : bool) (x c : float) :
  sf_side s (Prim2SF x) -> sf_sign false (Prim2SF c) ->
  sf_side s (Prim2SF (x * c)).
Proof.
  intros Hx Hc. rewrite mul_spec. rewrite <- (xorb_false_r s).
  apply SFmul_side; assumption.
Qed.

Lemma over_side (s : bool) (x c : float) :
  sf_side s (Prim2SF x) -> sf_sign false (Prim2SF c) ->
  sf_side s (Prim2SF (x / c)).
Proof.
  intros Hx Hc. rewrite div_spec. rewrite <- (xorb_false_r s).
  apply SFdiv_side; assumption.
Qed.

(** X9: when no put of the chain has a negative bid and every strike is
    above zero, no amount of a returned record is negative: Bid, Strike,
    Premium, Cash Required and Absolute ROI are zero, positive or NaN, and
    so is the Annualized ROI as long as the days to expiration are not
    negative. *)
Theorem record_amounts_not_negative (w : World) (t x : string) (m : Z)
  (r : ScreenResult) (price : float) (chain : list PutQuote) (e : date) :
  get_put_option_data w t x m = Some r ->
  fetched w t x price chain ->
  to_datetime w x = Ok e ->
  (forall j q, nth_error chain j = Some q ->
               (bid q <? 0)%float = false /\ (0 <? strike q)%float = true) ->
  (Bid r <? 0)%float = false /\
  (Strike r <? 0)%float = false /\
  (Premium r <? 0)%float = false /\
  (Cash_Required r <? 0)%float = false /\
  (Abs_ROI r <? 0)%float = false /\
  (0 <= days_between e (today w) ->
   (Annualized_ROI r <? 0)%float = false).
Proof.
  intros H Hf He Hq.
  destruct (get_put_option_data_inv w t x m r H)
    as (price' & chain' & label & best & e' & oi & Hf' & Hs & He' & _ & ->).
  destruct (fetched_unique _ _ _ _ _ _ _ Hf Hf') as [<- <-].
  rewrite He in He'. injection He' as <-.
  destruct Hs as (Hn & _ & _). destruct (Hq _ _ Hn) as [Hb Hk].
  apply not_negative_side in Hb. pose proof (ltb_zero_sign _ Hk) as Hk'.
  pose proof (sf_sign_side _ _ Hk') as Hk''.
  assert (H100 : sf_sign false (Prim2SF 100)) by (vm_compute; reflexivity).
  assert (H365 : sf_sign false (Prim2SF 365)) by (vm_compute; reflexivity).
  cbn [Bid Strike Premium Cash_Required Abs_ROI Annualized_ROI screen_record].
  repeat split; try intros Hd; apply side_false_not_negative;
    apply np_round2_side;
    repeat first [ assumption | apply times_side | apply over_side
                 | apply float_of_int_nonneg_sign ].
Qed.

Lemma record_amounts_not_negative_witness :
  (Bid example_record <? 0)%float = false /\
  (Strike example_record <? 0)%float = false /\
  (Premium example_record <? 0)%float = false /\
  (Cash_Required example_record <? 0)%float = false /\
  (Abs_ROI example_record <? 0)%float = false /\
  (0 <= days_between (mkdate 2026 11 13)
          (today (example_world wednesday_10am 200 example_chain ∅)) ->
   (Annualized_ROI example_record <? 0)%float = false).
Proof.
  apply (record_amounts_not_negative
           (example_world wednesday_10am 200 example_chain ∅)
           "AAPL" "2026-11-13" 5 example_record 200 example_chain
           (mkdate 2026 11 13)).
  - vm_compute. reflexivity.
  - exists [200%float],
      ["2026-11-06"; "2026-11-13"; "2026-11-20"; "2026-11-27"]%string.
    repeat split; reflexivity.
  - vm_compute. reflexivity.
  - intros j q Hj.
    do 2 (destruct j as [|j];
          [injection Hj as <-; vm_compute; split; reflexivity|]).
    destruct j; discriminate Hj.
Defined.

End ScreenerSigns.

(** ** What the selection depends on *)

Section SelectionMore.
Import Float64 FloatFacts FloatTransitivity.

Lemma ltb_irrefl (x : float) : (x <? x)%float = false.
Proof.
  destruct (x <? x)%float eqn:E; [|reflexivity].
  pose proof (ltb_not_eqb _ _ E) as H.
  destruct (ltb_not_nan _ _ E) as [N _].
  rewrite eqb_lex, lex_refl in H by assumption. discriminate.
Qed.

(** The first greatest entry of a list is at one position only. *)
Lemma first_max_unique {A : Type} (key : A -> float)
  (v1 v2 v1' v2' : list A) (a a' : A) :
  (v1 ++ a :: v2 = v1' ++ a' :: v2')%list ->
  List.Forall (fun x => (key x <? key a)%float = true) v1 ->
  List.Forall (fun x => (key x <=? key a)%float = true) v2 ->
  List.Forall (fun x => (key x <? key a')%float = true) v1' ->
  List.Forall (fun x => (key x <=? key a')%float = true) v2' ->
  a = a'.
Proof.
  intros E H1 H2 H1' H2'. rewrite List.Forall_forall in H1, H2, H1', H2'.
  apply app_eq_app in E. destruct E as (l & [[E1 E2] | [E1 E2]]).
  - destruct l as [|x l]; [cbn in E2; congruence|].
    cbn in E2. injection E2 as <- E2.
    assert (Ha' : (key a' <? key a)%float = true).
    { apply H1. rewrite E1. apply in_or_app. right. left. reflexivity. }
    assert (Ha : (key a <=? key a')%float = true).
    { apply H2'. rewrite E2. apply in_or_app. right. left. reflexivity. }
    pose proof (ltb_leb_trans _ _ _ Ha' Ha) as C.
    rewrite ltb_irrefl in C. discriminate.
  - destruct l as [|x l]; [cbn in E2; congruence|].
    cbn in E2. injection E2 as <- E2.
    assert (Ha : (key a <? key a')%float = true).
    { apply H1'. rewrite E1. apply in_or_app. right. left. reflexivity. }
    assert (Ha' : (key a' <=? key a)%float = true).
    { apply H2. rewrite E2. apply in_or_app. right. left. reflexivity. }
    pose proof (ltb_leb_trans _ _ _ Ha Ha') as C.
    rewrite ltb_irrefl in C. discriminate.
Qed.

Lemma idxmax_raises_on_values (p p' : list (nat * PutQuote)) :
  map snd p = map snd p' ->
  forallb (fun c : nat * float => is_nan (snd c))
    (map (fun r => (fst r, bid (snd r))) p)
  = forallb (fun c : nat * float => is_nan (snd c))
      (map (fun r => (fst r, bid (snd r))) p').
Proof.
  revert p'. induction p as [|r p IH]; intros [|r' p'] E; try discriminate;
    [reflexivity|].
  cbn [map] in E. injection E as Er E. cbn [map forallb fst snd].
  rewrite Er, (IH p' E). reflexivity.
Qed.

Lemma best_row_on_values (p p' : list (nat * PutQuote)) :
  StronglySorted label_lt p -> StronglySorted label_lt p' ->
  map snd p = map snd p' -> best_row p = best_row p'.
Proof.
  intros Hs Hs' E. unfold best_row.
  destruct (idxmax (map (fun r => (fst r, bid (snd r))) p)) as [label|e] eqn:I;
    destruct (idxmax (map (fun r => (fst r, bid (snd r))) p')) as [label'|e']
      eqn:I'; cbn [bind].
  - destruct (idxmax_ok _ _ I) as (p1 & r & p2 & -> & <- & H1 & H2).
    destruct (idxmax_ok _ _ I') as (q1 & r' & q2 & -> & <- & H1' & H2').
    rewrite (loc_sorted _ _ _ Hs), (loc_sorted _ _ _ Hs'). f_equal.
    rewrite !map_app in E. cbn [map] in E.
    apply (first_max_unique (fun q => fillna_neg_inf (bid q))
             (map snd p1) (map snd p2) (map snd q1) (map snd q2)); [exact E|..];
      rewrite Forall_map; assumption.
  - exfalso. unfold idxmax in I, I'.
    rewrite (idxmax_raises_on_values p p' E) in I.
    destruct (forallb _ _); [discriminate|].
    destruct p' as [|r' p']; [|discriminate I'].
    destruct p; [discriminate I | discriminate E].
  - exfalso. unfold idxmax in I, I'.
    rewrite (idxmax_raises_on_values p p' E) in I.
    destruct (forallb _ _); [discriminate|].
    destruct p as [|r p]; [|discriminate I].
    destruct p'; [discriminate I' | discriminate E].
  - unfold idxmax in I, I'.
    rewrite (idxmax_raises_on_values p p' E) in I.
    destruct (forallb _ _); [congruence|].
    destruct p as [|r p], p' as [|r' p']; try discriminate; congruence.
Qed.

(** X10: the record depends on the chain only through the rows at or under
    the strike ceiling, in their order: rows above the ceiling, and the
    positions of the rows in the chain, never change what the screener
    returns. *)
Theorem record_depends_on_qualifying_rows (w w' : World) (t x : string)
  (m : Z) (price : float) (chain chain' : list PutQuote) :
  fetched w t x price chain ->
  fetched w' t x price chain' ->
  to_datetime w x = to_datetime w' x ->
  today w = today w' ->
  map snd (qualifying chain (max_strike_of price m))
  = map snd (qualifying chain' (max_strike_of price m)) ->
  get_put_option_data w t x m = get_put_option_data w' t x m.
Proof.
  intros Hf Hf' Hd Ht E. unfold get_put_option_data.
  rewrite (get_put_option_data_try_fetched w t x m price chain Hf).
  rewrite (get_put_option_data_try_fetched w' t x m price chain' Hf').
  pose proof (best_row_on_values _ _ (sorted_qualifying chain _)
                (sorted_qualifying chain' _) E) as Hb.
  unfold best_row in Hb.
  destruct (qualifying chain (max_strike_of price m)) as [|r p] eqn:Q;
    destruct (qualifying chain' (max_strike_of price m)) as [|r' p'] eqn:Q';
    try discriminate E; [reflexivity|].
  destruct (idxmax (map (fun r => (fst r, bid (snd r))) (r :: p)))
    as [label|e]; destruct (idxmax (map (fun r => (fst r, bid (snd r))) (r' :: p')))
    as [label'|e']; cbn [bind] in Hb |- *.
  - rewrite Hb, Hd, Ht. reflexivity.
  - rewrite Hb. reflexivity.
  - rewrite <- Hb. reflexivity.
  - reflexivity.
Qed.

Lemma record_depends_on_qualifying_rows_witness :
  get_put_option_data
    (example_world wednesday_10am 200 example_chain ∅) "AAPL" "2026-11-13" 5
  = get_put_option_data
      (example_world wednesday_10am 200 chain_with_rows_above ∅)
      "AAPL" "2026-11-13" 5.
Proof.
  apply (record_depends_on_qualifying_rows
           (example_world wednesday_10am 200 example_chain ∅)
           (example_world wednesday_10am 200 chain_with_rows_above ∅)
           "AAPL" "2026-11-13" 5 200 example_chain chain_with_rows_above).
  - exists [200%float],
      ["2026-11-06"; "2026-11-13"; "2026-11-20"; "2026-11-27"]%string.
    repeat split; reflexivity.
  - exists [200%float],
      ["2026-11-06"; "2026-11-13"; "2026-11-20"; "2026-11-27"]%string.
    repeat split; reflexivity.
  - reflexivity.
  - reflexivity.
  - vm_compute. reflexivity.
Defined.

Lemma nan_ceiling_qualifies_nothing (chain : list PutQuote) (ms : float) :
  is_nan ms = true -> qualifying chain ms = [].
Proof.
  intros Hn. destruct (qualifying chain ms) as [|[j q] l] eqn:E;
    [reflexivity|].
  assert (Hin : In (j, q) (qualifying chain ms))
    by (rewrite E; left; reflexivity).
  apply in_qualifying in Hin. destruct Hin as [_ Hq].
  apply leb_not_nan in Hq. destruct Hq as [_ Hq]. congruence.
Qed.

(** X11: when the last close on record is NaN, the strike ceiling is NaN,
    no put is at or under it, and the screener returns [None], whatever the
    chain holds. *)
Theorem nan_price_gives_no_record (w : World) (t x : string) (m : Z)
  (price : float) (chain : list PutQuote) :
  fetched w t x price chain ->
  is_nan price = true ->
  is_nan (max_strike_of price m) = true /\
  get_put_option_data w t x m = None.
Proof.
  intros Hf Hn.
  assert (Hc : is_nan (max_strike_of price m) = true).
  { unfold max_strike_of. rewrite is_nan_spec in *. rewrite mul_spec.
    destruct (Prim2SF price); try discriminate. reflexivity. }
  split; [exact Hc|]. unfold get_put_option_data.
  rewrite (get_put_option_data_try_fetched w t x m price chain Hf).
  rewrite (nan_ceiling_qualifies_nothing chain _ Hc). reflexivity.
Qed.

Lemma nan_price_gives_no_record_witness :
  is_nan (max_strike_of nan 5) = true /\
  get_put_option_data (example_world wednesday_10am nan example_chain ∅)
    "AAPL" "2026-11-13" 5 = None.
Proof.
  apply (nan_price_gives_no_record
           (example_world wednesday_10am nan example_chain ∅)
           "AAPL" "2026-11-13" 5 nan example_chain).
  - exists [nan],
      ["2026-11-06"; "2026-11-13"; "2026-11-20"; "2026-11-27"]%string.
    repeat split; reflexivity.
  - reflexivity.
Defined.

End SelectionMore.

(** ** More on the Fundamentals Enricher *)

Section FundamentalsMore.

Lemma lower_not_A (c : ascii) : lower c <> "A"%char.
Proof.
  destruct c as [[] [] [] [] [] [] [] []]; vm_compute; discriminate.
Qed.

Lemma capitalize_not_NA (s : string) : capitalize s <> "N/A"%string.
Proof.
  destruct s as [|c [|c1 [|c2 s]]]; cbn; try discriminate.
  intros H. injection H as _ _ H _. exact (lower_not_A c2 H).
Qed.

(** What a run of the [try] block to its end has computed. *)
Lemma get_fundamentals_try_inv (w : World) (t : string)
  (r : FundamentalsSummary) :
  get_fundamentals_try w t = Ok r ->
  exists i eps_data eps_list beats recommendation,
    info w t = Ok i /\
    match quarterly_earnings w t with
    | Attr df => Ok df
    | NoAttr => Ok []
    | AttrRaise e => Raise e
    end = Ok eps_data /\
    (if negb (frame_empty eps_data)
     then let* col := column eps_data "Earnings" in Ok (tail4 col)
     else Ok []) = Ok eps_list /\
    (if negb (frame_empty eps_data)
     then
       let* earnings := column eps_data "Earnings" in
       let* estimate := column eps_data "Estimate" in
       Ok (map (fun em => int_of_bool (snd em <=? fst em)%float)
               (combine earnings estimate))
     else Ok []) = Ok beats /\
    py_capitalize (dict_get i "recommendationKey" (PyStr "N/A"))
    = Ok recommendation /\
    Recommendation r = recommendation /\
    EPS_Last_4 r
    = match eps_list with
      | [] => "N/A"%string
      | _ => join ", " (map format_2f eps_list)
      end /\
    EPS_Beats_4Q r
    = match beats with
      | [] => "N/A"%string
      | _ => (string_of_int (fold_right Z.add 0 beats) ++ "/"
              ++ string_of_nat (length beats))%string
      end.
Proof.
  unfold get_fundamentals_try. intros H.
  apply bind_ok in H. destruct H as (i & Hi & H).
  apply bind_ok in H. destruct H as (cal & _ & H).
  apply bind_ok in H. destruct H as (ed & _ & H).
  apply bind_ok in H. destruct H as (eps_data & Hd & H).
  apply bind_ok in H. destruct H as (eps_list & Hl & H).
  apply bind_ok in H. destruct H as (beats & Hb & H).
  apply bind_ok in H. destruct H as (above & _ & H).
  apply bind_ok in H. destruct H as (dy & _ & H).
  apply bind_ok in H. destruct H as (pt & _ & H).
  apply bind_ok in H. destruct H as (rec & Hr & H).
  injection H as <-. exists i, eps_data, eps_list, beats, rec.
  cbn [Recommendation EPS_Last_4 EPS_Beats_4Q]. repeat split; assumption.
Qed.

(** X12: the recommendation ["N/A"] marks the default record and nothing
    else: the enricher shows it exactly when its [try] block raised.  A
    run without exception that finds no [recommendationKey] shows
    ["N/a"], the capitalized default of line 60. *)
Theorem recommendation_na_iff_exception (w : World) (t : string) :
  (Recommendation (get_fundamentals w t) = "N/A"%string <->
   exists e, get_fundamentals_try w t = Raise e) /\
  (get_fundamentals w t = default_fundamentals <->
   exists e, get_fundamentals_try w t = Raise e) /\
  (forall r i,
     get_fundamentals_try w t = Ok r -> info w t = Ok i ->
     i !! "recommendationKey" = None ->
     Recommendation (get_fundamentals w t) = "N/a"%string).
Proof.
  unfold get_fundamentals.
  destruct (get_fundamentals_try w t) as [r|e] eqn:E.
  - destruct (get_fundamentals_try_inv w t r E)
      as (i & _ & _ & _ & rec & Hi & _ & _ & _ & Hc & Hr & _).
    assert (Hna : Recommendation r <> "N/A"%string).
    { rewrite Hr. unfold py_capitalize in Hc.
      destruct (dict_get i "recommendationKey" (PyStr "N/A"));
        try discriminate.
      injection Hc as <-. apply capitalize_not_NA. }
    split; [|split].
    + split; [intros H; contradiction | intros (e & He); discriminate].
    + split; [|intros (e & He); discriminate].
      intros H. rewrite H in Hna. contradiction Hna. reflexivity.
    + intros r' i' Hr' Hi' Hk. rewrite Hi in Hi'. injection Hi' as <-.
      rewrite Hr. unfold dict_get in Hc. rewrite Hk in Hc.
      injection Hc as <-. reflexivity.
  - split; [|split].
    + split; [eauto | reflexivity].
    + split; [eauto | reflexivity].
    + intros r' i' Hr'. discriminate.
Qed.

Lemma sum_indicators {A : Type} (p : A -> bool) (l : list A) :
  fold_right Z.add 0 (map (fun a => int_of_bool (p a)) l)
  = Z.of_nat (length (List.filter p l)).
Proof.
  induction l as [|a l IH]; [reflexivity|]. cbn [map fold_right List.filter].
  rewrite IH. destruct (p a); cbn [int_of_bool length]; lia.
Qed.

Lemma length_tail4 (l : list float) :
  length (tail4 l) = Nat.min 4 (length l).
Proof. unfold tail4. rewrite length_skipn. lia. Qed.

(** X13: for a run without exception over a frame of quarterly earnings
    that is not empty, the EPS Beats field reads [k/n], where [n] is the
    number of quarters of the frame, however many, and [k] the number of
    them whose earnings are at least the estimate; the EPS list shows the
    last [min(4, n)] earnings. *)
Theorem eps_beats_counts_every_quarter (w : World) (t : string)
  (r : FundamentalsSummary) (df : frame) (earnings estimate : list float) :
  get_fundamentals_try w t = Ok r ->
  quarterly_earnings w t = Attr df ->
  frame_empty df = false ->
  column df "Earnings" = Ok earnings ->
  column df "Estimate" = Ok estimate ->
  let quarters := combine earnings estimate in
  let k := length (List.filter (fun em => (snd em <=? fst em)%float) quarters) in
  (k <= length quarters)%nat /\
  (quarters <> [] ->
   EPS_Beats_4Q r
   = (string_of_int (Z.of_nat k) ++ "/"
      ++ string_of_nat (length quarters))%string) /\
  (earnings <> [] ->
   EPS_Last_4 r = join ", " (map format_2f (tail4 earnings))) /\
  length (tail4 earnings) = Nat.min 4 (length earnings).
Proof.
  intros H Hq Hne Hea Hes quarters k.
  destruct (get_fundamentals_try_inv w t r H)
    as (i & eps_data & eps_list & beats & rec & _ & Hd & Hl & Hb & _ & _
        & HL & HB).
  rewrite Hq in Hd. injection Hd as <-.
  rewrite Hne in Hl, Hb. cbn [negb] in Hl, Hb.
  rewrite Hea in Hl, Hb. cbn [bind] in Hl, Hb. rewrite Hes in Hb.
  cbn [bind] in Hb. injection Hl as <-. injection Hb as <-.
  split; [apply List.filter_length_le|]. split; [|split].
  - intros Hn. rewrite HB. fold quarters.
    rewrite sum_indicators, length_map. fold k.
    destruct quarters; [contradiction Hn; reflexivity | reflexivity].
  - intros Hn. rewrite HL.
    destruct (tail4 earnings) eqn:E; [|reflexivity].
    pose proof (length_tail4 earnings) as Hlen. rewrite E in Hlen.
    destruct earnings; [contradiction Hn; reflexivity | cbn in Hlen; lia].
  - apply length_tail4.
Qed.

Lemma eps_beats_counts_every_quarter_witness :
  let r := get_fundamentals (earnings_world five_quarters buy_info) "AAPL" in
  let earnings := [1.25; 1.5; 0.75; 2; 1.125]%float in
  let estimate := [1; 1.625; 0.75; 1.875; nan]%float in
  let quarters := combine earnings estimate in
  let k := length (List.filter (fun em => (snd em <=? fst em)%float) quarters) in
  (k <= length quarters)%nat /\
  (quarters <> [] ->
   EPS_Beats_4Q r
   = (string_of_int (Z.of_nat k) ++ "/"
      ++ string_of_nat (length quarters))%string) /\
  (earnings <> [] ->
   EPS_Last_4 r = join ", " (map format_2f (tail4 earnings))) /\
  length (tail4 earnings) = Nat.min 4 (length earnings).
Proof.
  apply (eps_beats_counts_every_quarter
           (earnings_world five_quarters buy_info) "AAPL"
           (get_fundamentals (earnings_world five_quarters buy_info) "AAPL")
           five_quarters).
  - vm_compute. reflexivity.
  - reflexivity.
  - reflexivity.
  - reflexivity.
  - reflexivity.
Defined.

Example eps_beats_of_five_quarters :
  EPS_Beats_4Q (get_fundamentals (earnings_world five_quarters buy_info) "AAPL")
  = "3/5"%string /\
  EPS_Last_4 (get_fundamentals (earnings_world five_quarters buy_info) "AAPL")
  = "1.50, 0.75, 2.00, 1.12"%string.
Proof. vm_compute. split; reflexivity. Qed.

Lemma find_none {A : Type} (p : A -> bool) (l : list A) :
  (forall a, In a l -> p a = false) -> find p l = None.
Proof.
  induction l as [|a l IH]; intros H; [reflexivity|]. cbn [find].
  rewrite (H a (or_introl eq_refl)). apply IH. intros b Hb. apply H.
  right. exact Hb.
Qed.

Lemma raise_default (w : World) (t : string) :
  (exists e, get_fundamentals_try w t = Raise e) ->
  get_fundamentals w t = default_fundamentals.
Proof. intros (e & H). unfold get_fundamentals. rewrite H. reflexivity. Qed.

(** X14: a frame of quarterly earnings that is not empty and has no column
    named ["Estimate"] (or none named ["Earnings"]) makes the enricher
    return the default record, score 0, whatever [info] holds. *)
Theorem earnings_without_estimate_gives_default (w : World) (t : string)
  (df : frame) :
  quarterly_earnings w t = Attr df ->
  frame_empty df = false ->
  (forall c, In c df -> fst c <> "Estimate"%string) \/
  (forall c, In c df -> fst c <> "Earnings"%string) ->
  get_fundamentals w t = default_fundamentals.
Proof.
  intros Hq Hne Hc. apply raise_default.
  assert (Hcol : forall name,
             (forall c, In c df -> fst c <> name) ->
             column df name = Raise KeyError).
  { intros name Hn. unfold column. rewrite find_none; [reflexivity|].
    intros c Hin. apply String.eqb_neq. apply Hn. exact Hin. }
  unfold get_fundamentals_try.
  apply bind_raise; intros i. apply bind_raise; intros cal.
  apply bind_raise; intros ed. rewrite Hq. cbn [bind]. rewrite Hne.
  cbn [negb]. destruct Hc as [Hc | Hc].
  - apply bind_raise; intros eps_list.
    destruct (column df "Earnings") as [earnings|e]; cbn [bind]; [|eauto].
    rewrite (Hcol _ Hc). cbn [bind]. eauto.
  - rewrite (Hcol _ Hc). cbn [bind]. eauto.
Qed.

Lemma earnings_without_estimate_gives_default_witness :
  get_fundamentals (earnings_world quarters_without_estimate buy_info) "AAPL"
  = default_fundamentals.
Proof.
  apply (earnings_without_estimate_gives_default
           (earnings_world quarters_without_estimate buy_info) "AAPL"
           quarters_without_estimate).
  - reflexivity.
  - reflexivity.
  - left. intros c [<- | [<- | []]]; discriminate.
Defined.

(** X15: [info.get(key, default)] supplies the default for an absent key
    only.  A [targetMeanPrice] on record as [None] or as a string, or a
    [recommendationKey] on record as anything but a string, makes the
    enricher return the default record, score 0. *)
Theorem info_entry_of_wrong_type_gives_default (w : World) (t : string)
  (i : gmap string pyval) :
  info w t = Ok i ->
  i !! "targetMeanPrice" = Some PyNone \/
  (exists s, i !! "targetMeanPrice" = Some (PyStr s)) \/
  (exists v, i !! "recommendationKey" = Some v /\ forall s, v <> PyStr s) ->
  get_fundamentals w t = default_fundamentals.
Proof.
  intros Hi Hc. apply raise_default. unfold get_fundamentals_try.
  rewrite Hi. cbn [bind].
  apply bind_raise; intros cal. apply bind_raise; intros ed.
  apply bind_raise; intros eps_data. apply bind_raise; intros eps_list.
  apply bind_raise; intros beats. apply bind_raise; intros above.
  apply bind_raise; intros dy.
  destruct Hc as [Hc | [(s & Hc) | (v & Hc & Hv)]].
  - unfold dict_get at 1. rewrite Hc. cbn [py_round_2 bind]. eauto.
  - unfold dict_get at 1. rewrite Hc. cbn [py_round_2 bind]. eauto.
  - apply bind_raise; intros pt. unfold dict_get. rewrite Hc.
    destruct v; cbn [py_capitalize bind]; eauto.
    contradiction (Hv s). reflexivity.
Qed.

Lemma info_entry_of_wrong_type_gives_default_witness :
  get_fundamentals
    (example_world wednesday_10am 200 example_chain info_with_none_target)
    "AAPL"
  = default_fundamentals.
Proof.
  apply (info_entry_of_wrong_type_gives_default
           (example_world wednesday_10am 200 example_chain
              info_with_none_target)
           "AAPL" info_with_none_target).
  - reflexivity.
  - left. vm_compute. reflexivity.
Defined.

End FundamentalsMore.

(** ** The page: both modes from the ticker box to the table *)

Section Page.
Import Float64 FloatFacts.

Lemma kept_fields (w : World) (lo hi : float) (m : Z) (t x : string)
  (row : Row) :
  kept w lo hi m t x row ->
  ticker_of row = t /\ expiration_of row = x /\
  fundamentals row = get_fundamentals w t /\
  (lo <=? hi)%float = true.
Proof.
  intros (od & Hod & Hr & ->).
  destruct (get_put_option_data_inv w t x m od Hod)
    as (price & chain & label & best & e & oi & _ & _ & _ & _ & ->).
  repeat split. unfold in_price_range in Hr.
  apply andb_true_iff in Hr. destruct Hr as [H1 H2].
  exact (leb_trans _ _ _ H1 H2).
Qed.

Lemma screen_pair_length (w : World) (lo hi : float) (m : Z) (t x : string) :
  (length (screen_pair w lo hi m t x) <= 1)%nat.
Proof.
  unfold screen_pair. destruct (get_put_option_data w t x m) as [od|];
    [destruct (in_price_range lo hi od)|]; cbn; lia.
Qed.

Lemma collect_length (w : World) (lo hi : float) (m : Z)
  (pairs : list (string * string)) :
  (length (collect w lo hi m pairs) <= length pairs)%nat.
Proof.
  induction pairs as [|p pairs IH]; [cbn; lia|].
  unfold collect in *. cbn [flat_map]. rewrite length_app.
  pose proof (screen_pair_length w lo hi m (fst p) (snd p)). cbn [length]. lia.
Qed.

Lemma collect_nodup {K : Type} (w : World) (lo hi : float) (m : Z)
  (key : Row -> K) (pair_key : string * string -> K)
  (pairs : list (string * string)) :
  (forall t x row, kept w lo hi m t x row -> key row = pair_key (t, x)) ->
  List.NoDup (map pair_key pairs) ->
  List.NoDup (map key (collect w lo hi m pairs)).
Proof.
  intros Hk. induction pairs as [|[t x] pairs IH]; intros Hn.
  - constructor.
  - cbn [map] in Hn. inversion Hn as [|? ? Hnot Hn']; subst.
    unfold collect in *. cbn [flat_map fst snd]. rewrite map_app.
    pose proof (screen_pair_length w lo hi m t x) as Hlen.
    destruct (screen_pair w lo hi m t x) as [|row [|row' rest]] eqn:E;
      [exact (IH Hn') | | cbn in Hlen; lia].
    cbn [map app]. constructor; [|exact (IH Hn')].
    intros Hin. apply in_map_iff in Hin. destruct Hin as (row' & Hr' & Hin).
    apply (in_collect w lo hi m pairs row') in Hin.
    destruct Hin as (t' & x' & Hp & Hkept).
    assert (Hrow : kept w lo hi m t x row).
    { apply in_screen_pair. rewrite E. left. reflexivity. }
    apply Hnot. apply in_map_iff. exists (t', x'). split; [|exact Hp].
    rewrite <- (Hk _ _ _ Hkept), <- (Hk _ _ _ Hrow). exact Hr'.
Qed.

Lemma insert_sorted_length (x : string) (l : list string) :
  (length (insert_sorted x l) <= S (length l))%nat.
Proof.
  induction l as [|y l IH]; cbn [insert_sorted]; [cbn; lia|].
  destruct (String.compare x y); cbn [length] in *; lia.
Qed.

Lemma sorted_set_length (l : list string) :
  (length (sorted_set l) <= length l)%nat.
Proof.
  induction l as [|x l IH]; [cbn; lia|]. cbn [sorted_set fold_right length].
  pose proof (insert_sorted_length x (fold_right insert_sorted [] l)).
  unfold sorted_set in IH. lia.
Qed.

Lemma empty_range_collects_nothing (w : World) (lo hi : float) (m : Z)
  (pairs : list (string * string)) :
  (lo <=? hi)%float = false -> collect w lo hi m pairs = [].
Proof.
  intros H. destruct (collect w lo hi m pairs) as [|row rows] eqn:E;
    [reflexivity|].
  assert (Hin : In row (collect w lo hi m pairs)) by (rewrite E; left; reflexivity).
  apply in_collect in Hin. destruct Hin as (t & x & _ & Hk).
  apply kept_fields in Hk. destruct Hk as (_ & _ & _ & Hk). congruence.
Qed.

(** X16: when the minimum price is not at or below the maximum (the range
    is inverted, or a bound is NaN), no record is kept and both modes show
    their warning, whatever the provider answers. *)
Theorem empty_price_range_warns (w : World) (tickers : list string)
  (expiration selected_stock : string) (min_price max_price : float) (m : Z)
  (weekly_dates : list string) :
  (min_price <=? max_price)%float = false ->
  get_weekly_fridays (today w) 4 = Ok weekly_dates ->
  run_all w tickers expiration min_price max_price m
  = Warning "No results found for given filters." /\
  run_selected w selected_stock min_price max_price m
  = Ok (Warning "No results found for selected stock.").
Proof.
  intros H Hw. unfold run_all, run_selected. rewrite Hw. cbn [bind].
  rewrite !(empty_range_collects_nothing w _ _ m _ H). split; reflexivity.
Qed.

Lemma empty_price_range_warns_witness :
  run_all (example_world wednesday_10am 200 example_chain buy_info)
    (all_tickers EmptyString) "2026-11-13" 300 100 5
  = Warning "No results found for given filters." /\
  run_selected (example_world wednesday_10am 200 example_chain buy_info)
    "AAPL" 300 100 5
  = Ok (Warning "No results found for selected stock.").
Proof.
  apply (empty_price_range_warns
           (example_world wednesday_10am 200 example_chain buy_info)
           (all_tickers EmptyString) "2026-11-13" "AAPL" 300 100 5
           ["2026-11-06"; "2026-11-13"; "2026-11-20"; "2026-11-27"]%string).
  - vm_compute. reflexivity.
  - vm_compute. reflexivity.
Defined.

Lemma in_sort_values_desc (key : Row -> float) (rows : list Row) (r : Row) :
  In r (sort_values_desc key rows) <-> In r rows.
Proof.
  pose proof (sort_values_desc_perm key rows) as P. split; intros H.
  - exact (Permutation_in _ (Permutation_sym P) H).
  - exact (Permutation_in _ P H).
Qed.

Lemma nodup_sort_values_desc {K : Type} (f : Row -> K) (key : Row -> float)
  (rows : list Row) :
  List.NoDup (map f rows) -> List.NoDup (map f (sort_values_desc key rows)).
Proof.
  apply Permutation_NoDup. apply Permutation_map.
  apply sort_values_desc_perm.
Qed.

Lemma nodup_map_inj {A B : Type} (f : A -> B) (l : list A) :
  (forall a b, In a l -> In b l -> f a = f b -> a = b) ->
  List.NoDup l -> List.NoDup (map f l).
Proof.
  intros Hf. induction 1 as [|a l Hn Hl IH]; cbn [map]; constructor.
  - intros Hin. apply in_map_iff in Hin. destruct Hin as (b & Hb & Hin).
    apply Hn. rewrite (Hf a b); [exact Hin | left; reflexivity
                                | right; exact Hin | symmetry; exact Hb].
  - apply IH. intros x y Hx Hy. apply Hf; right; assumption.
Qed.

(** X17: the table of the ALL mode.  The screener runs for the date picked
    among the ten weekly dates; every row carries that expiration, a ticker
    of the universe (a default or a normalised custom ticker) and that
    ticker's fundamentals; no ticker comes twice; and there are at most as
    many rows as defaults and custom tickers together. *)
Theorem all_mode_table (w : World) (user_input : string)
  (stock_choice expiration_choice : nat) (min_price max_price : float)
  (m : Z) (msg csv : string) (df : list Row) :
  selectbox (all_tickers user_input) stock_choice = "ALL"%string ->
  (expiration_choice < 10)%nat ->
  screener w user_input stock_choice expiration_choice min_price max_price m
  = Ok (Success msg df csv) ->
  exists weekly_dates expiration,
    get_weekly_fridays (today w) 10 = Ok weekly_dates /\
    nth_error weekly_dates expiration_choice = Some expiration /\
    msg = ("Showing cash-secured puts for expiration: " ++ expiration)%string /\
    (forall row,
       In row df ->
       expiration_of row = expiration /\
       (In (ticker_of row) DEFAULT_MAGNIFICENT_7 \/
        In (ticker_of row) (custom_tickers user_input)) /\
       fundamentals row = get_fundamentals w (ticker_of row)) /\
    List.NoDup (map ticker_of df) /\
    (0 < length df <= 7 + length (custom_tickers user_input))%nat.
Proof.
  intros Hsel Hc H. unfold screener in H. rewrite Hsel in H.
  cbn [String.eqb Ascii.eqb Bool.eqb] in H.
  destruct (get_weekly_fridays (today w) 10) as [weekly|] eqn:Hw;
    [|discriminate]. cbn [bind] in H.
  pose proof (mapM_length _ _ _ Hw) as Hlen.
  change (length (py_range 10)) with 10%nat in Hlen.
  destruct (nth_error weekly expiration_choice) as [expiration|] eqn:Hx;
    [|apply nth_error_None in Hx; lia].
  assert (Hx' : selectbox weekly expiration_choice = expiration)
    by (apply nth_error_nth; exact Hx).
  rewrite Hx' in H. exists weekly, expiration.
  split; [reflexivity|]. split; [exact Hx|].
  unfold run_all in H. cbn [all_tickers tl] in H.
  set (tickers := sorted_set (DEFAULT_MAGNIFICENT_7 ++ custom_tickers user_input)) in *.
  set (pairs := map (fun ticker => (ticker, expiration)) tickers) in *.
  destruct (collect w min_price max_price m pairs) as [|row0 rows0] eqn:E;
    [discriminate|]. rewrite <- E in H. injection H as <- <- <-.
  split; [reflexivity|]. split; [|split].
  - intros row Hin. apply in_sort_values_desc in Hin.
    apply in_collect in Hin. destruct Hin as (t & x & Hp & Hk).
    apply in_map_iff in Hp. destruct Hp as (t' & Ht' & Ht).
    injection Ht' as -> ->. apply kept_fields in Hk.
    destruct Hk as (-> & -> & Hf & _). split; [reflexivity|].
    split; [|exact Hf]. unfold tickers in Ht. rewrite in_sorted_set in Ht.
    apply in_app_or in Ht. exact Ht.
  - apply nodup_sort_values_desc.
    apply (collect_nodup w min_price max_price m ticker_of fst).
    + intros t x row Hk. apply kept_fields in Hk. apply Hk.
    + unfold pairs. rewrite map_map. cbn [fst]. rewrite map_id.
      apply sorted_nodup. apply sorted_set_sorted.
  - rewrite <- (Permutation_length (sort_values_desc_perm _ _)).
    pose proof (collect_length w min_price max_price m pairs) as Hl.
    rewrite E in Hl. unfold pairs in Hl. rewrite length_map in Hl.
    pose proof (sorted_set_length
                  (DEFAULT_MAGNIFICENT_7 ++ custom_tickers user_input)) as Hs.
    rewrite length_app in Hs. change (length DEFAULT_MAGNIFICENT_7) with 7%nat in Hs.
    fold tickers in Hs. rewrite E. cbn [length] in *. lia.
Qed.

Lemma all_mode_table_witness :
  exists weekly_dates expiration,
    get_weekly_fridays
      (today (example_world wednesday_10am 200 example_chain buy_info)) 10
    = Ok weekly_dates /\
    nth_error weekly_dates 1 = Some expiration /\
    "Showing cash-secured puts for expiration: 2026-11-13"%string
    = ("Showing cash-secured puts for expiration: " ++ expiration)%string /\
    (forall row,
       In row
         (sort_values_desc (fun r => Bid (option_data r))
            (collect (example_world wednesday_10am 200 example_chain buy_info)
               50 1000 5
               (map (fun t => (t, "2026-11-13"%string))
                  (tl (all_tickers "amd"))))) ->
       expiration_of row = expiration /\
       (In (ticker_of row) DEFAULT_MAGNIFICENT_7 \/
        In (ticker_of row) (custom_tickers "amd")) /\
       fundamentals row
       = get_fundamentals
           (example_world wednesday_10am 200 example_chain buy_info)
           (ticker_of row)) /\
    List.NoDup
      (map ticker_of
         (sort_values_desc (fun r => Bid (option_data r))
            (collect (example_world wednesday_10am 200 example_chain buy_info)
               50 1000 5
               (map (fun t => (t, "2026-11-13"%string))
                  (tl (all_tickers "amd")))))) /\
    (0 < length
           (sort_values_desc (fun r => Bid (option_data r))
              (collect (example_world wednesday_10am 200 example_chain buy_info)
                 50 1000 5
                 (map (fun t => (t, "2026-11-13"%string))
                    (tl (all_tickers "amd")))))
     <= 7 + length (custom_tickers "amd"))%nat.
Proof.
  apply (all_mode_table
           (example_world wednesday_10am 200 example_chain buy_info)
           "amd" 0 1 50 1000 5
           "Showing cash-secured puts for expiration: 2026-11-13"
           "cash_secured_puts_all.csv").
  - reflexivity.
  - lia.
  - vm_compute. reflexivity.
Defined.

Lemma strftime_fromordinal_inj (a b : Z) :
  1 <= a <= MAXORDINAL -> 1 <= b <= MAXORDINAL ->
  strftime (fromordinal a) = strftime (fromordinal b) -> a = b.
Proof.
  intros Ha Hb H.
  apply strftime_inj in H;
    [|apply CalendarOrder.fromordinal_valid; assumption ..].
  rewrite <- (CalendarFacts.toordinal_fromordinal a) by apply Ha.
  rewrite <- (CalendarFacts.toordinal_fromordinal b) by apply Hb.
  rewrite H. reflexivity.
Qed.

Lemma some_inj {A : Type} (a b : A) : Some a = Some b -> a = b.
Proof. intros H. injection H as H. exact H. Qed.

Lemma weekly_dates_nodup (now : datetime) (n : Z) (l : list string) :
  get_weekly_fridays now n = Ok l -> List.NoDup l.
Proof.
  intros H. pose proof (mapM_length _ _ _ H) as Hlen.
  unfold py_range in Hlen. rewrite length_map, length_seq in Hlen.
  apply List.NoDup_nth_error. intros a b Ha Hab.
  assert (Hb : (b < length l)%nat).
  { apply nth_error_Some. rewrite <- Hab. apply nth_error_Some. exact Ha. }
  destruct (weekly_entry now n l (Z.of_nat a) H ltac:(lia)) as [Ea Oa].
  destruct (weekly_entry now n l (Z.of_nat b) H ltac:(lia)) as [Eb Ob].
  rewrite Nat2Z.id in Ea, Eb. rewrite Ea, Eb in Hab. apply some_inj in Hab.
  apply strftime_fromordinal_inj in Hab; [|assumption ..].
  rewrite !friday_offset_eq in Hab. lia.
Qed.

(** X18: the table of the single-ticker mode.  Every row carries the
    selected stock, one of the four weekly dates and the same fundamentals;
    no expiration comes twice; there are at most four rows. *)
Theorem single_mode_table (w : World) (user_input : string)
  (stock_choice expiration_choice : nat) (min_price max_price : float)
  (m : Z) (msg csv : string) (df : list Row) :
  selectbox (all_tickers user_input) stock_choice <> "ALL"%string ->
  screener w user_input stock_choice expiration_choice min_price max_price m
  = Ok (Success msg df csv) ->
  let stock := selectbox (all_tickers user_input) stock_choice in
  exists weekly_dates,
    get_weekly_fridays (today w) 4 = Ok weekly_dates /\
    csv = (stock ++ "_puts_analysis.csv")%string /\
    (forall row,
       In row df ->
       ticker_of row = stock /\
       In (expiration_of row) weekly_dates /\
       fundamentals row = get_fundamentals w stock) /\
    List.NoDup (map expiration_of df) /\
    (0 < length df <= 4)%nat.
Proof.
  intros Hsel H stock. unfold screener in H. fold stock in H.
  apply String.eqb_neq in Hsel. fold stock in Hsel. rewrite Hsel in H.
  unfold run_selected in H.
  destruct (get_weekly_fridays (today w) 4) as [weekly|] eqn:Hw;
    [|discriminate]. cbn [bind] in H.
  pose proof (mapM_length _ _ _ Hw) as Hlen.
  change (length (py_range 4)) with 4%nat in Hlen.
  exists weekly. split; [reflexivity|].
  set (pairs := map (fun exp => (stock, exp)) weekly) in *.
  destruct (collect w min_price max_price m pairs) as [|row0 rows0] eqn:E;
    [discriminate|]. rewrite <- E in H. injection H as <- <- <-.
  split; [reflexivity|]. split; [|split].
  - intros row Hin. apply in_sort_values_desc in Hin.
    apply in_collect in Hin. destruct Hin as (t & x & Hp & Hk).
    apply in_map_iff in Hp. destruct Hp as (x' & Hx' & Hx).
    injection Hx' as <- <-. apply kept_fields in Hk.
    destruct Hk as (-> & -> & Hf & _). auto.
  - apply nodup_sort_values_desc.
    apply (collect_nodup w min_price max_price m expiration_of snd).
    + intros t x row Hk. apply kept_fields in Hk. apply Hk.
    + unfold pairs. rewrite map_map. cbn [snd]. rewrite map_id.
      exact (weekly_dates_nodup _ _ _ Hw).
  - rewrite <- (Permutation_length (sort_values_desc_perm _ _)).
    pose proof (collect_length w min_price max_price m pairs) as Hl.
    rewrite E in Hl. unfold pairs in Hl. rewrite length_map in Hl.
    rewrite E. cbn [length] in *. lia.
Qed.

Lemma single_mode_table_witness :
  let w := example_world wednesday_10am 200 example_chain buy_info in
  let df :=
    sort_values_desc (fun r => Abs_ROI (option_data r))
      (collect w 50 1000 5
         (map (fun exp => ("AAPL"%string, exp))
            ["2026-11-06"; "2026-11-13"; "2026-11-20"; "2026-11-27"]%string)) in
  let stock := selectbox (all_tickers "amd") 1 in
  exists weekly_dates,
    get_weekly_fridays (today w) 4 = Ok weekly_dates /\
    "AAPL_puts_analysis.csv"%string = (stock ++ "_puts_analysis.csv")%string /\
    (forall row,
       In row df ->
       ticker_of row = stock /\
       In (expiration_of row) weekly_dates /\
       fundamentals row = get_fundamentals w stock) /\
    List.NoDup (map expiration_of df) /\
    (0 < length df <= 4)%nat.
Proof.
  apply (single_mode_table
           (example_world wednesday_10am 200 example_chain buy_info)
           "amd" 1 0 50 1000 5
           "Showing next 4 weekly expirations for AAPL"
           "AAPL_puts_analysis.csv").
  - vm_compute. discriminate.
  - vm_compute. reflexivity.
Defined.



End Page.

(** ** Exceptions that reach the page *)

Section PageExceptions.
Import Calendar CalendarFacts CalendarOrder.

Lemma mapM_raise_inv {A B : Type} (f : A -> result B) (l : list A) (e : exn) :
  mapM f l = Raise e -> exists a, In a l /\ f a = Raise e.
Proof.
  induction l as [|a l IH]; cbn [mapM]; [discriminate|].
  destruct (f a) as [b|e'] eqn:Ea; cbn [bind].
  - destruct (mapM f l) as [bs|e'']; cbn [bind]; [discriminate|].
    intros H. injection H as ->. destruct (IH eq_refl) as (x & Hx & Hf).
    exists x. split; [right; exact Hx | exact Hf].
  - intros H. injection H as ->. exists a. split; [left; reflexivity | exact Ea].
Qed.

Lemma add_days_raise (d : date) (k : Z) (e : exn) :
  add_days d k = Raise e ->
  e = OverflowError /\ (toordinal d + k <= 0 \/ MAXORDINAL < toordinal d + k).
Proof.
  unfold add_days. destruct (Z.ltb_spec 0 (toordinal d + k));
    destruct (Z.leb_spec (toordinal d + k) MAXORDINAL); cbn [andb];
    try discriminate; intros E; injection E as <-; split;
    try reflexivity; lia.
Qed.

Lemma get_weekly_fridays_raise (now : datetime) (n : Z) (e : exn) :
  valid_date (dt_date now) ->
  get_weekly_fridays now n = Raise e ->
  e = OverflowError /\ MAXORDINAL < toordinal (dt_date now) + 7 * n - 1.
Proof.
  intros Hv H. unfold get_weekly_fridays in H.
  apply mapM_raise_inv in H. destruct H as (i & Hi & H).
  apply in_py_range in Hi.
  destruct (add_days (dt_date now) (friday_offset (dt_date now) i)) as [d|e']
    eqn:Ea; cbn [bind] in H; [discriminate|]. injection H as ->.
  apply add_days_raise in Ea. destruct Ea as [-> Ho].
  split; [reflexivity|].
  pose proof (toordinal_valid_bounds _ Hv).
  pose proof (friday_offset_bounds (dt_date now) i) as [Hb _]. lia.
Qed.

Lemma get_weekly_fridays_returns (now : datetime) (n : Z) :
  valid_date (dt_date now) ->
  toordinal (dt_date now) + 7 * n - 1 <= MAXORDINAL ->
  exists l, get_weekly_fridays now n = Ok l.
Proof.
  intros Hv Hn.
  destruct (get_weekly_fridays now n) as [l|e] eqn:E; [eauto|].
  apply (get_weekly_fridays_raise now n e Hv) in E. lia.
Qed.

(** X20: no failure of the data provider reaches the page.  From a valid
    current date the page raises nothing but the [OverflowError] of the
    date arithmetic, and that only within the last 69 days of the
    calendar (after 9999-10-23); on every other day it shows a table or a
    warning. *)
Theorem page_raises_only_past_the_calendar (w : World) (user_input : string)
  (stock_choice expiration_choice : nat) (min_price max_price : float)
  (m : Z) :
  valid_date (dt_date (today w)) ->
  (forall e,
     screener w user_input stock_choice expiration_choice
       min_price max_price m = Raise e ->
     e = OverflowError /\
     toordinal (mkdate 9999 10 23) < toordinal (dt_date (today w))) /\
  (toordinal (dt_date (today w)) <= toordinal (mkdate 9999 10 23) ->
   exists out,
     screener w user_input stock_choice expiration_choice
       min_price max_price m = Ok out).
Proof.
  intros Hv.
  assert (H23 : toordinal (mkdate 9999 10 23) = MAXORDINAL - 69)
    by (vm_compute; reflexivity).
  rewrite H23.
  assert (Hr : forall e,
             screener w user_input stock_choice expiration_choice
               min_price max_price m = Raise e ->
             e = OverflowError /\
             MAXORDINAL - 69 < toordinal (dt_date (today w))).
  { intros e H. unfold screener, run_selected in H.
    destruct (String.eqb _ "ALL").
    - destruct (get_weekly_fridays (today w) 10) as [l|e'] eqn:E;
        cbn [bind] in H; [discriminate|]. injection H as ->.
      apply (get_weekly_fridays_raise _ _ _ Hv) in E. split; [apply E | lia].
    - destruct (get_weekly_fridays (today w) 4) as [l|e'] eqn:E;
        cbn [bind] in H; [|injection H as ->].
      + destruct (collect _ _ _ _ _); discriminate.
      + apply (get_weekly_fridays_raise _ _ _ Hv) in E. split; [apply E | lia]. }
  split; [exact Hr|]. intros Hd.
  destruct (screener w user_input stock_choice expiration_choice
              min_price max_price m) as [out|e] eqn:E; [eauto|].
  destruct (Hr e eq_refl) as [_ H]. lia.
Qed.

Lemma page_raises_only_past_the_calendar_witness :
  (forall e,
     screener (example_world wednesday_10am 200 example_chain buy_info)
       "amd" 0 1 50 1000 5 = Raise e ->
     e = OverflowError /\
     toordinal (mkdate 9999 10 23)
     < toordinal
         (dt_date (today (example_world wednesday_10am 200 example_chain
                            buy_info)))) /\
  (toordinal
     (dt_date (today (example_world wednesday_10am 200 example_chain
                        buy_info)))
   <= toordinal (mkdate 9999 10 23) ->
   exists out,
     screener (example_world wednesday_10am 200 example_chain buy_info)
       "amd" 0 1 50 1000 5 = Ok out).
Proof.
  apply (page_raises_only_past_the_calendar
           (example_world wednesday_10am 200 example_chain buy_info)
           "amd" 0 1 50 1000 5).
  vm_compute. repeat split; discriminate.
Defined.

End PageExceptions.
